(** * 10k-storytelling: extraction, reconciliation and flow-graph construction

    A shallow embedding of [extract_financials.py] and [visualize_sankey.py].

    Modelling conventions.
    - Python numbers ([int] and finite [float]) are exact rationals [Q]; the
      JSON booleans, which Python treats as the integers 1 and 0, are numbers
      too.  NaN and the infinities are not represented.
    - Exceptions are explicit: a computation returns [Ok v] or [Raise e].
    - The external libraries are taken by their results: the text generation
      service ([call_ollama] followed by [strip_markdown], [find]/[rfind] and
      [json.loads]) by the decoded reply, [re.search] by the groups it
      captures.
    - Python dictionaries whose iteration order is observed are association
      lists in insertion order. *)

From Stdlib Require Import List String Ascii Bool ZArith QArith Qabs Lia Lqa.
Import ListNotations.

Local Open Scope string_scope.
Local Open Scope list_scope.

(** ** Python values, exceptions and containers *)

Module Py.

Inductive exn : Type :=
| RuntimeError
| KeyError
| TypeError
| AttributeError
| IndexError.

Inductive res (A : Type) : Type :=
| Ok (a : A)
| Raise (e : exn).

Arguments Ok {A} a.
Arguments Raise {A} e.

Definition bind {A B : Type} (m : res A) (k : A -> res B) : res B :=
  match m with
  | Ok a => k a
  | Raise e => Raise e
  end.

Notation "x <- m ;; k" := (bind m (fun x => k))
  (at level 61, m at next level, right associativity).

(** A decoded JSON value, as far as the two programs look into it: a number,
    a string, or anything else ([null], a list, an object). *)
Inductive jv : Type :=
| JNum (q : Q)
| JStr (s : string)
| JOther.

(** An element of a decoded JSON array: an object, of which only the fields
    ["bucket"] and ["value"] are ever read, or something that is not an
    object. *)
Inductive jitem : Type :=
| JDict (bucket : option jv) (value : option jv)
| NotDict.

Definition Qltb (x y : Q) : bool := negb (Qle_bool y x).

(** [item["bucket"]] *)
Definition getitem_bucket (item : jitem) : res jv :=
  match item with
  | JDict (Some b) _ => Ok b
  | JDict None _ => Raise KeyError
  | NotDict => Raise TypeError
  end.

(** [item["value"]] *)
Definition getitem_value (item : jitem) : res jv :=
  match item with
  | JDict _ (Some v) => Ok v
  | JDict _ None => Raise KeyError
  | NotDict => Raise TypeError
  end.

(** [item.get('bucket')] *)
Definition get_bucket (item : jitem) : res (option jv) :=
  match item with
  | JDict b _ => Ok b
  | NotDict => Raise AttributeError
  end.

(** [item.get('value')] *)
Definition get_value (item : jitem) : res (option jv) :=
  match item with
  | JDict _ v => Ok v
  | NotDict => Raise AttributeError
  end.

(** [item.get('value', 0)] *)
Definition get_value_or_0 (item : jitem) : res jv :=
  match item with
  | JDict _ (Some v) => Ok v
  | JDict _ None => Ok (JNum 0)
  | NotDict => Raise AttributeError
  end.

(** [isinstance(v, (int, float))] *)
Definition is_number (v : jv) : bool :=
  match v with
  | JNum _ => true
  | _ => false
  end.

(** The operand of an arithmetic operation or of an ordering comparison
    with a number. *)
Definition as_num (v : jv) : res Q :=
  match v with
  | JNum q => Ok q
  | _ => Raise TypeError
  end.

(** [v == s] for a string literal [s] *)
Definition py_eq_str (v : jv) (s : string) : bool :=
  match v with
  | JStr t => String.eqb t s
  | _ => false
  end.

(** [v == 0] *)
Definition py_eq_zero (v : jv) : bool :=
  match v with
  | JNum q => Qeq_bool q 0
  | _ => false
  end.

(** [v > 0] *)
Definition py_gt_zero (v : jv) : res bool :=
  q <- as_num v ;; Ok (Qltb 0 q).

(** *** Lists indexed the Python way: [-1] is the last element *)

Definition norm_index {A : Type} (l : list A) (i : Z) : res nat :=
  let n := Z.of_nat (List.length l) in
  if ((0 <=? i) && (i <? n))%Z then Ok (Z.to_nat i)
  else if ((- n <=? i) && (i <? 0))%Z then Ok (Z.to_nat (n + i))
  else Raise IndexError.

Fixpoint set_nth {A : Type} (l : list A) (k : nat) (x : A) : list A :=
  match l, k with
  | [], _ => []
  | _ :: tl, O => x :: tl
  | hd :: tl, S k' => hd :: set_nth tl k' x
  end.

Definition py_get {A : Type} (l : list A) (i : Z) : res A :=
  k <- norm_index l i ;;
  match nth_error l k with
  | Some x => Ok x
  | None => Raise IndexError
  end.

Definition py_set {A : Type} (l : list A) (i : Z) (x : A) : res (list A) :=
  k <- norm_index l i ;; Ok (set_nth l k x).

(** *** Dictionaries in insertion order *)

Section Dict.
Context {K V : Type} (eqb : K -> K -> bool).

Fixpoint dict_get (d : list (K * V)) (k : K) : option V :=
  match d with
  | [] => None
  | (k', v) :: tl => if eqb k' k then Some v else dict_get tl k
  end.

Definition dict_mem (d : list (K * V)) (k : K) : bool :=
  match dict_get d k with
  | Some _ => true
  | None => false
  end.

(** [d[k] = v]: a key already present keeps its place. *)
Fixpoint dict_set (d : list (K * V)) (k : K) (v : V) : list (K * V) :=
  match d with
  | [] => [(k, v)]
  | (k', v') :: tl =>
      if eqb k' k then (k', v) :: tl else (k', v') :: dict_set tl k v
  end.
End Dict.

(** *** Strings *)

Definition lower_ascii (c : ascii) : ascii :=
  let n := nat_of_ascii c in
  if (65 <=? n)%nat && (n <=? 90)%nat then ascii_of_nat (n + 32) else c.

(** [s.lower()] on ASCII text *)
Fixpoint lower (s : string) : string :=
  match s with
  | EmptyString => EmptyString
  | String c tl => String (lower_ascii c) (lower tl)
  end.

(** [s.replace(',', '')] *)
Fixpoint remove_commas (s : string) : string :=
  match s with
  | EmptyString => EmptyString
  | String c tl =>
      if Ascii.eqb c ","%char then remove_commas tl
      else String c (remove_commas tl)
  end.

Definition digit_of (c : ascii) : option Z :=
  let n := nat_of_ascii c in
  if (48 <=? n)%nat && (n <=? 57)%nat then Some (Z.of_nat (n - 48)) else None.

(** Reads a run of decimal digits: the number read so far, the number of
    digits, and the rest of the string. *)
Fixpoint read_digits (s : string) (acc : Z) (count : nat)
  : Z * nat * string :=
  match s with
  | EmptyString => (acc, count, EmptyString)
  | String c tl =>
      match digit_of c with
      | Some d => read_digits tl (10 * acc + d)%Z (S count)
      | None => (acc, count, s)
      end
  end.

(** [float(s)], on the literals that group 1 of the patterns,
    [[\d,]+(?:\.\d+)?], can leave once the commas are removed: digits with an
    optional fraction.  [None] stands for [ValueError]; the empty string
    (a capture made of commas only) is the one such literal that fails.
    Signs, exponents, blanks and the special values, which [float] accepts
    too, cannot be captured and are rejected here. *)
Definition py_float (s : string) : option Q :=
  let '(ip, ni, rest) := read_digits s 0%Z 0%nat in
  match rest with
  | EmptyString =>
      match ni with
      | O => None
      | S _ => Some (inject_Z ip)
      end
  | String c tl =>
      if Ascii.eqb c "."%char then
        let '(fp, nf, rest') := read_digits tl 0%Z 0%nat in
        match rest', (ni + nf)%nat with
        | EmptyString, S _ =>
            Some (inject_Z ip + inject_Z fp / inject_Z (10 ^ Z.of_nat nf))%Q
        | _, _ => None
        end
      else None
  end.

End Py.

Import Py.

(** ** extract_financials.py *)

Module ExtractFinancials.

(** The two prompts sent to the service; both embed the summary text. *)
Inductive prompt : Type :=
| ExtractionPrompt (summary_text : string)
| BreakdownPrompt (summary_text : string).

(** What a request to the service comes to, once [strip_markdown], the search
    for the outermost brackets and [json.loads] have run on the reply: the
    decoded array, or [None] when there is no array in the reply or
    [json.loads] raises. *)
Definition decoded : Type := option (list jitem).

Inductive reflag : Type :=
| NOFLAG
| IGNORECASE.

(** The match object of [re.search]: [m.group(1)] and [m.group(2)], the
    latter [None] when the optional unit group did not take part. *)
Record rmatch : Type := mkMatch {
  group1 : string;
  group2 : option string
}.

(** The twelve keys the prompt asks for, in the order of the prompt. *)
Definition TAXONOMY : list string :=
  [ "Products"; "Services"; "Revenue"; "Cost of Revenue"; "Gross Profit";
    "Operating Expenses"; "Operating Income"; "Interest Expense";
    "Interest Income"; "Other Income/Expense"; "Taxes"; "Net Income" ].

(** The tail shared by every pattern: the amount and its optional unit. *)
Definition amount : string :=
  "[^0-9$]*\$?([\d,]+(?:\.\d+)?)(?:\s*(million|billion|m|b|M|B))?".

Definition patterns : list (string * list string) :=
  [ ("Products",
      [ "Products(?:\s+revenue)?" ++ amount;
        "Product\s+sales" ++ amount ]);
    ("Services",
      [ "Services(?:\s+revenue)?" ++ amount;
        "Service\s+revenue" ++ amount ]);
    ("Revenue",
      [ "(?:Total\s+)?Revenue" ++ amount;
        "Net\s+sales" ++ amount ]);
    ("Cost of Revenue",
      [ "Cost\s+of\s+(?:Revenue|Sales)" ++ amount;
        "COGS" ++ amount ]);
    ("Gross Profit",
      [ "Gross\s+Profit" ++ amount;
        "Gross\s+Margin" ++ amount ]);
    ("Operating Expenses",
      [ "Operating\s+Expenses" ++ amount;
        "(?:Total\s+)?OPEX" ++ amount ]);
    ("Operating Income",
      [ "Operating\s+Income" ++ amount;
        "Income\s+from\s+operations" ++ amount;
        "Operating\s+(?:profit|earnings)" ++ amount ]);
    ("Interest Expense",
      [ "Interest\s+Expense" ++ amount;
        "Interest\s+expenses" ++ amount ]);
    ("Interest Income",
      [ "Interest\s+Income" ++ amount;
        "Interest\s+earned" ++ amount ]);
    ("Other Income/Expense",
      [ "Other\s+Income(?:/Expense)?" ++ amount;
        "Other\s+income\s+and\s+expense" ++ amount ]);
    ("Taxes",
      [ "(?:Income\s+)?Tax(?:es)?(?:\s+Expense)?" ++ amount;
        "Provision\s+for\s+(?:income\s+)?taxes" ++ amount ]);
    ("Net Income",
      [ "Net\s+Income" ++ amount;
        "Net\s+Earnings" ++ amount;
        "Net\s+Profit" ++ amount ]) ]%string.

Definition unit_multiplier : list (string * Q) :=
  [ ("million", 1); ("m", 1); ("M", 1);
    ("billion", 1000); ("b", 1000); ("B", 1000) ]%Q.

(** [unit_multiplier.get(unit, 1.0)] *)
Definition multiplier_of (unit : string) : Q :=
  match dict_get String.eqb unit_multiplier unit with
  | Some k => k
  | None => 1
  end.

(** [(m.group(2) or "").lower()] *)
Definition unit_of (m : rmatch) : string :=
  lower match group2 m with
        | Some u => u
        | None => ""
        end.

Definition bucket_item (name : string) (val : Q) : jitem :=
  JDict (Some (JStr name)) (Some (JNum val)).

(** [next((i for i, item in enumerate(buckets) if item["bucket"] == name), -1)],
    the enumeration being at position [i]. *)
Fixpoint find_idx (name : string) (buckets : list jitem) (i : Z) : res Z :=
  match buckets with
  | [] => Ok (-1)%Z
  | item :: rest =>
      b <- getitem_bucket item ;;
      if py_eq_str b name then Ok i else find_idx name rest (i + 1)%Z
  end.

(** [buckets[i]["value"]] *)
Definition value_at (buckets : list jitem) (i : Z) : res jv :=
  item <- py_get buckets i ;; getitem_value item.

(** [buckets[i]["value"] = v] *)
Definition set_value (buckets : list jitem) (i : Z) (v : jv)
  : res (list jitem) :=
  item <- py_get buckets i ;;
  match item with
  | JDict b _ => py_set buckets i (JDict b (Some v))
  | NotDict => Raise TypeError
  end.

(** [buckets[i]["value"] *= ratio] *)
Definition mul_value (buckets : list jitem) (i : Z) (ratio : Q)
  : res (list jitem) :=
  v <- value_at buckets i ;;
  q <- as_num v ;;
  set_value buckets i (JNum (q * ratio)).

(** [all(isinstance(item.get('value', 0), (int, float)) for item in buckets)];
    [all] stops at the first item that fails the test. *)
Fixpoint all_numeric (buckets : list jitem) : res bool :=
  match buckets with
  | [] => Ok true
  | item :: rest =>
      v <- get_value_or_0 item ;;
      if is_number v then all_numeric rest else Ok false
  end.

(** [all(item.get('value', 0) == 0 for item in buckets)] *)
Fixpoint all_zero (buckets : list jitem) : res bool :=
  match buckets with
  | [] => Ok true
  | item :: rest =>
      v <- get_value_or_0 item ;;
      if py_eq_zero v then all_zero rest else Ok false
  end.

(** One turn of the loop over the second reply.  The two tests run in
    order; an exception leaves the turn with the assignments made so far. *)
Definition breakdown_item (item : jitem) (products_idx services_idx : Z)
    (buckets : list jitem) : list jitem * option exn :=
  let assign (name : string) (idx : Z) (st : list jitem) :=
    match
      (b <- getitem_bucket item ;;
       if py_eq_str b name then
         v <- getitem_value item ;;
         positive <- py_gt_zero v ;;
         if positive then set_value st idx v else Ok st
       else Ok st)
    with
    | Ok st' => (st', None)
    | Raise e => (st, Some e)
    end in
  match assign "Products" products_idx buckets with
  | (st, Some e) => (st, Some e)
  | (st, None) => assign "Services" services_idx st
  end.

(** [for item in breakdown_json: ...]: the bucket list when the loop ends,
    and the exception that ended it early, if any. *)
Fixpoint breakdown_loop (items : list jitem) (products_idx services_idx : Z)
    (buckets : list jitem) : list jitem * option exn :=
  match items with
  | [] => (buckets, None)
  | item :: rest =>
      match breakdown_item item products_idx services_idx buckets with
      | (st, Some e) => (st, Some e)
      | (st, None) => breakdown_loop rest products_idx services_idx st
      end
  end.

(** The final validation: when Products and Services are both positive and
    their sum is off Revenue by more than 1%, both are scaled. *)
Definition final_validation (buckets : list jitem)
    (products_idx services_idx revenue_idx : Z) : res (list jitem) :=
  pv <- value_at buckets products_idx ;;
  p_pos <- py_gt_zero pv ;;
  if negb p_pos then Ok buckets else
  sv <- value_at buckets services_idx ;;
  s_pos <- py_gt_zero sv ;;
  if negb s_pos then Ok buckets else
  p <- as_num pv ;;
  s <- as_num sv ;;
  let sum_parts := (p + s)%Q in
  rv <- value_at buckets revenue_idx ;;
  revenue_val <- as_num rv ;;
  if Qltb (0.01 * revenue_val) (Qabs (sum_parts - revenue_val))
     && Qltb 0 revenue_val
  then
    pv' <- value_at buckets products_idx ;;
    p_pos' <- py_gt_zero pv' ;;
    if negb p_pos' then Ok buckets else
    sv' <- value_at buckets services_idx ;;
    s_pos' <- py_gt_zero sv' ;;
    if negb s_pos' then Ok buckets else
    let ratio := (revenue_val / sum_parts)%Q in
    buckets1 <- mul_value buckets products_idx ratio ;;
    mul_value buckets1 services_idx ratio
  else Ok buckets.

Section Run.

(** The service and the regular expression engine. *)
Variable call_ollama : prompt -> res decoded.
Variable re_search : string -> string -> reflag -> option rmatch.

Variable summary_text : string.

(** The loop over one key's patterns, [val] being the value so far: a
    pattern that matches and whose literal parses ends the loop ([break]);
    a literal that does not parse moves on ([continue]). *)
Fixpoint scan_patterns (pattern_list : list string) (val : Q) : Q :=
  match pattern_list with
  | [] => val
  | pattern :: rest =>
      match re_search pattern summary_text IGNORECASE with
      | Some m =>
          let num_str := remove_commas (group1 m) in
          match py_float num_str with
          | Some val' => (val' * multiplier_of (unit_of m))%Q
          | None => scan_patterns rest val
          end
      | None => scan_patterns rest val
      end
  end.

(** The regex fallback: one entry per key of [patterns], in its order. *)
Definition fallback_extraction : list jitem :=
  map (fun entry => bucket_item (fst entry) (scan_patterns (snd entry) 0))
      patterns.

(** The second, narrower request; whatever goes wrong inside it is caught
    and the bucket list stays as it was at that point. *)
Definition breakdown (buckets : list jitem) (products_idx services_idx : Z)
  : list jitem :=
  match call_ollama (BreakdownPrompt summary_text) with
  | Ok (Some breakdown_json) =>
      fst (breakdown_loop breakdown_json products_idx services_idx buckets)
  | Ok None => buckets
  | Raise _ => buckets
  end.

(** Lines 200 to 249: the check of Revenue against Products + Services. *)
Definition reconcile (buckets : list jitem) : res (list jitem) :=
  revenue_idx <- find_idx "Revenue" buckets 0 ;;
  products_idx <- find_idx "Products" buckets 0 ;;
  services_idx <- find_idx "Services" buckets 0 ;;
  infer <-
    (if (revenue_idx =? -1)%Z then Ok false else
     pv <- value_at buckets products_idx ;;
     some_zero <-
       (if py_eq_zero pv then Ok true else
        sv <- value_at buckets services_idx ;; Ok (py_eq_zero sv)) ;;
     if some_zero then
       rv <- value_at buckets revenue_idx ;; py_gt_zero rv
     else Ok false) ;;
  let buckets1 :=
    if infer then breakdown buckets products_idx services_idx
    else buckets in
  final_validation buckets1 products_idx services_idx revenue_idx.

(** The test that sends the run to the regex fallback:
    [not buckets or not valid_buckets or all(... == 0 ...)], with
    [valid_buckets] computed beforehand. *)
Definition unusable (buckets : list jitem) : res bool :=
  valid_buckets <- all_numeric buckets ;;
  match buckets with
  | [] => Ok true
  | _ :: _ => if negb valid_buckets then Ok true else all_zero buckets
  end.

(** [extract_financial_buckets_from_summary] *)
Definition extract_financial_buckets_from_summary : res (list jitem) :=
  reply <- call_ollama (ExtractionPrompt summary_text) ;;
  let buckets :=
    match reply with
    | Some js => js
    | None => []
    end in
  use_fallback <- unusable buckets ;;
  let buckets := if use_fallback then fallback_extraction else buckets in
  reconcile buckets.

End Run.


(** *** Bucket sets

    A bucket set is a list of named numbers; [bucket_list] is the list of
    JSON objects that stands for it in the program. *)

Definition bucket_list (l : list (string * Q)) : list jitem :=
  map (fun e => bucket_item (fst e) (snd e)) l.

(** The position of the first entry called [name]. *)
Fixpoint key_index (name : string) (l : list (string * Q)) : option nat :=
  match l with
  | [] => None
  | (k, _) :: rest =>
      if String.eqb k name then Some O
      else option_map S (key_index name rest)
  end.

Definition val_at (l : list (string * Q)) (i : nat) : Q :=
  match nth_error l i with
  | Some (_, q) => q
  | None => 0
  end.

(** The bucket set with the value at position [i] replaced. *)
Definition upd (l : list (string * Q)) (i : nat) (q : Q)
  : list (string * Q) :=
  match nth_error l i with
  | Some (k, _) => set_nth l i (k, q)
  | None => l
  end.

Definition fill (i : nat) (o : option Q) (l : list (string * Q))
  : list (string * Q) :=
  match o with
  | Some q => upd l i q
  | None => l
  end.

(** The values the loop over the second reply accepts for Products and for
    Services: for each key the last positive value read before the loop
    ends, [acc] holding those accepted so far. *)
Fixpoint accepted (items : list jitem) (acc : option Q * option Q)
  : option Q * option Q :=
  match items with
  | [] => acc
  | item :: rest =>
      match getitem_bucket item with
      | Raise _ => acc
      | Ok b =>
          if py_eq_str b "Products" then
            match getitem_value item with
            | Ok (JNum q) =>
                accepted rest (if Qltb 0 q then (Some q, snd acc) else acc)
            | _ => acc
            end
          else if py_eq_str b "Services" then
            match getitem_value item with
            | Ok (JNum q) =>
                accepted rest (if Qltb 0 q then (fst acc, Some q) else acc)
            | _ => acc
            end
          else accepted rest acc
      end
  end.

(** The items of a reply, none when the request failed or gave no array. *)
Definition reply_items (reply : res decoded) : list jitem :=
  match reply with
  | Ok (Some js) => js
  | _ => []
  end.

(** Whether the second request is made. *)
Definition needs_breakdown (l : list (string * Q)) (pi si ri : nat) : bool :=
  (Qeq_bool (val_at l pi) 0 || Qeq_bool (val_at l si) 0)
  && Qltb 0 (val_at l ri).

(** The bucket set after the second request. *)
Definition after_breakdown (reply : res decoded) (l : list (string * Q))
    (pi si : nat) : list (string * Q) :=
  let a := accepted (reply_items reply) (None, None) in
  fill si (snd a) (fill pi (fst a) l).

(** Whether the final validation scales Products and Services. *)
Definition off_balance (l : list (string * Q)) (pi si ri : nat) : bool :=
  Qltb 0 (val_at l pi) && Qltb 0 (val_at l si)
  && (Qltb (0.01 * val_at l ri)
           (Qabs (val_at l pi + val_at l si - val_at l ri))
      && Qltb 0 (val_at l ri)).

Definition rescale (l : list (string * Q)) (pi si ri : nat)
  : list (string * Q) :=
  if off_balance l pi si ri then
    let ratio := (val_at l ri / (val_at l pi + val_at l si))%Q in
    upd (upd l pi (val_at l pi * ratio)) si (val_at l si * ratio)
  else l.

(** Reconciliation on a bucket set whose Products, Services and Revenue
    entries are at [pi], [si] and [ri]. *)
Definition reconcile_buckets (reply : res decoded) (l : list (string * Q))
    (pi si ri : nat) : list (string * Q) :=
  let l1 :=
    if needs_breakdown l pi si ri then after_breakdown reply l pi si
    else l in
  rescale l1 pi si ri.

(** The bucket set of the regex fallback. *)
Definition fallback_buckets
    (re_search : string -> string -> reflag -> option rmatch)
    (summary_text : string) : list (string * Q) :=
  map (fun entry =>
         (fst entry, scan_patterns re_search summary_text (snd entry) 0))
      patterns.



(** The value read under [name] in a bucket set. *)
Definition value_of (name : string) (l : list (string * Q)) : option Q :=
  dict_get String.eqb l name.

End ExtractFinancials.

(** ** visualize_sankey.py *)

Module VisualizeSankey.

Definition tiny : Q := 1e-9.

(** The three tables filled while the bucket file is read. *)
Record tables : Type := mkTables {
  bucket_values : list (string * Q);
  bucket_display : list (string * Q);
  valid_items : list string
}.

(** [max(disp, 1e-9)] *)
Definition at_least_tiny (disp : Q) : Q :=
  if Qltb disp tiny then tiny else disp.

(** [abs(v) if abs(v) > 1e-9 else 1e-9] *)
Definition display_of (v : Q) : Q :=
  if Qltb tiny (Qabs v) then Qabs v else tiny.

(** The loop over [buckets_raw]: an entry counts when its name is a string
    and its value a number. *)
Fixpoint load_buckets (buckets_raw : list jitem) (t : tables) : res tables :=
  match buckets_raw with
  | [] => Ok t
  | item :: rest =>
      name <- get_bucket item ;;
      val <- get_value item ;;
      match name, val with
      | Some (JStr name), Some (JNum val) =>
          load_buckets rest
            (mkTables
               (dict_set String.eqb (bucket_values t) name val)
               (dict_set String.eqb (bucket_display t) name
                  (at_least_tiny (Qabs val)))
               (valid_items t ++ [name]))
      | _, _ => load_buckets rest t
      end
  end.

(** [bucket_values[name]] where the program has tested [name in bucket_values]
    first, and [bucket_values.get(name, 0)]. *)
Definition value_or_0 (d : list (string * Q)) (name : string) : Q :=
  match dict_get String.eqb d name with
  | Some v => v
  | None => 0
  end.

Definition has {V : Type} (d : list (string * V)) (name : string) : bool :=
  dict_mem String.eqb d name.

(** The state after the two derivations: the tables and [derived_items]. *)
Definition derive_ebit (t : tables) (derived_items : list (string * Q))
  : tables * list (string * Q) :=
  if has (bucket_values t) "Operating Income"
     && negb (has (bucket_values t) "EBIT")
  then
    let ebit_value := value_or_0 (bucket_values t) "Operating Income" in
    let ebit_value :=
      if has (bucket_values t) "Other Income/Expense"
      then (ebit_value + value_or_0 (bucket_values t) "Other Income/Expense")%Q
      else ebit_value in
    (mkTables (bucket_values t)
       (dict_set String.eqb (bucket_display t) "EBIT" (display_of ebit_value))
       (valid_items t ++ ["EBIT"]),
     dict_set String.eqb derived_items "EBIT" ebit_value)
  else (t, derived_items).

Definition derive_ebt (t : tables) (derived_items : list (string * Q))
  : tables * list (string * Q) :=
  if (has (bucket_values t) "EBIT" || has derived_items "EBIT")
     && negb (has (bucket_values t) "EBT")
  then
    let ebit_value :=
      match dict_get String.eqb derived_items "EBIT" with
      | Some v => v
      | None => value_or_0 (bucket_values t) "EBIT"
      end in
    let ebt_value := ebit_value in
    let ebt_value :=
      if has (bucket_values t) "Interest Income"
      then (ebt_value + value_or_0 (bucket_values t) "Interest Income")%Q
      else ebt_value in
    let ebt_value :=
      if has (bucket_values t) "Interest Expense"
      then (ebt_value - value_or_0 (bucket_values t) "Interest Expense")%Q
      else ebt_value in
    (mkTables (bucket_values t)
       (dict_set String.eqb (bucket_display t) "EBT" (display_of ebt_value))
       (valid_items t ++ ["EBT"]),
     dict_set String.eqb derived_items "EBT" ebt_value)
  else (t, derived_items).

(** [d.update(other)] *)
Definition dict_update (d other : list (string * Q)) : list (string * Q) :=
  fold_left (fun acc kv => dict_set String.eqb acc (fst kv) (snd kv)) other d.

(** [{n: i for i, n in enumerate(nodes)}], the enumeration being at [i]. *)
Fixpoint index_nodes (nodes : list string) (i : nat)
    (idx : list (string * nat)) : list (string * nat) :=
  match nodes with
  | [] => idx
  | n :: rest => index_nodes rest (S i) (dict_set String.eqb idx n i)
  end.

Definition add_flow (idx : list (string * nat)) (flows : list (string * string))
    (src tgt : string) : list (string * string) :=
  if has idx src && has idx tgt then flows ++ [(src, tgt)] else flows.

(** The flow connections, in the order the program adds them. *)
Definition build_flows (idx : list (string * nat)) : list (string * string) :=
  let flows := [] in
  let flows := add_flow idx flows "Products" "Revenue" in
  let flows := add_flow idx flows "Services" "Revenue" in
  let flows := add_flow idx flows "Revenue" "Cost of Revenue" in
  let flows := add_flow idx flows "Revenue" "Gross Profit" in
  let flows := add_flow idx flows "Gross Profit" "Operating Expenses" in
  let flows := add_flow idx flows "Gross Profit" "Operating Income" in
  let flows :=
    if has idx "EBIT" then
      let flows := add_flow idx flows "Operating Income" "EBIT" in
      if has idx "Other Income/Expense"
      then add_flow idx flows "Other Income/Expense" "EBIT"
      else flows
    else
      let flows :=
        if has idx "Interest Income"
        then add_flow idx flows "Operating Income" "Interest Income"
        else flows in
      let flows :=
        if has idx "Interest Expense"
        then add_flow idx flows "Operating Income" "Interest Expense"
        else flows in
      if has idx "Other Income/Expense"
      then add_flow idx flows "Operating Income" "Other Income/Expense"
      else flows in
  let flows :=
    if has idx "EBIT" && has idx "EBT" then
      let flows := add_flow idx flows "EBIT" "EBT" in
      let flows :=
        if has idx "Interest Income"
        then add_flow idx flows "Interest Income" "EBT"
        else flows in
      if has idx "Interest Expense"
      then add_flow idx flows "Interest Expense" "EBT"
      else flows
    else flows in
  let flows :=
    if has idx "EBT" then
      let flows := add_flow idx flows "EBT" "Net Income" in
      if has idx "Taxes" then add_flow idx flows "Taxes" "Net Income"
      else flows
    else
      let flows := add_flow idx flows "Operating Income" "Net Income" in
      if has idx "Taxes" then add_flow idx flows "Taxes" "Net Income"
      else flows in
  let flows :=
    if has idx "Interest Income" && has idx "Net Income"
       && (negb (has idx "EBIT") && negb (has idx "EBT"))
    then add_flow idx flows "Interest Income" "Net Income"
    else flows in
  let flows :=
    if has idx "Interest Expense" && has idx "Net Income"
       && (negb (has idx "EBIT") && negb (has idx "EBT"))
    then add_flow idx flows "Interest Expense" "Net Income"
    else flows in
  flows.

(** The horizontal levels, left to right. *)
Definition levels : list (Q * list string) :=
  [ (0.0, ["Products"; "Services"]);
    (0.15, ["Revenue"]);
    (0.3, ["Cost of Revenue"; "Gross Profit"]);
    (0.45, ["Operating Expenses"; "Operating Income"]);
    (0.6, ["EBIT"; "Other Income/Expense"]);
    (0.75, ["Interest Income"; "Interest Expense"; "EBT"]);
    (0.9, ["Taxes"; "Net Income"]) ]%Q.

(** [for name in names: if name in idx: node_x[idx[name]] = x] *)
Fixpoint place_level (idx : list (string * nat)) (x : Q) (names : list string)
    (node_x : list Q) : list Q :=
  match names with
  | [] => node_x
  | name :: rest =>
      place_level idx x rest
        match dict_get String.eqb idx name with
        | Some i => set_nth node_x i x
        | None => node_x
        end
  end.

Definition assign_x (idx : list (string * nat)) (node_x : list Q) : list Q :=
  fold_left (fun acc level => place_level idx (fst level) (snd level) acc)
            levels node_x.

(** [x_groups[x_pos].append(name)], the group being created when missing. *)
Fixpoint group_append (x_groups : list (Q * list string)) (x_pos : Q)
    (name : string) : list (Q * list string) :=
  match x_groups with
  | [] => [(x_pos, [name])]
  | (x, names) :: rest =>
      if Qeq_bool x x_pos then (x, names ++ [name]) :: rest
      else (x, names) :: group_append rest x_pos name
  end.

(** [for name, i in idx.items(): ...] *)
Fixpoint group_by_x (items : list (string * nat)) (node_x : list Q)
    (x_groups : list (Q * list string)) : res (list (Q * list string)) :=
  match items with
  | [] => Ok x_groups
  | (name, i) :: rest =>
      match nth_error node_x i with
      | Some x_pos => group_by_x rest node_x (group_append x_groups x_pos name)
      | None => Raise IndexError
      end
  end.

(** The vertical position of the [i]-th of [num_nodes] names of a group. *)
Definition y_position (i num_nodes : nat) : Q :=
  if (1 <? num_nodes)%nat
  then 0.1 + (inject_Z (Z.of_nat i) / inject_Z (Z.of_nat num_nodes - 1)) * 0.8
  else 0.5.

(** [for i, name in enumerate(names): node_y[idx[name]] = ...] *)
Fixpoint spread_group (idx : list (string * nat)) (names : list string)
    (i num_nodes : nat) (node_y : list Q) : res (list Q) :=
  match names with
  | [] => Ok node_y
  | name :: rest =>
      match dict_get String.eqb idx name with
      | Some k =>
          if (k <? List.length node_y)%nat
          then spread_group idx rest (S i) num_nodes
                 (set_nth node_y k (y_position i num_nodes))
          else Raise IndexError
      | None => Raise KeyError
      end
  end.

Fixpoint assign_y (idx : list (string * nat))
    (x_groups : list (Q * list string)) (node_y : list Q) : res (list Q) :=
  match x_groups with
  | [] => Ok node_y
  | (_, names) :: rest =>
      node_y' <- spread_group idx names 0 (List.length names) node_y ;;
      assign_y idx rest node_y'
  end.

(** What [plot_sankey] hands to the renderer, before colours and labels. *)
Record graph : Type := mkGraph {
  g_values : list (string * Q);
  g_derived : list (string * Q);
  nodes : list string;
  node_index : list (string * nat);
  flows : list (string * string);
  groups : list (Q * list string);
  node_x : list Q;
  node_y : list Q
}.

Definition plot_sankey (buckets_raw : list jitem) : res graph :=
  t <- load_buckets buckets_raw (mkTables [] [] []) ;;
  let '(t, derived_items) := derive_ebit t [] in
  let '(t, derived_items) := derive_ebt t derived_items in
  let values := dict_update (bucket_values t) derived_items in
  let nodes := valid_items t in
  let idx := index_nodes nodes 0 [] in
  let flows := build_flows idx in
  let node_x := assign_x idx (repeat 0.0%Q (List.length nodes)) in
  x_groups <- group_by_x idx node_x [] ;;
  node_y <- assign_y idx x_groups (repeat 0.5%Q (List.length nodes)) ;;
  Ok (mkGraph values derived_items nodes idx flows x_groups node_x node_y).

(** Edges as a relation, paths and cycles. *)
Inductive path (edges : list (string * string)) : string -> string -> Prop :=
| path_edge (a b : string) : In (a, b) edges -> path edges a b
| path_step (a b c : string) :
    In (a, b) edges -> path edges b c -> path edges a c.

Definition acyclic (edges : list (string * string)) : Prop :=
  forall a : string, ~ path edges a a.

Definition out_degree (edges : list (string * string)) (n : string) : nat :=
  List.length (filter (fun e => String.eqb (fst e) n) edges).

(** The place of a name in the flow of money, from the sources of revenue
    down to the net income; a name outside the flow has place 0. *)
Definition rank (name : string) : nat :=
  if String.eqb name "Revenue" then 1
  else if String.eqb name "Cost of Revenue" then 2
  else if String.eqb name "Gross Profit" then 2
  else if String.eqb name "Operating Expenses" then 3
  else if String.eqb name "Operating Income" then 3
  else if String.eqb name "Other Income/Expense" then 4
  else if String.eqb name "Interest Income" then 4
  else if String.eqb name "Interest Expense" then 4
  else if String.eqb name "EBIT" then 5
  else if String.eqb name "EBT" then 6
  else if String.eqb name "Taxes" then 6
  else if String.eqb name "Net Income" then 7
  else 0.

(** The connections of [build_flows] as a table: each one with the test on
    the node set under which the program reaches its [add_flow]. *)
Definition flow_rules
  : list ((list (string * nat) -> bool) * (string * string)) :=
  [ (fun _ => true, ("Products", "Revenue"));
    (fun _ => true, ("Services", "Revenue"));
    (fun _ => true, ("Revenue", "Cost of Revenue"));
    (fun _ => true, ("Revenue", "Gross Profit"));
    (fun _ => true, ("Gross Profit", "Operating Expenses"));
    (fun _ => true, ("Gross Profit", "Operating Income"));
    (fun idx => has idx "EBIT", ("Operating Income", "EBIT"));
    (fun idx => has idx "EBIT", ("Other Income/Expense", "EBIT"));
    (fun idx => negb (has idx "EBIT"),
      ("Operating Income", "Interest Income"));
    (fun idx => negb (has idx "EBIT"),
      ("Operating Income", "Interest Expense"));
    (fun idx => negb (has idx "EBIT"),
      ("Operating Income", "Other Income/Expense"));
    (fun idx => has idx "EBIT", ("EBIT", "EBT"));
    (fun idx => has idx "EBIT", ("Interest Income", "EBT"));
    (fun idx => has idx "EBIT", ("Interest Expense", "EBT"));
    (fun _ => true, ("EBT", "Net Income"));
    (fun idx => negb (has idx "EBT"), ("Operating Income", "Net Income"));
    (fun _ => true, ("Taxes", "Net Income"));
    (fun idx => negb (has idx "EBIT") && negb (has idx "EBT"),
      ("Interest Income", "Net Income"));
    (fun idx => negb (has idx "EBIT") && negb (has idx "EBT"),
      ("Interest Expense", "Net Income")) ].

Definition rule_fires (idx : list (string * nat))
    (rule : (list (string * nat) -> bool) * (string * string)) : bool :=
  fst rule idx && has idx (fst (snd rule)) && has idx (snd (snd rule)).

Definition flows_by_rule (idx : list (string * nat))
  : list (string * string) :=
  map snd (filter (rule_fires idx) flow_rules).

(** The names whose presence [build_flows] looks at, and the node index that
    holds exactly those of them that [present] marks. *)
Definition flow_keys : list string :=
  [ "Products"; "Services"; "Revenue"; "Cost of Revenue"; "Gross Profit";
    "Operating Expenses"; "Operating Income"; "Interest Expense";
    "Interest Income"; "Other Income/Expense"; "Taxes"; "Net Income";
    "EBIT"; "EBT" ].

Fixpoint index_of_marks (keys : list string) (present : list bool)
  : list (string * nat) :=
  match keys, present with
  | k :: keys', b :: present' =>
      if b then (k, O) :: index_of_marks keys' present'
      else index_of_marks keys' present'
  | _, _ => []
  end.

(** Every list of [n] marks. *)
Fixpoint all_marks (n : nat) : list (list bool) :=
  match n with
  | O => [[]]
  | S n' =>
      map (cons true) (all_marks n') ++ map (cons false) (all_marks n')
  end.

Fixpoint flows_eqb (a b : list (string * string)) : bool :=
  match a, b with
  | [], [] => true
  | (s, t) :: a', (s', t') :: b' =>
      String.eqb s s' && String.eqb t t' && flows_eqb a' b'
  | _, _ => false
  end.

(** The names listed are the keys of [bucket_values]. *)
Definition listed (t : tables) : Prop :=
  forall k : string, In k (valid_items t) <-> has (bucket_values t) k = true.

(** The two derivations, read off the values of the bucket file: whether
    EBIT, and EBT, are derived, and with which value. *)
Definition derives_ebit (bv : list (string * Q)) : bool :=
  has bv "Operating Income" && negb (has bv "EBIT").

Definition derived_ebit (bv : list (string * Q)) : Q :=
  if has bv "Other Income/Expense"
  then value_or_0 bv "Operating Income" + value_or_0 bv "Other Income/Expense"
  else value_or_0 bv "Operating Income".

Definition derives_ebt (bv : list (string * Q)) : bool :=
  (has bv "EBIT" || derives_ebit bv) && negb (has bv "EBT").

Definition ebit_of (bv : list (string * Q)) : Q :=
  if derives_ebit bv then derived_ebit bv else value_or_0 bv "EBIT".

Definition derived_ebt (bv : list (string * Q)) : Q :=
  let v := ebit_of bv in
  let v :=
    if has bv "Interest Income" then v + value_or_0 bv "Interest Income"
    else v in
  if has bv "Interest Expense" then v - value_or_0 bv "Interest Expense"
  else v.

(** *** Stages

    The horizontal position of an indexed name, the names of a stage in the
    order of the node index, and stage positions that differ pairwise. *)
Definition stage_at (node_x : list Q) (e : string * nat) : Q :=
  nth (snd e) node_x 0.

Definition in_stage (node_x : list Q) (x : Q) (e : string * nat) : bool :=
  Qeq_bool x (stage_at node_x e).

Definition stage_group (idx : list (string * nat)) (node_x : list Q) (x : Q)
  : Q * list string :=
  (x, map fst (filter (in_stage node_x x) idx)).

Fixpoint apart (keys : list Q) : Prop :=
  match keys with
  | [] => True
  | x :: rest => Forall (fun x' => Qeq_bool x x' = false) rest /\ apart rest
  end.

(** The stage positions [keys] differ pairwise and every name of [P] is in
    the stage of one of them. *)
Definition grouped (node_x : list Q) (P : list (string * nat))
    (keys : list Q) : Prop :=
  apart keys /\
  forall e : string * nat, In e P ->
    existsb (fun x => in_stage node_x x e) keys = true.

(** The assignments to [node_y] that a group makes, and their effect. *)
Fixpoint writes (idx : list (string * nat)) (names : list string)
    (i num_nodes : nat) : list (nat * Q) :=
  match names with
  | [] => []
  | name :: rest =>
      match dict_get String.eqb idx name with
      | Some k => (k, y_position i num_nodes) :: writes idx rest (S i) num_nodes
      | None => []
      end
  end.

Definition apply_writes (ws : list (nat * Q)) (node_y : list Q) : list Q :=
  fold_left (fun acc w => set_nth acc (fst w) (snd w)) ws node_y.

(** [idx] indexes [names]: its keys are distinct, each entry gives a position
    of its name, and every name has an entry. *)
Definition indexes (names : list string) (idx : list (string * nat)) : Prop :=
  NoDup (map fst idx) /\
  (forall (name : string) (k : nat),
     In (name, k) idx -> nth_error names k = Some name) /\
  (forall name : string, In name names -> In name (map fst idx)).

(** Every name of [names] has a position below [len] in the index. *)
Definition resolved (idx : list (string * nat)) (len : nat)
    (names : list string) : Prop :=
  forall name : string, In name names ->
    exists k : nat, dict_get String.eqb idx name = Some k /\ (k < len)%nat.

(** The bucket file that holds a bucket set. *)
Definition bucket_file (l : list (string * Q)) : list jitem :=
  ExtractFinancials.bucket_list l.

End VisualizeSankey.

(** ** Sample inputs *)

Module Examples.
Import ExtractFinancials VisualizeSankey.

(** The service is not available: every request fails. *)
Definition service_down : prompt -> res decoded :=
  fun _ => Raise RuntimeError.

(** The service answers the extraction request with prose that holds no
    array, and fails on the breakdown request. *)
Definition service_prose_then_down : prompt -> res decoded :=
  fun p =>
    match p with
    | ExtractionPrompt _ => Ok None
    | BreakdownPrompt _ => Raise RuntimeError
    end.


(** The service answers the extraction request with three of the twelve
    keys and one key of its own. *)
Definition short_reply : list jitem :=
  [ bucket_item "Products" 600; bucket_item "Services" 400;
    bucket_item "Revenue" 1000; bucket_item "Mystery" 7 ].


(** What [re.search] finds in [revenue_text]: the first Revenue pattern
    matches, with the amount and the unit; no other pattern does. *)
Definition revenue_text : string := "Total Revenue: $1,000 million".

Definition revenue_search (pattern text : string) (flag : reflag)
  : option rmatch :=
  if String.eqb text revenue_text
     && String.eqb pattern ("(?:Total\s+)?Revenue" ++ amount)%string
  then Some (mkMatch "1,000" (Some "million"))
  else None.





(** A full bucket set. *)
Definition full_set : list (string * Q) :=
  [ ("Products", 600); ("Services", 400); ("Revenue", 1000);
    ("Cost of Revenue", 500); ("Gross Profit", 500);
    ("Operating Expenses", 300); ("Operating Income", 200);
    ("Interest Expense", 15); ("Interest Income", 5);
    ("Other Income/Expense", -20); ("Taxes", 40); ("Net Income", 130) ].

(** A full bucket set without the revenue parts. *)
Definition no_parts : list (string * Q) :=
  [ ("Products", 0); ("Services", 0); ("Revenue", 1000);
    ("Cost of Revenue", 500); ("Gross Profit", 500);
    ("Operating Expenses", 300); ("Operating Income", 200);
    ("Interest Expense", 15); ("Interest Income", 5);
    ("Other Income/Expense", -20); ("Taxes", 40); ("Net Income", 130) ].



End Examples.

(** ** extract_financials.py: from the raw reply to the text that is parsed *)

Module ReplyText.

Definition star : ascii := "*"%char.
Definition newline : ascii := "010"%char.
Definition backtick : ascii := "`"%char.

(** Strings are read byte by byte.  In UTF-8 no byte of a character outside
    ASCII is an asterisk, a backtick, a bracket or a line feed, so what the
    functions below do to the bytes is what the program does to the
    characters. *)

(** What the lazy group of [\*(.*?)\*] captures when [s] is the text after
    the opening asterisk: the characters up to the next asterisk, unless a
    line feed, which the dot does not match, or the end comes first. *)
Fixpoint lazy_group1 (s : string) : option string :=
  match s with
  | EmptyString => None
  | String c tl =>
      if Ascii.eqb c star then Some EmptyString
      else if Ascii.eqb c newline then None
      else option_map (String c) (lazy_group1 tl)
  end.

(** The text after two asterisks, when [s] opens with them. *)
Definition opening2 (s : string) : option string :=
  match s with
  | String a (String b rest) =>
      if Ascii.eqb a star && Ascii.eqb b star then Some rest else None
  | _ => None
  end.

(** The same for [\*\*(.*?)\*\*], [s] being the text after the two opening
    asterisks: the group ends at the first place where two asterisks
    follow. *)
Fixpoint lazy_group2 (s : string) : option string :=
  match s with
  | EmptyString => None
  | String c tl =>
      match opening2 s with
      | Some _ => Some EmptyString
      | None =>
          if Ascii.eqb c newline then None
          else option_map (String c) (lazy_group2 tl)
      end
  end.

(** [re.sub(r'\*\*(.*?)\*\*', r'\1', text)].  The text is scanned from the
    left; where the pattern matches, the group is written and the scan
    resumes after the match ([skip] counts the characters of the match still
    to pass); elsewhere the character is copied. *)
Fixpoint sub_bold (s : string) (skip : nat) : string :=
  match s with
  | EmptyString => EmptyString
  | String c tl =>
      match skip with
      | S k => sub_bold tl k
      | O =>
          match opening2 s with
          | Some rest =>
              match lazy_group2 rest with
              | Some g => g ++ sub_bold tl (String.length g + 3)
              | None => String c (sub_bold tl 0)
              end
          | None => String c (sub_bold tl 0)
          end
      end
  end%string.

(** [re.sub(r'\*(.*?)\*', r'\1', text)] *)
Fixpoint sub_italic (s : string) (skip : nat) : string :=
  match s with
  | EmptyString => EmptyString
  | String c tl =>
      match skip with
      | S k => sub_italic tl k
      | O =>
          if Ascii.eqb c star then
            match lazy_group1 tl with
            | Some g => g ++ sub_italic tl (String.length g + 1)
            | None => String c (sub_italic tl 0)
            end
          else String c (sub_italic tl 0)
      end
  end%string.

(** [text.replace('`', '')] *)
Fixpoint remove_backticks (s : string) : string :=
  match s with
  | EmptyString => EmptyString
  | String c tl =>
      if Ascii.eqb c backtick then remove_backticks tl
      else String c (remove_backticks tl)
  end.

Definition strip_markdown (text : string) : string :=
  let text := sub_bold text 0 in
  let text := sub_italic text 0 in
  remove_backticks text.

(** [s.find(c)], the search being at position [i] *)
Fixpoint find (c : ascii) (s : string) (i : Z) : Z :=
  match s with
  | EmptyString => (-1)%Z
  | String d tl => if Ascii.eqb d c then i else find c tl (i + 1)%Z
  end.

(** [s.rfind(c)] *)
Fixpoint rfind (c : ascii) (s : string) (i : Z) : Z :=
  match s with
  | EmptyString => (-1)%Z
  | String d tl =>
      let r := rfind c tl (i + 1)%Z in
      if (r =? -1)%Z then (if Ascii.eqb d c then i else (-1)%Z) else r
  end.

(** [s[start:stop]] for [0 <= start <= stop] *)
Definition slice (s : string) (start stop : Z) : string :=
  String.substring (Z.to_nat start) (Z.to_nat (stop - start)) s.

(** The text handed to [json.loads]: from the first opening bracket to the
    last closing one. *)
Definition json_window (response : string) : option string :=
  let start := find "["%char response 0 in
  let stop := (rfind "]"%char response 0 + 1)%Z in
  if ((0 <=? start) && (start <? stop))%Z
  then Some (slice response start stop)
  else None.

Section Decode.

(** [json.loads], taken by its result on a text that opens with a bracket:
    the array, or [None] when it raises. *)
Variable json_loads : string -> option (list jitem).

(** What a raw reply comes to. *)
Definition decode_reply (raw : string) : ExtractFinancials.decoded :=
  match json_window (strip_markdown raw) with
  | Some json_str => json_loads json_str
  | None => None
  end.

End Decode.

(** *** Notions used to state the properties *)

Definition free_of (c : ascii) (s : string) : Prop :=
  ~ In c (list_ascii_of_string s).

(** No line holds two asterisks: [seen] tells whether the line being read
    has shown one. *)
Fixpoint stars_apart (s : string) (seen : bool) : bool :=
  match s with
  | EmptyString => true
  | String c tl =>
      if Ascii.eqb c star then
        if seen then false else stars_apart tl true
      else if Ascii.eqb c newline then stars_apart tl false
      else stars_apart tl seen
  end.

End ReplyText.

(** ** extract_financials.py: the shapes of a decoded reply *)

Module ReplyShape.

(** [item.get('value', 0)] is a number: the item is an object whose value
    is a number or is missing. *)
Definition numeric_value (item : jitem) : bool :=
  match item with
  | JDict _ (Some (JNum _)) => true
  | JDict _ None => true
  | _ => false
  end.

(** The item is an object with a number other than zero as its value. *)
Definition nonzero_value (item : jitem) : bool :=
  match item with
  | JDict _ (Some (JNum q)) => negb (Qeq_bool q 0)
  | _ => false
  end.

(** An item of the second reply on which the loop stops: it is not an
    object, it has no ["bucket"], or it is called Products or Services and
    its value is missing or is not a number. *)
Definition malformed (item : jitem) : bool :=
  match item with
  | NotDict => true
  | JDict None _ => true
  | JDict (Some b) v =>
      (py_eq_str b "Products" || py_eq_str b "Services")
      && match v with
         | Some (JNum _) => false
         | _ => true
         end
  end.

(** A bucket set without a negative value. *)
Definition nonneg (l : list (string * Q)) : Prop :=
  Forall (fun e => 0 <= snd e) l.

End ReplyShape.

(** ** visualize_sankey.py: links, colours, labels and title *)

Module SankeyFigure.
Import VisualizeSankey.

(** [name in [...]] for a list of string literals *)
Definition in_list (name : string) (l : list string) : bool :=
  existsb (String.eqb name) l.

(** [d[k]] on a dictionary with string keys *)
Definition getitem {V : Type} (d : list (string * V)) (k : string) : res V :=
  match dict_get String.eqb d k with
  | Some v => Ok v
  | None => Raise KeyError
  end.

Definition color_schemes : list (string * list (string * string)) :=
  [ ("standard",
      [ ("positive", "rgba(44, 160, 44, 0.6)");
        ("negative", "rgba(214, 39, 40, 0.6)");
        ("neutral", "rgba(140, 140, 140, 0.5)");
        ("revenue", "rgba(31, 119, 180, 0.6)");
        ("expense", "rgba(255, 127, 14, 0.6)");
        ("profit", "rgba(44, 160, 44, 0.6)");
        ("tax", "rgba(148, 103, 189, 0.6)") ]);
    ("professional",
      [ ("positive", "rgba(65, 151, 151, 0.7)");
        ("negative", "rgba(204, 80, 62, 0.7)");
        ("neutral", "rgba(120, 120, 120, 0.5)");
        ("revenue", "rgba(52, 94, 141, 0.7)");
        ("expense", "rgba(191, 129, 45, 0.7)");
        ("profit", "rgba(39, 123, 69, 0.7)");
        ("tax", "rgba(142, 85, 153, 0.7)") ]);
    ("high_contrast",
      [ ("positive", "rgba(0, 128, 0, 0.8)");
        ("negative", "rgba(220, 20, 60, 0.8)");
        ("neutral", "rgba(70, 70, 70, 0.7)");
        ("revenue", "rgba(0, 0, 205, 0.8)");
        ("expense", "rgba(255, 140, 0, 0.8)");
        ("profit", "rgba(50, 205, 50, 0.8)");
        ("tax", "rgba(138, 43, 226, 0.8)") ]) ]%string.

(** [color_schemes.get(color_scheme, color_schemes["standard"])] *)
Definition colors_of (color_scheme : string) : res (list (string * string)) :=
  standard <- getitem color_schemes "standard" ;;
  Ok match dict_get String.eqb color_schemes color_scheme with
     | Some colors => colors
     | None => standard
     end.

(** The key of [colors] that the chain of tests on a link comes to. *)
Definition link_color_key (src tgt : string) : string :=
  if in_list src ["Products"; "Services"] && String.eqb tgt "Revenue"
  then "revenue"
  else if in_list tgt ["Cost of Revenue"; "Operating Expenses"]
  then "expense"
  else if in_list tgt ["Gross Profit"; "Operating Income"; "EBIT"; "EBT"]
  then "profit"
  else if String.eqb src "Interest Income" || String.eqb tgt "Interest Income"
  then "positive"
  else if String.eqb src "Interest Expense"
          || String.eqb tgt "Interest Expense"
  then "negative"
  else if String.eqb src "Taxes" || String.eqb tgt "Taxes"
  then "tax"
  else if String.eqb tgt "Net Income"
  then "profit"
  else "neutral".

(** One row of the four link arrays, which grow together. *)
Record link : Type := mkLink {
  link_source : nat;
  link_target : nat;
  link_value : Q;
  link_color : string
}.

(** [for src, tgt in flows: ...]: a flow whose target is displayed at
    [1e-9] or less is passed over. *)
Fixpoint build_links (idx : list (string * nat))
    (bucket_display : list (string * Q)) (colors : list (string * string))
    (flows : list (string * string)) : res (list link) :=
  match flows with
  | [] => Ok []
  | (src, tgt) :: rest =>
      let val := value_or_0 bucket_display tgt in
      if Qle_bool val tiny then build_links idx bucket_display colors rest
      else
        s <- getitem idx src ;;
        t <- getitem idx tgt ;;
        c <- getitem colors (link_color_key src tgt) ;;
        ls <- build_links idx bucket_display colors rest ;;
        Ok (mkLink s t val c :: ls)
  end.

(** The key of [colors] for a node. *)
Definition node_color_key (bucket_values : list (string * Q))
    (name : string) : string :=
  let value := value_or_0 bucket_values name in
  if in_list name ["Products"; "Services"; "Revenue"]
  then "revenue"
  else if in_list name ["Cost of Revenue"; "Operating Expenses";
                        "Interest Expense"; "Taxes"]
  then "expense"
  else if in_list name ["Gross Profit"; "Operating Income"; "EBIT"; "EBT";
                        "Net Income"]
  then "profit"
  else if String.eqb name "Interest Income"
  then "positive"
  else if String.eqb name "Other Income/Expense"
  then if Qle_bool 0 value then "positive" else "negative"
  else "neutral".

Fixpoint color_nodes (bucket_values : list (string * Q))
    (colors : list (string * string)) (nodes : list string)
  : res (list string) :=
  match nodes with
  | [] => Ok []
  | name :: rest =>
      c <- getitem colors (node_color_key bucket_values name) ;;
      cs <- color_nodes bucket_values colors rest ;;
      Ok (c :: cs)
  end.

(** *** Paths and the title *)

Definition upper_ascii (c : ascii) : ascii :=
  let n := nat_of_ascii c in
  if (97 <=? n)%nat && (n <=? 122)%nat then ascii_of_nat (n - 32) else c.

(** [s.capitalize()] on ASCII text *)
Definition capitalize (s : string) : string :=
  match s with
  | EmptyString => EmptyString
  | String c tl => String (upper_ascii c) (lower tl)
  end.

(** [s.split(c)[0]]: the text before the first [c]. *)
Fixpoint before (c : ascii) (s : string) : string :=
  match s with
  | EmptyString => EmptyString
  | String d tl => if Ascii.eqb d c then EmptyString else String d (before c tl)
  end.

(** [os.path.basename] of [posixpath]: the text after the last slash. *)
Fixpoint basename (p : string) : string :=
  match p with
  | EmptyString => EmptyString
  | String c tl =>
      if existsb (Ascii.eqb "/"%char) (list_ascii_of_string p)
      then basename tl
      else p
  end.

Definition title_of (json_path : string) : string :=
  let title := "Financial Flow Analysis" in
  match json_path with
  | EmptyString => title
  | String _ _ =>
      let base_name := before "_"%char (basename json_path) in
      match base_name with
      | EmptyString => title
      | String _ _ => capitalize base_name ++ " - Financial Flow Analysis"
      end
  end%string.

Definition footnote_of (derived_items : list (string * Q)) : string :=
  match derived_items with
  | [] => ""
  | _ :: _ => "* Calculated values based on reported financials"
  end.

Section Labels.

(** The format [.1f] of a number, taken by its result. *)
Variable format_1f : Q -> string.

Definition node_label (bucket_values derived_items : list (string * Q))
    (name : string) : string :=
  let value := value_or_0 bucket_values name in
  let sign := if Qltb value 0 then "" else "+" in
  (if has derived_items name
   then name ++ "*<br>$" ++ sign ++ format_1f value ++ "M"
   else name ++ "<br>$" ++ sign ++ format_1f value ++ "M")%string.

(** What [plot_sankey] hands to the renderer. *)
Record figure : Type := mkFigure {
  fig_graph : graph;
  links : list link;
  node_labels : list string;
  node_color : list string;
  title : string;
  footnote : string
}.

(** [plot_sankey] with its link arrays, labels, colours and title. *)
Definition plot_sankey_figure (buckets_raw : list jitem) (json_path : string)
    (color_scheme : string) : res figure :=
  t <- load_buckets buckets_raw (mkTables [] [] []) ;;
  let '(t, derived_items) := derive_ebit t [] in
  let '(t, derived_items) := derive_ebt t derived_items in
  let values := dict_update (bucket_values t) derived_items in
  let nodes := valid_items t in
  let idx := index_nodes nodes 0 [] in
  let flows := build_flows idx in
  colors <- colors_of color_scheme ;;
  ls <- build_links idx (bucket_display t) colors flows ;;
  let node_x := assign_x idx (repeat 0.0%Q (List.length nodes)) in
  x_groups <- group_by_x idx node_x [] ;;
  node_y <- assign_y idx x_groups (repeat 0.5%Q (List.length nodes)) ;;
  let labels := map (node_label values derived_items) nodes in
  cs <- color_nodes values colors nodes ;;
  Ok (mkFigure
        (mkGraph values derived_items nodes idx flows x_groups node_x node_y)
        ls labels cs (title_of json_path) (footnote_of derived_items)).

End Labels.

(** *** Notions used to state the properties of a figure *)

(** The entry of the bucket file that the loading loop takes in. *)
Definition valid_entry (item : jitem) : option (string * Q) :=
  match item with
  | JDict (Some (JStr name)) (Some (JNum val)) => Some (name, val)
  | _ => None
  end.

Fixpoint valid_entries (buckets_raw : list jitem) : list (string * Q) :=
  match buckets_raw with
  | [] => []
  | item :: rest =>
      match valid_entry item with
      | Some e => e :: valid_entries rest
      | None => valid_entries rest
      end
  end.

(** The value that the last entry called [name] gives. *)
Definition last_value (entries : list (string * Q)) (name : string)
  : option Q :=
  dict_get String.eqb (rev entries) name.

(** The level names with their horizontal position. *)
Definition level_pairs : list (string * Q) :=
  flat_map (fun level => map (fun name => (name, fst level)) (snd level))
           levels.

(** The horizontal position that the table of levels gives to a name;
    [0.0], the initial position, for a name outside the table. *)
Definition level_x (name : string) : Q :=
  match dict_get String.eqb level_pairs name with
  | Some x => x
  | None => 0.0
  end.

(** The assignments to [node_x] that the loop over the levels makes. *)
Definition x_writes (idx : list (string * nat)) : list (nat * Q) :=
  flat_map (fun p => match dict_get String.eqb idx (fst p) with
                     | Some i => [(i, snd p)]
                     | None => []
                     end) level_pairs.

(** The flows that stay within one level. *)
Definition same_column : list (string * string) :=
  [ ("Other Income/Expense", "EBIT"); ("Interest Income", "EBT");
    ("Interest Expense", "EBT"); ("Taxes", "Net Income") ].

(** The keys of a colour scheme. *)
Definition color_keys : list string :=
  [ "positive"; "negative"; "neutral"; "revenue"; "expense"; "profit";
    "tax" ].

(** A row of the link arrays that stands for the flow [e]: its ends are the
    places of the two names, its value the magnitude of the target's value,
    its colour the one the scheme gives to the flow. *)
Definition link_of (idx : list (string * nat)) (values : list (string * Q))
    (colors : list (string * string)) (e : string * string) (l : link)
  : Prop :=
  dict_get String.eqb idx (fst e) = Some (link_source l) /\
  dict_get String.eqb idx (snd e) = Some (link_target l) /\
  link_value l = Qabs (value_or_0 values (snd e)) /\
  dict_get String.eqb colors (link_color_key (fst e) (snd e)) =
  Some (link_color l).

(** A flow whose target has a value of magnitude above [1e-9]. *)
Definition thick (values : list (string * Q)) (e : string * string) : bool :=
  Qltb tiny (Qabs (value_or_0 values (snd e))).

(** What is shown for a value: its magnitude, and [1e-9] at least. *)
Definition shown (v d : Q) : Prop :=
  d = at_least_tiny (Qabs v) \/ d = display_of v.

End SankeyFigure.

(** ** More sample inputs *)

Module Samples.
Import ExtractFinancials VisualizeSankey.

(** A bucket file with entries that the loading loop passes over and a name
    that comes twice. *)
Definition untidy_file : list jitem :=
  [ bucket_item "Revenue" 1000;
    JDict (Some (JStr "Note")) (Some (JStr "n/a"));
    JDict None (Some (JNum 3));
    JDict (Some (JStr "Gross Profit")) None;
    bucket_item "Operating Income" 200;
    bucket_item "Revenue" 1200 ].

(** A bucket file whose second element is not an object. *)
Definition broken_file : list jitem :=
  [ bucket_item "Revenue" 1000; NotDict ].

(** A stand-in for the number format of the labels. *)
Definition format_blank : Q -> string := fun _ => "#.#".

(** A full bucket set whose Gross Profit is zero. *)
Definition no_gross_profit : list (string * Q) :=
  [ ("Products", 600); ("Services", 400); ("Revenue", 1000);
    ("Cost of Revenue", 500); ("Gross Profit", 0);
    ("Operating Expenses", 300); ("Operating Income", 200);
    ("Interest Expense", 15); ("Interest Income", 5);
    ("Other Income/Expense", -20); ("Taxes", 40); ("Net Income", 130) ].


(** A reply to the breakdown request whose second item has no number. *)
Definition half_breakdown : list jitem :=
  [ bucket_item "Products" 600;
    JDict (Some (JStr "Services")) (Some (JStr "n/a"));
    bucket_item "Products" 700 ].

Definition service_half : prompt -> res decoded :=
  fun p =>
    match p with
    | ExtractionPrompt _ => Ok None
    | BreakdownPrompt _ => Ok (Some half_breakdown)
    end.

Definition service_first : prompt -> res decoded :=
  fun p =>
    match p with
    | ExtractionPrompt _ => Ok None
    | BreakdownPrompt _ => Ok (Some [bucket_item "Products" 600])
    end.

(** A reply in a code fence, and a parser that knows its array. *)
Definition fenced_reply : string :=
  "```json" ++ String "010" ("[" ++ "{}" ++ "]" ++ String "010" "```").

Definition loads_empty_object (s : string) : option (list jitem) :=
  if String.eqb s "[{}]" then Some [JDict None None] else None.

End Samples.

(** ** Facts about the Python containers *)

Module PyFacts.

Lemma Qltb_lt (x y : Q) : Qltb x y = true <-> x < y.
Proof.
  unfold Qltb. rewrite negb_true_iff.
  split; intro H.
  - apply Qnot_le_lt. intro Hle. apply Qle_bool_iff in Hle. congruence.
  - destruct (Qle_bool y x) eqn:E; [|reflexivity].
    apply Qle_bool_iff in E. exfalso. apply (Qlt_not_le _ _ H E).
Qed.

Lemma Qltb_ge (x y : Q) : Qltb x y = false <-> y <= x.
Proof.
  unfold Qltb. rewrite negb_false_iff. apply Qle_bool_iff.
Qed.

Lemma norm_index_nat {A : Type} (l : list A) (j : nat) :
  (j < List.length l)%nat -> norm_index l (Z.of_nat j) = Ok j.
Proof.
  intro H. unfold norm_index.
  replace ((0 <=? Z.of_nat j)%Z) with true by (symmetry; apply Z.leb_le; lia).
  replace ((Z.of_nat j <? Z.of_nat (List.length l))%Z) with true
    by (symmetry; apply Z.ltb_lt; lia).
  simpl. now rewrite Nat2Z.id.
Qed.

Lemma py_get_nat {A : Type} (l : list A) (j : nat) (x : A) :
  nth_error l j = Some x -> py_get l (Z.of_nat j) = Ok x.
Proof.
  intro H. unfold py_get.
  rewrite norm_index_nat by (apply nth_error_Some; congruence).
  simpl. now rewrite H.
Qed.

Lemma set_nth_map {A B : Type} (f : A -> B) (l : list A) (j : nat) (x : A) :
  set_nth (map f l) j (f x) = map f (set_nth l j x).
Proof.
  revert j. induction l as [|a l IH]; intros [|j]; simpl; try reflexivity.
  now rewrite IH.
Qed.

Lemma set_nth_length {A : Type} (l : list A) (j : nat) (x : A) :
  List.length (set_nth l j x) = List.length l.
Proof.
  revert j. induction l as [|a l IH]; intros [|j]; simpl; try reflexivity.
  now rewrite IH.
Qed.

Lemma nth_error_set_nth_eq {A : Type} (l : list A) (j : nat) (x : A) :
  (j < List.length l)%nat -> nth_error (set_nth l j x) j = Some x.
Proof.
  revert j. induction l as [|a l IH]; intros [|j] H; simpl in *;
    try lia; try reflexivity.
  apply IH. lia.
Qed.

Lemma nth_error_set_nth_neq {A : Type} (l : list A) (i j : nat) (x : A) :
  i <> j -> nth_error (set_nth l i x) j = nth_error l j.
Proof.
  revert i j. induction l as [|a l IH]; intros [|i] [|j] H; simpl;
    try reflexivity; try congruence.
  apply IH. congruence.
Qed.

Lemma set_nth_same {A : Type} (l : list A) (j : nat) (x : A) :
  nth_error l j = Some x -> set_nth l j x = l.
Proof.
  revert j. induction l as [|a l IH]; intros [|j] H; simpl in *;
    try discriminate.
  - congruence.
  - f_equal. now apply IH.
Qed.

Lemma set_nth_twice {A : Type} (l : list A) (j : nat) (x y : A) :
  set_nth (set_nth l j x) j y = set_nth l j y.
Proof.
  revert j. induction l as [|a l IH]; intros [|j]; simpl; try reflexivity.
  now rewrite IH.
Qed.

Lemma set_nth_comm {A : Type} (l : list A) (i j : nat) (x y : A) :
  i <> j -> set_nth (set_nth l i x) j y = set_nth (set_nth l j y) i x.
Proof.
  revert i j. induction l as [|a l IH]; intros [|i] [|j] H; simpl;
    try reflexivity; try congruence.
  f_equal. apply IH. congruence.
Qed.

End PyFacts.

(** ** Facts about extract_financials.py *)

Module ExtractFinancialsFacts.
Import ExtractFinancials PyFacts.

Lemma bucket_list_length (l : list (string * Q)) :
  List.length (bucket_list l) = List.length l.
Proof. unfold bucket_list. apply length_map. Qed.

Lemma nth_error_bucket_list (l : list (string * Q)) (j : nat) :
  nth_error (bucket_list l) j =
  option_map (fun e => bucket_item (fst e) (snd e)) (nth_error l j).
Proof. unfold bucket_list. apply nth_error_map. Qed.

Lemma key_index_found (name : string) (l : list (string * Q)) (j : nat) :
  key_index name l = Some j ->
  exists q, nth_error l j = Some (name, q).
Proof.
  revert j. induction l as [|[k q] l IH]; intros j H; simpl in H.
  - discriminate.
  - destruct (String.eqb k name) eqn:E.
    + apply String.eqb_eq in E. injection H as <-. subst. now exists q.
    + destruct (key_index name l) as [j'|]; [|discriminate].
      injection H as <-. simpl. now apply IH.
Qed.

Lemma key_index_lt (name : string) (l : list (string * Q)) (j : nat) :
  key_index name l = Some j -> (j < List.length l)%nat.
Proof.
  intro H. destruct (key_index_found _ _ _ H) as [q Hq].
  apply nth_error_Some. congruence.
Qed.

Lemma key_index_distinct (a b : string) (l : list (string * Q)) (i j : nat) :
  a <> b -> key_index a l = Some i -> key_index b l = Some j -> i <> j.
Proof.
  intros Hab Ha Hb ->.
  destruct (key_index_found _ _ _ Ha) as [q Hq].
  destruct (key_index_found _ _ _ Hb) as [q' Hq'].
  congruence.
Qed.

Lemma find_idx_bucket_list (name : string) (l : list (string * Q)) (i0 : Z) :
  find_idx name (bucket_list l) i0 =
  Ok match key_index name l with
     | Some j => (i0 + Z.of_nat j)%Z
     | None => (-1)%Z
     end.
Proof.
  revert i0. induction l as [|[k q] l IH]; intro i0; simpl.
  - reflexivity.
  - destruct (String.eqb k name) eqn:E.
    + f_equal. lia.
    + rewrite IH. destruct (key_index name l); simpl; f_equal. lia.
Qed.

Lemma val_at_nth (l : list (string * Q)) (j : nat) :
  (j < List.length l)%nat ->
  exists k, nth_error l j = Some (k, val_at l j).
Proof.
  intro H. unfold val_at.
  destruct (nth_error l j) as [[k q]|] eqn:E.
  - now exists k.
  - apply nth_error_None in E. lia.
Qed.

Lemma value_at_bucket_list (l : list (string * Q)) (j : nat) :
  (j < List.length l)%nat ->
  value_at (bucket_list l) (Z.of_nat j) = Ok (JNum (val_at l j)).
Proof.
  intro H. destruct (val_at_nth l j H) as [k Hk].
  unfold value_at.
  rewrite (py_get_nat _ _ (bucket_item k (val_at l j))).
  - reflexivity.
  - rewrite nth_error_bucket_list, Hk. reflexivity.
Qed.

Lemma upd_length (l : list (string * Q)) (i : nat) (q : Q) :
  List.length (upd l i q) = List.length l.
Proof.
  unfold upd. destruct (nth_error l i) as [[k v]|]; [|reflexivity].
  apply set_nth_length.
Qed.

Lemma upd_names (l : list (string * Q)) (i : nat) (q : Q) :
  map fst (upd l i q) = map fst l.
Proof.
  unfold upd. destruct (nth_error l i) as [[k v]|] eqn:E; [|reflexivity].
  replace k with (fst (k, q)) at 1 by reflexivity.
  rewrite <- set_nth_map. apply set_nth_same.
  rewrite nth_error_map, E. reflexivity.
Qed.


Lemma nth_error_upd_neq (l : list (string * Q)) (i j : nat) (q : Q) :
  i <> j -> nth_error (upd l i q) j = nth_error l j.
Proof.
  intro H. unfold upd. destruct (nth_error l i) as [[k v]|]; [|reflexivity].
  now apply nth_error_set_nth_neq.
Qed.

Lemma val_at_upd_neq (l : list (string * Q)) (i j : nat) (q : Q) :
  i <> j -> val_at (upd l i q) j = val_at l j.
Proof.
  intro H. unfold val_at. now rewrite nth_error_upd_neq.
Qed.

Lemma upd_self (l : list (string * Q)) (i : nat) :
  upd l i (val_at l i) = l.
Proof.
  unfold upd, val_at. destruct (nth_error l i) as [[k v]|] eqn:E;
    [|reflexivity].
  now apply set_nth_same.
Qed.

Lemma upd_twice (l : list (string * Q)) (i : nat) (p q : Q) :
  upd (upd l i p) i q = upd l i q.
Proof.
  destruct (nth_error l i) as [[k v]|] eqn:E.
  - assert (Hp : upd l i p = set_nth l i (k, p)) by (unfold upd; now rewrite E).
    assert (Hq : upd l i q = set_nth l i (k, q)) by (unfold upd; now rewrite E).
    rewrite Hp, Hq. unfold upd.
    rewrite nth_error_set_nth_eq by (apply nth_error_Some; congruence).
    apply set_nth_twice.
  - assert (Hp : upd l i p = l) by (unfold upd; now rewrite E).
    now rewrite Hp.
Qed.

Lemma upd_comm (l : list (string * Q)) (i j : nat) (p q : Q) :
  i <> j -> upd (upd l i p) j q = upd (upd l j q) i p.
Proof.
  intro H. unfold upd at 1 3.
  rewrite nth_error_upd_neq by congruence.
  rewrite nth_error_upd_neq by congruence.
  unfold upd.
  destruct (nth_error l i) as [[k v]|], (nth_error l j) as [[k' v']|];
    try reflexivity.
  now apply set_nth_comm.
Qed.

Lemma key_index_names (name : string) (l l' : list (string * Q)) :
  map fst l = map fst l' -> key_index name l = key_index name l'.
Proof.
  revert l'. induction l as [|[k q] l IH]; intros [|[k' q'] l'] H;
    simpl in *; try discriminate; try reflexivity.
  injection H as -> H. now rewrite (IH l').
Qed.

Lemma key_index_upd (name : string) (l : list (string * Q)) (i : nat) (q : Q) :
  key_index name (upd l i q) = key_index name l.
Proof. apply key_index_names, upd_names. Qed.

Lemma set_value_bucket_list (l : list (string * Q)) (j : nat) (q : Q) :
  (j < List.length l)%nat ->
  set_value (bucket_list l) (Z.of_nat j) (JNum q) =
  Ok (bucket_list (upd l j q)).
Proof.
  intro H. destruct (val_at_nth l j H) as [k Hk].
  unfold set_value.
  rewrite (py_get_nat _ _ (bucket_item k (val_at l j)))
    by (rewrite nth_error_bucket_list, Hk; reflexivity).
  simpl. unfold py_set.
  rewrite norm_index_nat by (now rewrite bucket_list_length).
  simpl. f_equal. unfold upd. rewrite Hk.
  unfold bucket_list.
  now rewrite <- (set_nth_map (fun e => bucket_item (fst e) (snd e))).
Qed.

Lemma mul_value_bucket_list (l : list (string * Q)) (j : nat) (ratio : Q) :
  (j < List.length l)%nat ->
  mul_value (bucket_list l) (Z.of_nat j) ratio =
  Ok (bucket_list (upd l j (val_at l j * ratio))).
Proof.
  intro H. unfold mul_value.
  rewrite value_at_bucket_list by assumption. simpl.
  now apply set_value_bucket_list.
Qed.

Ltac py_step :=
  cbn [bind py_gt_zero as_num py_eq_zero negb andb orb fst snd].

Lemma final_validation_bucket_list (l : list (string * Q)) (pi si ri : nat) :
  (pi < List.length l)%nat -> (si < List.length l)%nat ->
  (ri < List.length l)%nat -> pi <> si ->
  final_validation (bucket_list l) (Z.of_nat pi) (Z.of_nat si) (Z.of_nat ri) =
  Ok (bucket_list (rescale l pi si ri)).
Proof.
  intros Hp Hs Hr Hps. unfold final_validation, rescale, off_balance.
  rewrite !value_at_bucket_list by assumption. py_step.
  destruct (Qltb 0 (val_at l pi)); py_step; [|reflexivity].
  destruct (Qltb 0 (val_at l si)); py_step; [|reflexivity].
  destruct (Qltb (0.01 * val_at l ri)
                 (Qabs (val_at l pi + val_at l si - val_at l ri))
            && Qltb 0 (val_at l ri)); py_step; [|reflexivity].
  rewrite mul_value_bucket_list by assumption. py_step.
  rewrite mul_value_bucket_list by (now rewrite upd_length).
  now rewrite val_at_upd_neq by assumption.
Qed.

(** The loop over the second reply, on a bucket set. *)
Lemma breakdown_item_bucket_list (item : jitem) (l : list (string * Q))
    (pi si : nat) :
  (pi < List.length l)%nat -> (si < List.length l)%nat ->
  breakdown_item item (Z.of_nat pi) (Z.of_nat si) (bucket_list l) =
  match getitem_bucket item with
  | Raise e => (bucket_list l, Some e)
  | Ok b =>
      if py_eq_str b "Products" then
        match getitem_value item with
        | Ok (JNum q) =>
            (bucket_list (if Qltb 0 q then upd l pi q else l), None)
        | Ok _ => (bucket_list l, Some TypeError)
        | Raise e => (bucket_list l, Some e)
        end
      else if py_eq_str b "Services" then
        match getitem_value item with
        | Ok (JNum q) =>
            (bucket_list (if Qltb 0 q then upd l si q else l), None)
        | Ok _ => (bucket_list l, Some TypeError)
        | Raise e => (bucket_list l, Some e)
        end
      else (bucket_list l, None)
  end.
Proof.
  intros Hp Hs. unfold breakdown_item.
  destruct (getitem_bucket item) as [b|e]; simpl; [|reflexivity].
  destruct b as [q|s|]; simpl; try reflexivity.
  destruct (String.eqb s "Products") eqn:EP.
  - apply String.eqb_eq in EP. subst s. simpl.
    destruct (getitem_value item) as [[q|t|]|e]; simpl; try reflexivity.
    destruct (Qltb 0 q); simpl; [|reflexivity].
    now rewrite set_value_bucket_list.
  - simpl. destruct (String.eqb s "Services"); [|reflexivity].
    destruct (getitem_value item) as [[q|t|]|e]; simpl; try reflexivity.
    destruct (Qltb 0 q); simpl; [|reflexivity].
    now rewrite set_value_bucket_list.
Qed.

Lemma fill_length (i : nat) (o : option Q) (l : list (string * Q)) :
  List.length (fill i o l) = List.length l.
Proof. destruct o; simpl; [apply upd_length | reflexivity]. Qed.


Lemma breakdown_loop_bucket_list (items : list jitem) (l : list (string * Q))
    (pi si : nat) (acc : option Q * option Q) :
  (pi < List.length l)%nat -> (si < List.length l)%nat -> pi <> si ->
  fst (breakdown_loop items (Z.of_nat pi) (Z.of_nat si)
         (bucket_list (fill si (snd acc) (fill pi (fst acc) l)))) =
  bucket_list (fill si (snd (accepted items acc))
                 (fill pi (fst (accepted items acc)) l)).
Proof.
  intros Hp Hs Hps. revert acc.
  induction items as [|item items IH]; intro acc; simpl.
  - reflexivity.
  - rewrite breakdown_item_bucket_list
      by (now rewrite !fill_length).
    destruct (getitem_bucket item) as [b|e]; [|reflexivity].
    destruct (py_eq_str b "Products").
    + destruct (getitem_value item) as [[q|t|]|e]; try reflexivity.
      destruct (Qltb 0 q).
      * replace (upd (fill si (snd acc) (fill pi (fst acc) l)) pi q)
          with (fill si (snd (Some q, snd acc))
                  (fill pi (fst (Some q, snd acc)) l)).
        { apply IH. }
        destruct acc as [[p|] [s|]]; simpl;
          rewrite ?(upd_comm _ si pi) by congruence;
          rewrite ?upd_twice; reflexivity.
      * apply IH.
    + destruct (py_eq_str b "Services").
      * destruct (getitem_value item) as [[q|t|]|e]; try reflexivity.
        destruct (Qltb 0 q).
        -- replace (upd (fill si (snd acc) (fill pi (fst acc) l)) si q)
             with (fill si (snd (fst acc, Some q))
                     (fill pi (fst (fst acc, Some q)) l)).
           { apply IH. }
           destruct acc as [[p|] [s|]]; simpl;
             rewrite ?upd_twice; reflexivity.
        -- apply IH.
      * apply IH.
Qed.

Lemma breakdown_bucket_list (call_ollama : prompt -> res decoded)
    (text : string) (l : list (string * Q)) (pi si : nat) :
  (pi < List.length l)%nat -> (si < List.length l)%nat -> pi <> si ->
  breakdown call_ollama text (bucket_list l) (Z.of_nat pi) (Z.of_nat si) =
  bucket_list (after_breakdown (call_ollama (BreakdownPrompt text)) l pi si).
Proof.
  intros Hp Hs Hps. unfold breakdown, after_breakdown.
  destruct (call_ollama (BreakdownPrompt text)) as [[js|]|e]; simpl;
    try reflexivity.
  apply (breakdown_loop_bucket_list js l pi si (None, None)); assumption.
Qed.

Lemma after_breakdown_length (reply : res decoded) (l : list (string * Q))
    (pi si : nat) :
  List.length (after_breakdown reply l pi si) = List.length l.
Proof. unfold after_breakdown. now rewrite !fill_length. Qed.

(** Reconciliation of a bucket set that holds the three keys is total, and is
    [reconcile_buckets] at the places of the three keys. *)
Lemma reconcile_bucket_list (call_ollama : prompt -> res decoded)
    (text : string) (l : list (string * Q)) (pi si ri : nat) :
  key_index "Products" l = Some pi ->
  key_index "Services" l = Some si ->
  key_index "Revenue" l = Some ri ->
  reconcile call_ollama text (bucket_list l) =
  Ok (bucket_list
        (reconcile_buckets (call_ollama (BreakdownPrompt text)) l pi si ri)).
Proof.
  intros HP HS HR.
  pose proof (key_index_lt _ _ _ HP) as Hp.
  pose proof (key_index_lt _ _ _ HS) as Hs.
  pose proof (key_index_lt _ _ _ HR) as Hr.
  assert (Hps : pi <> si)
    by (apply (key_index_distinct "Products" "Services" l); easy).
  unfold reconcile, reconcile_buckets, needs_breakdown.
  rewrite !find_idx_bucket_list, HP, HS, HR.
  cbn [bind Z.add].
  replace ((Z.of_nat ri =? -1)%Z) with false by (symmetry; apply Z.eqb_neq; lia).
  rewrite !value_at_bucket_list by assumption. py_step.
  destruct (Qeq_bool (val_at l pi) 0); py_step.
  - destruct (Qltb 0 (val_at l ri)).
    + rewrite breakdown_bucket_list by assumption.
      apply final_validation_bucket_list;
        rewrite ?after_breakdown_length; assumption.
    + now apply final_validation_bucket_list.
  - destruct (Qeq_bool (val_at l si) 0); py_step.
    + destruct (Qltb 0 (val_at l ri)).
      * rewrite breakdown_bucket_list by assumption.
        apply final_validation_bucket_list;
          rewrite ?after_breakdown_length; assumption.
      * now apply final_validation_bucket_list.
    + now apply final_validation_bucket_list.
Qed.

(** *** Arithmetic of the rescale *)





Section Rescale.
Variables (l : list (string * Q)) (pi si ri : nat).
Hypothesis Hp : (pi < List.length l)%nat.
Hypothesis Hs : (si < List.length l)%nat.
Hypothesis Hr : (ri < List.length l)%nat.
Hypothesis Hps : pi <> si.
Hypothesis Hpr : pi <> ri.
Hypothesis Hsr : si <> ri.





End Rescale.

(** *** The second request on a bucket set *)



Section Breakdown.
Variables (reply : res decoded) (l : list (string * Q)) (pi si ri : nat).
Hypothesis Hp : (pi < List.length l)%nat.
Hypothesis Hs : (si < List.length l)%nat.
Hypothesis Hps : pi <> si.
Hypothesis Hpr : pi <> ri.
Hypothesis Hsr : si <> ri.


Lemma after_breakdown_frame (j : nat) :
  j <> pi -> j <> si ->
  nth_error (after_breakdown reply l pi si) j = nth_error l j.
Proof.
  intros H1 H2. unfold after_breakdown.
  destruct (accepted (reply_items reply) (None, None)) as [[p|] [s|]];
    simpl; rewrite ?nth_error_upd_neq by congruence; reflexivity.
Qed.

Lemma after_breakdown_revenue :
  val_at (after_breakdown reply l pi si) ri = val_at l ri.
Proof.
  unfold val_at. rewrite after_breakdown_frame by congruence. reflexivity.
Qed.




End Breakdown.

Section Reconcile.
Variables (reply : res decoded) (l : list (string * Q)) (pi si ri : nat).
Hypothesis Hp : (pi < List.length l)%nat.
Hypothesis Hs : (si < List.length l)%nat.
Hypothesis Hr : (ri < List.length l)%nat.
Hypothesis Hps : pi <> si.
Hypothesis Hpr : pi <> ri.
Hypothesis Hsr : si <> ri.




End Reconcile.

(** *** Reconciliation *)








(** *** Names are kept by every assignment *)










(** *** The regex fallback *)

Lemma fallback_extraction_bucket_list
    (re_search : string -> string -> reflag -> option rmatch)
    (text : string) :
  fallback_extraction re_search text =
  bucket_list (fallback_buckets re_search text).
Proof.
  unfold fallback_extraction, fallback_buckets, bucket_list.
  rewrite map_map. reflexivity.
Qed.



(** *** Extraction runs *)

Lemma extract_on_fallback
    (call_ollama : prompt -> res decoded)
    (re_search : string -> string -> reflag -> option rmatch)
    (text : string) (reply : decoded) :
  call_ollama (ExtractionPrompt text) = Ok reply ->
  unusable match reply with
           | Some js => js
           | None => []
           end = Ok true ->
  extract_financial_buckets_from_summary call_ollama re_search text =
  Ok (bucket_list
        (reconcile_buckets (call_ollama (BreakdownPrompt text))
           (fallback_buckets re_search text) 0 1 2)).
Proof.
  intros Hcall Hun. unfold extract_financial_buckets_from_summary.
  rewrite Hcall. cbn [bind]. rewrite Hun. cbn [bind].
  rewrite fallback_extraction_bucket_list.
  now apply reconcile_bucket_list.
Qed.




(** C7 as stated fails: with the service down the first request already
    raises, on a text from which the fallback would read Revenue=1000 and
    no parts, and the run ends with that error. *)
Lemma C7_service_down_raises :
  extract_financial_buckets_from_summary
    Examples.service_down Examples.revenue_search Examples.revenue_text =
  Raise RuntimeError /\
  value_of "Revenue"
    (fallback_buckets Examples.revenue_search Examples.revenue_text) =
  Some 1000 /\
  value_of "Products"
    (fallback_buckets Examples.revenue_search Examples.revenue_text) =
  Some 0 /\
  value_of "Services"
    (fallback_buckets Examples.revenue_search Examples.revenue_text) =
  Some 0.
Proof. repeat split; reflexivity. Qed.

(** C7, amended: a failure of the first request is raised to the caller;
    when the first request returns an unusable reply, the fallback reads
    Revenue=1000 with Products and Services at 0, and the second request
    fails, the run completes and returns the bucket set of the fallback,
    Products and Services left at 0 and nothing scaled. *)
Theorem C7_breakdown_failure_is_absorbed
    (call_ollama : prompt -> res decoded)
    (re_search : string -> string -> reflag -> option rmatch)
    (text : string) :
  (forall e : exn,
     call_ollama (ExtractionPrompt text) = Raise e ->
     extract_financial_buckets_from_summary call_ollama re_search text =
     Raise e) /\
  (forall (reply : decoded) (e : exn) (p s r : Q),
     call_ollama (ExtractionPrompt text) = Ok reply ->
     unusable match reply with
              | Some js => js
              | None => []
              end = Ok true ->
     call_ollama (BreakdownPrompt text) = Raise e ->
     value_of "Products" (fallback_buckets re_search text) = Some p ->
     value_of "Services" (fallback_buckets re_search text) = Some s ->
     value_of "Revenue" (fallback_buckets re_search text) = Some r ->
     p == 0 -> s == 0 -> r == 1000 ->
     extract_financial_buckets_from_summary call_ollama re_search text =
     Ok (bucket_list (fallback_buckets re_search text))).
Proof.
  split.
  - intros e Hcall. unfold extract_financial_buckets_from_summary.
    now rewrite Hcall.
  - intros reply e p s r Hcall Hun Hbd HP HS HR Hp Hs Hr.
    rewrite (extract_on_fallback _ _ _ reply) by assumption.
    do 2 f_equal. rewrite Hbd.
    set (fb := fallback_buckets re_search text) in *.
    assert (Ep : val_at fb 0 = p) by (injection HP as <-; reflexivity).
    assert (Es : val_at fb 1 = s) by (injection HS as <-; reflexivity).
    unfold reconcile_buckets.
    assert (Eab : after_breakdown (Raise e) fb 0 1 = fb) by reflexivity.
    rewrite Eab.
    assert (El : (if needs_breakdown fb 0 1 2 then fb else fb) = fb)
      by (now destruct (needs_breakdown fb 0 1 2)).
    rewrite El. unfold rescale.
    assert (Eoff : off_balance fb 0 1 2 = false).
    { unfold off_balance. rewrite Ep.
      assert (E0 : Qltb 0 p = false) by (apply Qltb_ge; lra).
      now rewrite E0. }
    now rewrite Eoff.
Qed.

Lemma C7_breakdown_failure_witness :
  extract_financial_buckets_from_summary
    Examples.service_prose_then_down Examples.revenue_search
    Examples.revenue_text =
  Ok (bucket_list
        (fallback_buckets Examples.revenue_search Examples.revenue_text)) /\
  extract_financial_buckets_from_summary
    Examples.service_down Examples.revenue_search Examples.revenue_text =
  Raise RuntimeError.
Proof.
  split.
  - apply (proj2 (C7_breakdown_failure_is_absorbed
                    Examples.service_prose_then_down Examples.revenue_search
                    Examples.revenue_text)
             None RuntimeError 0 0 1000); reflexivity.
  - apply (proj1 (C7_breakdown_failure_is_absorbed
                    Examples.service_down Examples.revenue_search
                    Examples.revenue_text) RuntimeError); reflexivity.
Defined.


End ExtractFinancialsFacts.

(** ** Facts about visualize_sankey.py *)

Module VisualizeSankeyFacts.
Import VisualizeSankey PyFacts.

(** *** The flow connections *)

Lemma flows_eqb_eq (a b : list (string * string)) :
  flows_eqb a b = true -> a = b.
Proof.
  revert b. induction a as [|[s t] a IH]; intros [|[s' t'] b] H;
    simpl in H; try discriminate; try reflexivity.
  apply andb_true_iff in H. destruct H as [H H3].
  apply andb_true_iff in H. destruct H as [H1 H2].
  apply String.eqb_eq in H1, H2. subst. f_equal. now apply IH.
Qed.

Lemma all_marks_complete (bs : list bool) :
  In bs (all_marks (List.length bs)).
Proof.
  induction bs as [|b bs IH]; simpl.
  - now left.
  - apply in_or_app. destruct b; [left | right]; now apply in_map.
Qed.

Lemma has_index_of_marks_out (keys : list string) (present : list bool)
    (k : string) :
  ~ In k keys -> has (index_of_marks keys present) k = false.
Proof.
  revert present. induction keys as [|k0 keys IH]; intros present H.
  - reflexivity.
  - destruct present as [|b present]; [reflexivity|].
    assert (Hk : String.eqb k0 k = false)
      by (apply String.eqb_neq; intro E; apply H; now left).
    assert (Hrest : has (index_of_marks keys present) k = false)
      by (apply IH; intro Hin; apply H; now right).
    simpl. destruct b; [|exact Hrest].
    unfold has, dict_mem in *. simpl. now rewrite Hk.
Qed.

Lemma has_index_of_marks (h : string -> bool) (keys : list string)
    (k : string) :
  NoDup keys -> In k keys ->
  has (index_of_marks keys (map h keys)) k = h k.
Proof.
  induction keys as [|k0 keys IH]; intros Hnd Hin; [contradiction|].
  inversion Hnd as [|? ? Hout Hnd']; subst.
  simpl. destruct (String.eqb k0 k) eqn:E.
  - apply String.eqb_eq in E. subst k0.
    destruct (h k) eqn:Eh.
    + unfold has, dict_mem. simpl. now rewrite String.eqb_refl.
    + now apply has_index_of_marks_out.
  - assert (Hin' : In k keys).
    { destruct Hin as [->|Hin]; [|assumption].
      now rewrite String.eqb_refl in E. }
    destruct (h k0).
    + unfold has, dict_mem. simpl. rewrite E. now apply IH.
    + now apply IH.
Qed.

Lemma flow_keys_nodup : NoDup flow_keys.
Proof.
  unfold flow_keys.
  repeat (constructor;
          [simpl; intro H; repeat destruct H as [H|H]; try discriminate H;
           exact H|]).
  constructor.
Qed.

Lemma let_congr {A B : Type} (a a' : A) (k k' : A -> B) :
  a = a' -> (forall x : A, k x = k' x) ->
  (let x := a in k x) = (let x := a' in k' x).
Proof. intros -> H. apply H. Qed.

Lemma if_congr {A : Type} (c c' : bool) (a a' b b' : A) :
  c = c' -> a = a' -> b = b' ->
  (if c then a else b) = (if c' then a' else b').
Proof. now intros -> -> ->. Qed.

Lemma add_flow_presence (idx idx' : list (string * nat))
    (fl : list (string * string)) (src tgt : string) :
  has idx src = has idx' src -> has idx tgt = has idx' tgt ->
  add_flow idx fl src tgt = add_flow idx' fl src tgt.
Proof. unfold add_flow. now intros -> ->. Qed.

(** Walks down two runs of the same statements on two node indexes. *)
Ltac same_flows H :=
  lazymatch goal with
  | |- (let x := ?a in @?k x) = (let y := ?a' in @?k' y) =>
      refine (let_congr a a' k k' _ _);
      [same_flows H | intro; cbv beta; same_flows H]
  | |- (if _ then _ else _) = (if _ then _ else _) =>
      apply if_congr; same_flows H
  | |- add_flow _ _ _ _ = add_flow _ _ _ _ =>
      apply add_flow_presence; same_flows H
  | |- andb _ _ = andb _ _ => f_equal; same_flows H
  | |- negb _ = negb _ => f_equal; same_flows H
  | |- has _ _ = has _ _ => apply H; simpl; tauto
  | |- _ => reflexivity
  end.

Lemma build_flows_presence (idx idx' : list (string * nat)) :
  (forall k : string, In k flow_keys -> has idx k = has idx' k) ->
  build_flows idx = build_flows idx'.
Proof.
  intro H. cbv beta delta [build_flows]. same_flows H.
Qed.

Lemma rule_fires_presence (idx idx' : list (string * nat))
    (rule : (list (string * nat) -> bool) * (string * string)) :
  (forall k : string, In k flow_keys -> has idx k = has idx' k) ->
  In rule flow_rules ->
  rule_fires idx rule = rule_fires idx' rule.
Proof.
  intros H Hin. unfold flow_rules in Hin. simpl in Hin.
  repeat destruct Hin as [<-|Hin]; try contradiction;
    unfold rule_fires; cbn [fst snd]; same_flows H.
Qed.

Lemma flows_by_rule_presence (idx idx' : list (string * nat)) :
  (forall k : string, In k flow_keys -> has idx k = has idx' k) ->
  flows_by_rule idx = flows_by_rule idx'.
Proof.
  intro H. unfold flows_by_rule. f_equal.
  apply filter_ext_in. intros rule Hin. now apply rule_fires_presence.
Qed.

Lemma flows_checked :
  forallb (fun marks =>
             flows_eqb (build_flows (index_of_marks flow_keys marks))
                       (flows_by_rule (index_of_marks flow_keys marks)))
          (all_marks 14) = true.
Proof. vm_compute. reflexivity. Qed.

(** [build_flows] adds the connections of the table whose tests hold. *)
Lemma build_flows_by_rule (idx : list (string * nat)) :
  build_flows idx = flows_by_rule idx.
Proof.
  set (idx' := index_of_marks flow_keys (map (has idx) flow_keys)).
  assert (H : forall k : string, In k flow_keys -> has idx k = has idx' k).
  { intros k Hk. symmetry. unfold idx'.
    now apply has_index_of_marks; [apply flow_keys_nodup|]. }
  rewrite (build_flows_presence idx idx' H).
  rewrite (flows_by_rule_presence idx idx' H).
  apply flows_eqb_eq.
  apply (proj1 (forallb_forall _ _) flows_checked).
  apply (all_marks_complete (map (has idx) flow_keys)).
Qed.


Lemma in_build_flows (idx : list (string * nat)) (e : string * string) :
  In e (build_flows idx) <->
  exists rule, In rule flow_rules /\ snd rule = e /\
               rule_fires idx rule = true.
Proof.
  rewrite build_flows_by_rule. unfold flows_by_rule.
  rewrite in_map_iff. split.
  - intros (rule & E & Hin). apply filter_In in Hin. exists rule. tauto.
  - intros (rule & Hin & E & Hf). exists rule. split; [assumption|].
    apply filter_In. tauto.
Qed.

Lemma rules_descend :
  Forall (fun rule => (rank (fst (snd rule)) < rank (snd (snd rule)))%nat)
         flow_rules.
Proof. unfold flow_rules. repeat constructor. Qed.

Lemma flows_descend (idx : list (string * nat)) (a b : string) :
  In (a, b) (build_flows idx) -> (rank a < rank b)%nat.
Proof.
  intro H. apply in_build_flows in H. destruct H as (rule & Hin & E & _).
  pose proof (proj1 (Forall_forall _ _) rules_descend rule Hin) as Hr.
  cbv beta in Hr. now rewrite E in Hr.
Qed.

Lemma path_descends (edges : list (string * string)) (a b : string) :
  (forall s t : string, In (s, t) edges -> (rank s < rank t)%nat) ->
  path edges a b -> (rank a < rank b)%nat.
Proof.
  intros H Hp. induction Hp as [a b Hin | a b c Hin _ IH].
  - now apply H.
  - apply H in Hin. lia.
Qed.

Lemma build_flows_acyclic (idx : list (string * nat)) :
  acyclic (build_flows idx).
Proof.
  intros a Hp.
  apply (path_descends _ a a (flows_descend idx)) in Hp. lia.
Qed.

Lemma out_degree_positive (edges : list (string * string)) (s t : string) :
  In (s, t) edges -> (1 <= out_degree edges s)%nat.
Proof.
  unfold out_degree. induction edges as [|e edges IH]; intro H.
  - contradiction.
  - simpl. destruct H as [->|H].
    + simpl. rewrite String.eqb_refl. simpl. lia.
    + destruct (String.eqb (fst e) s); simpl; [lia | now apply IH].
Qed.

Lemma out_degree_zero (edges : list (string * string)) (n : string) :
  (forall e : string * string, In e edges -> String.eqb (fst e) n = false) ->
  out_degree edges n = 0%nat.
Proof.
  unfold out_degree. induction edges as [|e edges IH]; intro H.
  - reflexivity.
  - simpl. rewrite (H e) by now left. apply IH.
    intros e' He'. apply H. now right.
Qed.

Lemma no_flow_from (idx : list (string * nat)) (n : string) :
  forallb (fun rule => negb (String.eqb (fst (snd rule)) n)) flow_rules
  = true ->
  out_degree (build_flows idx) n = 0%nat.
Proof.
  intro H. apply out_degree_zero. intros e He.
  apply in_build_flows in He. destruct He as (rule & Hin & <- & _).
  pose proof (proj1 (forallb_forall _ _) H rule Hin) as Hr.
  cbv beta in Hr. now apply negb_true_iff in Hr.
Qed.

(** *** Dictionaries *)

Lemma dict_get_set {V : Type} (d : list (string * V)) (k k' : string)
    (v : V) :
  dict_get String.eqb (dict_set String.eqb d k v) k' =
  if String.eqb k k' then Some v else dict_get String.eqb d k'.
Proof.
  induction d as [|[k0 v0] d IH]; simpl.
  - reflexivity.
  - destruct (String.eqb k0 k) eqn:E0.
    + apply String.eqb_eq in E0. subst k0. simpl.
      now destruct (String.eqb k k').
    + simpl. destruct (String.eqb k0 k') eqn:E1.
      * apply String.eqb_eq in E1. subst k'.
        rewrite String.eqb_sym in E0. now rewrite E0.
      * exact IH.
Qed.

Lemma has_set {V : Type} (d : list (string * V)) (k k' : string) (v : V) :
  has (dict_set String.eqb d k v) k' = String.eqb k k' || has d k'.
Proof.
  unfold has, dict_mem. rewrite dict_get_set.
  now destruct (String.eqb k k').
Qed.

Lemma has_index_nodes (names : list string) (i : nat)
    (idx : list (string * nat)) (k : string) :
  has (index_nodes names i idx) k =
  has idx k || existsb (fun n => String.eqb n k) names.
Proof.
  revert i idx. induction names as [|n names IH]; intros i idx; simpl.
  - now rewrite orb_false_r.
  - rewrite IH, has_set.
    destruct (has idx k), (String.eqb n k); reflexivity.
Qed.

Lemma has_nodes (names : list string) (k : string) :
  has (index_nodes names 0 []) k = true <-> In k names.
Proof.
  rewrite has_index_nodes. simpl. rewrite existsb_exists. split.
  - intros (n & Hin & E). apply String.eqb_eq in E. now subst.
  - intro H. exists k. split; [assumption | apply String.eqb_refl].
Qed.

(** *** Reading the bucket file and deriving EBIT and EBT *)

Lemma load_buckets_listed (buckets_raw : list jitem) (t t' : tables) :
  load_buckets buckets_raw t = Ok t' -> listed t -> listed t'.
Proof.
  revert t. induction buckets_raw as [|item rest IH]; intros t H Ht.
  - simpl in H. now injection H as <-.
  - simpl in H. destruct item as [b v|]; simpl in H; [|discriminate].
    destruct b as [[q|name|]|]; try (now apply (IH t));
      destruct v as [[q'|s'|]|]; try (now apply (IH t)).
    apply (IH _ H). intro k. simpl. rewrite in_app_iff, has_set, (Ht k).
    simpl. rewrite orb_true_iff. rewrite String.eqb_eq. tauto.
Qed.

Lemma loaded_listed (buckets_raw : list jitem) (t : tables) :
  load_buckets buckets_raw (mkTables [] [] []) = Ok t -> listed t.
Proof.
  intro H. apply (load_buckets_listed _ _ _ H).
  intro k. simpl. split; [contradiction | discriminate].
Qed.

Lemma derive_both (t : tables) :
  let bv := bucket_values t in
  let s1 := derive_ebit t [] in
  let s2 := derive_ebt (fst s1) (snd s1) in
  valid_items (fst s2) =
  valid_items t ++ (if derives_ebit bv then ["EBIT"] else [])
                ++ (if derives_ebt bv then ["EBT"] else []) /\
  snd s2 =
  (if derives_ebit bv then [("EBIT", derived_ebit bv)] else [])
  ++ (if derives_ebt bv then [("EBT", derived_ebt bv)] else []) /\
  bucket_values (fst s2) = bv.
Proof.
  cbv zeta.
  unfold derive_ebit, derive_ebt, derives_ebt, derived_ebt, ebit_of,
    derives_ebit, derived_ebit.
  destruct (has (bucket_values t) "Operating Income"),
    (has (bucket_values t) "EBIT") eqn:E;
    cbn [andb negb orb fst snd bucket_values valid_items];
    rewrite ?E; cbn [andb negb orb];
    change (has (@nil (string * Q)) "EBIT") with false;
    try match goal with
        | |- context [has [("EBIT", ?v)] "EBIT"] =>
            change (has [("EBIT", v)] "EBIT") with true;
            change (dict_get String.eqb [("EBIT", v)] "EBIT") with (Some v)
        end;
    cbn [andb negb orb];
    destruct (has (bucket_values t) "EBT");
    cbn [andb negb orb fst snd bucket_values valid_items dict_set app];
    rewrite <- ?app_assoc, ?app_nil_r; auto.
Qed.

(** What a successful run is made of. *)
Lemma plot_sankey_inv (buckets_raw : list jitem) (g : graph) :
  plot_sankey buckets_raw = Ok g ->
  exists t : tables,
    load_buckets buckets_raw (mkTables [] [] []) = Ok t /\
    let s1 := derive_ebit t [] in
    let s2 := derive_ebt (fst s1) (snd s1) in
    nodes g = valid_items (fst s2) /\
    g_derived g = snd s2 /\
    g_values g = dict_update (bucket_values (fst s2)) (snd s2) /\
    node_index g = index_nodes (nodes g) 0 [] /\
    flows g = build_flows (node_index g) /\
    node_x g = assign_x (node_index g) (repeat 0.0 (List.length (nodes g))) /\
    group_by_x (node_index g) (node_x g) [] = Ok (groups g) /\
    assign_y (node_index g) (groups g)
      (repeat 0.5 (List.length (nodes g))) = Ok (node_y g).
Proof.
  unfold plot_sankey. intro H.
  destruct (load_buckets buckets_raw (mkTables [] [] [])) as [t|e];
    cbn [bind] in H; [|discriminate].
  exists t. split; [reflexivity|]. cbv zeta.
  destruct (derive_ebit t []) as [t1 d1]. cbn [fst snd].
  destruct (derive_ebt t1 d1) as [t2 d2]. cbn [fst snd].
  match type of H with
  | bind ?m _ = _ => destruct m as [x_groups|e] eqn:Eg
  end; cbn [bind] in H; [|discriminate].
  match type of H with
  | bind ?m _ = _ => destruct m as [ys|e] eqn:Ey
  end; cbn [bind] in H; [|discriminate].
  injection H as <-.
  cbn [nodes g_derived g_values node_index flows node_x groups node_y].
  repeat split; try reflexivity; assumption.
Qed.

Section Derivation.
Variables (buckets_raw : list jitem) (t : tables) (g : graph).
Hypothesis Hload : load_buckets buckets_raw (mkTables [] [] []) = Ok t.
Hypothesis Hplot : plot_sankey buckets_raw = Ok g.

Lemma plot_nodes :
  nodes g = valid_items t
            ++ (if derives_ebit (bucket_values t) then ["EBIT"] else [])
            ++ (if derives_ebt (bucket_values t) then ["EBT"] else []).
Proof.
  destruct (plot_sankey_inv _ _ Hplot) as (t' & Hl & Hn & _).
  rewrite Hload in Hl. injection Hl as <-.
  rewrite Hn. apply derive_both.
Qed.

Lemma plot_derived :
  g_derived g =
  (if derives_ebit (bucket_values t)
   then [("EBIT", derived_ebit (bucket_values t))] else [])
  ++ (if derives_ebt (bucket_values t)
      then [("EBT", derived_ebt (bucket_values t))] else []).
Proof.
  destruct (plot_sankey_inv _ _ Hplot) as (t' & Hl & _ & Hd & _).
  rewrite Hload in Hl. injection Hl as <-.
  rewrite Hd. apply derive_both.
Qed.

Lemma plot_values :
  g_values g = dict_update (bucket_values t) (g_derived g).
Proof.
  destruct (plot_sankey_inv _ _ Hplot) as (t' & Hl & _ & Hd & Hv & _).
  rewrite Hload in Hl. injection Hl as <-.
  rewrite Hv, Hd. f_equal. apply derive_both.
Qed.

Lemma node_listed (k : string) :
  In k (nodes g) <->
  has (bucket_values t) k = true
  \/ (derives_ebit (bucket_values t) = true /\ k = "EBIT")
  \/ (derives_ebt (bucket_values t) = true /\ k = "EBT").
Proof.
  rewrite plot_nodes, !in_app_iff.
  rewrite (loaded_listed _ _ Hload k).
  destruct (derives_ebit (bucket_values t)), (derives_ebt (bucket_values t));
    simpl; intuition congruence.
Qed.

Lemma has_node (k : string) :
  has (node_index g) k = true <-> In k (nodes g).
Proof.
  destruct (plot_sankey_inv _ _ Hplot) as (_ & _ & _ & _ & _ & Hi & _).
  rewrite Hi. apply has_nodes.
Qed.

Lemma ebit_follows : In "Operating Income" (nodes g) -> In "EBIT" (nodes g).
Proof.
  rewrite !node_listed.
  intros [H|[[_ H]|[_ H]]]; try discriminate H.
  unfold derives_ebit. rewrite H.
  destruct (has (bucket_values t) "EBIT"); simpl; auto.
Qed.

Lemma ebt_follows : In "EBIT" (nodes g) -> In "EBT" (nodes g).
Proof.
  rewrite !node_listed.
  intros [H|[[H _]|[_ H]]]; try discriminate H; unfold derives_ebt.
  - rewrite H. destruct (has (bucket_values t) "EBT"); simpl; auto.
  - rewrite H, orb_true_r. destruct (has (bucket_values t) "EBT");
      simpl; auto.
Qed.

Lemma plot_flows : flows g = build_flows (node_index g).
Proof.
  now destruct (plot_sankey_inv _ _ Hplot) as (_ & _ & _ & _ & _ & _ & H & _).
Qed.

End Derivation.

Lemma flow_fired (idx : list (string * nat)) (i : nat)
    (rule : (list (string * nat) -> bool) * (string * string)) :
  nth_error flow_rules i = Some rule ->
  rule_fires idx rule = true ->
  In (snd rule) (build_flows idx).
Proof.
  intros Hi Hf. apply in_build_flows. exists rule.
  split; [now apply nth_error_In with i | auto].
Qed.

(** With Operating Income comes EBIT, so the flattened connections out of
    Operating Income are never added. *)
Lemma no_flattened_flow (idx : list (string * nat)) (tgt : string) :
  (has idx "Operating Income" = true -> has idx "EBIT" = true) ->
  In tgt ["Interest Income"; "Interest Expense"; "Other Income/Expense"] ->
  ~ In ("Operating Income", tgt) (build_flows idx).
Proof.
  intros Hebit Htgt Hin.
  apply in_build_flows in Hin. destruct Hin as (rule & Hr & E & Hf).
  unfold flow_rules in Hr. simpl in Hr, Htgt.
  destruct Htgt as [<-|[<-|[<-|[]]]];
    repeat destruct Hr as [<-|Hr]; try contradiction;
    try discriminate E;
    unfold rule_fires in Hf; cbn [fst snd] in Hf;
    (destruct (has idx "Operating Income");
     [ rewrite (Hebit eq_refl) in Hf
     | rewrite andb_false_r in Hf ]);
    discriminate Hf.
Qed.

(** C10: whenever Operating Income is among the nodes so is EBIT, supplied
    or derived, and the connections from Operating Income to Interest Income,
    Interest Expense and Other Income/Expense are in no graph. *)
Theorem C10_operating_income_brings_ebit
    (buckets_raw : list jitem) (g : graph) :
  plot_sankey buckets_raw = Ok g ->
  (In "Operating Income" (nodes g) -> In "EBIT" (nodes g)) /\
  ~ In ("Operating Income", "Interest Income") (flows g) /\
  ~ In ("Operating Income", "Interest Expense") (flows g) /\
  ~ In ("Operating Income", "Other Income/Expense") (flows g).
Proof.
  intro Hplot.
  destruct (plot_sankey_inv _ _ Hplot) as (t & Hload & _).
  pose proof (ebit_follows _ _ _ Hload Hplot) as Hebit.
  assert (Hidx : has (node_index g) "Operating Income" = true ->
                 has (node_index g) "EBIT" = true).
  { intro H. apply (has_node _ _ Hplot). apply Hebit.
    now apply (has_node _ _ Hplot). }
  split; [exact Hebit|].
  rewrite (plot_flows _ _ Hplot).
  repeat split; apply no_flattened_flow; try assumption; simpl; tauto.
Qed.

Lemma C10_operating_income_witness :
  exists g : graph,
    plot_sankey (bucket_file Examples.full_set) = Ok g /\
    (In "Operating Income" (nodes g) -> In "EBIT" (nodes g)) /\
    ~ In ("Operating Income", "Interest Income") (flows g) /\
    ~ In ("Operating Income", "Interest Expense") (flows g) /\
    ~ In ("Operating Income", "Other Income/Expense") (flows g).
Proof.
  eexists. split.
  - vm_compute. reflexivity.
  - apply (C10_operating_income_brings_ebit
             (bucket_file Examples.full_set)).
    vm_compute. reflexivity.
Defined.

(** C4 as stated fails: in the graph of a full bucket set, with Revenue and
    Net Income among the nodes, Cost of Revenue is a node other than Net
    Income and no connection leaves it. *)
Lemma C4_cost_of_revenue_is_a_sink :
  exists g : graph,
    plot_sankey (bucket_file Examples.full_set) = Ok g /\
    In "Net Income" (nodes g) /\ In "Revenue" (nodes g) /\
    In "Cost of Revenue" (nodes g) /\
    "Cost of Revenue" <> "Net Income" /\
    out_degree (flows g) "Cost of Revenue" = 0%nat.
Proof.
  eexists. split; [vm_compute; reflexivity|].
  cbn [nodes flows].
  split; [simpl; tauto|]. split; [simpl; tauto|]. split; [simpl; tauto|].
  split; [discriminate | reflexivity].
Qed.

(** C4, amended: the connections of every graph are free of cycles; when the
    twelve taxonomy keys are all among the nodes, every taxonomy or derived
    node other than Net Income, Cost of Revenue and Operating Expenses has a
    connection leaving it; no connection ever leaves Cost of Revenue,
    Operating Expenses or Net Income. *)
Theorem C4_acyclic_sources
    (buckets_raw : list jitem) (g : graph) :
  plot_sankey buckets_raw = Ok g ->
  acyclic (flows g) /\
  ((forall k : string, In k ExtractFinancials.TAXONOMY -> In k (nodes g)) ->
   forall n : string,
     In n flow_keys ->
     n <> "Net Income" -> n <> "Cost of Revenue" ->
     n <> "Operating Expenses" ->
     In n (nodes g) /\ (1 <= out_degree (flows g) n)%nat) /\
  out_degree (flows g) "Cost of Revenue" = 0%nat /\
  out_degree (flows g) "Operating Expenses" = 0%nat /\
  out_degree (flows g) "Net Income" = 0%nat.
Proof.
  intro Hplot.
  destruct (plot_sankey_inv _ _ Hplot) as (t & Hload & _).
  rewrite (plot_flows _ _ Hplot).
  split; [apply build_flows_acyclic|].
  split; [|repeat split; apply no_flow_from; reflexivity].
  intros Hfull n Hn H1 H2 H3.
  assert (Hebit : In "EBIT" (nodes g)).
  { apply (ebit_follows _ _ _ Hload Hplot). apply Hfull. simpl. tauto. }
  assert (Hebt : In "EBT" (nodes g))
    by (now apply (ebt_follows _ _ _ Hload Hplot)).
  assert (Hall : forall k : string, In k flow_keys ->
                                    has (node_index g) k = true).
  { intros k Hk. apply (has_node _ _ Hplot).
    unfold flow_keys in Hk. simpl in Hk.
    repeat (destruct Hk as [<-|Hk];
            [first [exact Hebit | exact Hebt | apply Hfull; simpl; tauto]|]).
    contradiction. }
  split.
  { apply (has_node _ _ Hplot). now apply Hall. }
  assert (Hfire : forall (i : nat) rule,
            nth_error flow_rules i = Some rule ->
            fst rule (node_index g) = true ->
            In (fst (snd rule)) flow_keys ->
            In (snd (snd rule)) flow_keys ->
            (1 <= out_degree (build_flows (node_index g))
                    (fst (snd rule)))%nat).
  { intros i [guard [s tg]] Hi Hg Hs Ht. cbn [fst snd] in *.
    apply (out_degree_positive _ s tg).
    apply (flow_fired _ i _ Hi). unfold rule_fires. cbn [fst snd].
    now rewrite Hg, !Hall. }
  unfold flow_keys in Hn. simpl in Hn.
  destruct Hn as [<-|[<-|[<-|[<-|[<-|[<-|[<-|[<-|[<-|[<-|[<-|[<-|[<-|[<-|[]]]]]]]]]]]]]]];
    try congruence.
  - apply (Hfire 0%nat _ eq_refl); simpl; tauto.
  - apply (Hfire 1%nat _ eq_refl); simpl; tauto.
  - apply (Hfire 2%nat _ eq_refl); simpl; tauto.
  - apply (Hfire 4%nat _ eq_refl); simpl; tauto.
  - apply (Hfire 6%nat _ eq_refl); [apply Hall|..]; simpl; tauto.
  - apply (Hfire 13%nat _ eq_refl); [apply Hall|..]; simpl; tauto.
  - apply (Hfire 12%nat _ eq_refl); [apply Hall|..]; simpl; tauto.
  - apply (Hfire 7%nat _ eq_refl); [apply Hall|..]; simpl; tauto.
  - apply (Hfire 16%nat _ eq_refl); simpl; tauto.
  - apply (Hfire 11%nat _ eq_refl); [apply Hall|..]; simpl; tauto.
  - apply (Hfire 14%nat _ eq_refl); simpl; tauto.
Qed.

Lemma C4_acyclic_sources_witness :
  exists g : graph,
    plot_sankey (bucket_file Examples.full_set) = Ok g /\
    acyclic (flows g) /\
    (1 <= out_degree (flows g) "Taxes")%nat /\
    out_degree (flows g) "Operating Expenses" = 0%nat.
Proof.
  eexists. split; [vm_compute; reflexivity|].
  match goal with
  | |- acyclic (flows ?g) /\ _ =>
      destruct (C4_acyclic_sources (bucket_file Examples.full_set) g)
        as (Hacyc & Hout & _ & Hopex & _)
  end.
  - vm_compute. reflexivity.
  - split; [exact Hacyc|]. split; [|exact Hopex].
    apply Hout; try discriminate.
    + intros k Hk. simpl in Hk. cbn [nodes].
      repeat (destruct Hk as [<-|Hk]; [simpl; tauto|]). contradiction.
    + simpl. tauto.
Defined.

(** *** The derived values *)

Lemma has_get {V : Type} (d : list (string * V)) (k : string) :
  has d k = true <-> exists v, dict_get String.eqb d k = Some v.
Proof.
  unfold has, dict_mem. destruct (dict_get String.eqb d k) as [v|].
  - split; [now exists v | reflexivity].
  - split; [discriminate | intros (v & H); discriminate H].
Qed.



Lemma plot_values_get (buckets_raw : list jitem) (t : tables) (g : graph)
    (k : string) :
  load_buckets buckets_raw (mkTables [] [] []) = Ok t ->
  plot_sankey buckets_raw = Ok g ->
  dict_get String.eqb (g_values g) k =
  if derives_ebt (bucket_values t) && String.eqb "EBT" k
  then Some (derived_ebt (bucket_values t))
  else if derives_ebit (bucket_values t) && String.eqb "EBIT" k
       then Some (derived_ebit (bucket_values t))
       else dict_get String.eqb (bucket_values t) k.
Proof.
  intros Hload Hplot.
  rewrite (plot_values _ _ _ Hload Hplot), (plot_derived _ _ _ Hload Hplot).
  destruct (derives_ebit (bucket_values t)),
    (derives_ebt (bucket_values t));
    unfold dict_update; cbn [app fold_left fst snd andb];
    rewrite ?dict_get_set; reflexivity.
Qed.




(** *** The node index *)

Lemma keys_dict_set {V : Type} (d : list (string * V)) (k : string) (v : V) :
  map fst (dict_set String.eqb d k v) =
  if has d k then map fst d else map fst d ++ [k].
Proof.
  unfold has, dict_mem.
  induction d as [|[k0 v0] d IH]; simpl.
  - reflexivity.
  - destruct (String.eqb k0 k) eqn:E; simpl.
    + reflexivity.
    + rewrite IH. now destruct (dict_get String.eqb d k).
Qed.

Lemma in_dict_set {V : Type} (d : list (string * V)) (k a : string)
    (v b : V) :
  In (a, b) (dict_set String.eqb d k v) ->
  (a = k /\ b = v) \/ In (a, b) d.
Proof.
  induction d as [|[k0 v0] d IH]; simpl.
  - intros [H|[]]. injection H as <- <-. now left.
  - destruct (String.eqb k0 k) eqn:E; simpl.
    + apply String.eqb_eq in E. subst k0.
      intros [H|H]; [injection H as <- <-; now left | right; now right].
    + intros [H|H]; [right; now left|].
      destruct (IH H) as [?|?]; [now left | right; now right].
Qed.

Lemma has_keys {V : Type} (d : list (string * V)) (k : string) :
  has d k = true <-> In k (map fst d).
Proof.
  unfold has, dict_mem. induction d as [|[k0 v0] d IH]; simpl.
  - split; [discriminate | contradiction].
  - destruct (String.eqb k0 k) eqn:E.
    + apply String.eqb_eq in E. split; auto.
    + apply String.eqb_neq in E. rewrite IH. tauto.
Qed.

Lemma dict_get_in {V : Type} (d : list (string * V)) (k : string) (v : V) :
  dict_get String.eqb d k = Some v -> In (k, v) d.
Proof.
  induction d as [|[k0 v0] d IH]; simpl; [discriminate|].
  destruct (String.eqb k0 k) eqn:E.
  - apply String.eqb_eq in E. intro H. injection H as <-. subst. now left.
  - intro H. right. now apply IH.
Qed.

Lemma in_dict_get {V : Type} (d : list (string * V)) (k : string) (v : V) :
  NoDup (map fst d) -> In (k, v) d -> dict_get String.eqb d k = Some v.
Proof.
  induction d as [|[k0 v0] d IH]; simpl; intros Hnd Hin; [contradiction|].
  inversion Hnd as [|? ? Hout Hnd']; subst.
  destruct Hin as [H|H].
  - injection H as -> ->. now rewrite String.eqb_refl.
  - destruct (String.eqb k0 k) eqn:E.
    + apply String.eqb_eq in E. subst k0. exfalso. apply Hout.
      now apply (in_map fst) in H.
    + now apply IH.
Qed.

Lemma index_nodes_indexes (rest pre : list string)
    (idx : list (string * nat)) :
  indexes pre idx ->
  indexes (pre ++ rest) (index_nodes rest (List.length pre) idx).
Proof.
  revert pre idx. induction rest as [|n rest IH]; intros pre idx H.
  - simpl. now rewrite app_nil_r.
  - simpl.
    replace (pre ++ n :: rest) with ((pre ++ [n]) ++ rest)
      by (now rewrite <- app_assoc).
    replace (S (List.length pre)) with (List.length (pre ++ [n]))
      by (rewrite length_app; simpl; lia).
    apply IH. destruct H as (Hnd & Hat & Hcov).
    split; [|split].
    + rewrite keys_dict_set. destruct (has idx n) eqn:E; [assumption|].
      apply NoDup_app; [assumption | repeat constructor; intros [] |].
      intros a Ha [<-|[]].
      apply has_keys in Ha. congruence.
    + intros name k Hin. apply in_dict_set in Hin.
      destruct Hin as [[-> ->]|Hin].
      * rewrite nth_error_app2 by lia. now rewrite Nat.sub_diag.
      * pose proof (Hat _ _ Hin) as Hk.
        rewrite nth_error_app1; [assumption|].
        apply nth_error_Some. congruence.
    + intros name Hin. apply has_keys. rewrite has_set.
      apply in_app_iff in Hin. destruct Hin as [Hin|[<-|[]]].
      * apply Hcov, has_keys in Hin. rewrite Hin. apply orb_true_r.
      * now rewrite String.eqb_refl.
Qed.

Lemma node_index_indexes (names : list string) :
  indexes names (index_nodes names 0 []).
Proof.
  apply (index_nodes_indexes names [] []).
  split; [constructor|]. split; [intros ? ? []|intros ? []].
Qed.

Lemma indexes_injective (names : list string) (idx : list (string * nat))
    (a b : string) (k : nat) :
  indexes names idx -> In (a, k) idx -> In (b, k) idx -> a = b.
Proof.
  intros (_ & Hat & _) Ha Hb.
  apply Hat in Ha, Hb. congruence.
Qed.


Lemma indexes_nodup (names : list string) (idx : list (string * nat))
    (name : string) (k : nat) :
  indexes names idx -> NoDup names ->
  nth_error names k = Some name -> In (name, k) idx.
Proof.
  intros (Hnd & Hat & Hcov) Hnames Hk.
  assert (Hin : In name (map fst idx))
    by (apply Hcov; now apply nth_error_In with k).
  apply in_map_iff in Hin. destruct Hin as ([name' k'] & E & Hin).
  simpl in E. subst name'.
  pose proof (Hat _ _ Hin) as Hk'.
  assert (k' = k).
  { apply (proj1 (NoDup_nth_error names) Hnames); [|congruence].
    apply nth_error_Some. congruence. }
  now subst.
Qed.

(** *** Grouping the names by stage *)

Lemma Qeq_bool_trans_false (x y z : Q) :
  Qeq_bool x z = true -> Qeq_bool x y = false -> Qeq_bool y z = false.
Proof.
  intros Hxz Hxy. destruct (Qeq_bool y z) eqn:E; [|reflexivity].
  apply Qeq_bool_iff in Hxz, E.
  assert (H : Qeq_bool x y = true)
    by (apply Qeq_bool_iff; rewrite Hxz, E; reflexivity).
  congruence.
Qed.


Section Grouping.
Variable node_x : list Q.

Lemma stage_group_grows_out (P : list (string * nat)) (e : string * nat)
    (x : Q) :
  in_stage node_x x e = false ->
  stage_group (P ++ [e]) node_x x = stage_group P node_x x.
Proof.
  intro H. unfold stage_group. rewrite filter_app. simpl. rewrite H.
  now rewrite app_nil_r.
Qed.

Lemma stage_group_grows_in (P : list (string * nat)) (e : string * nat)
    (x : Q) :
  in_stage node_x x e = true ->
  stage_group (P ++ [e]) node_x x =
  (x, snd (stage_group P node_x x) ++ [fst e]).
Proof.
  intro H. unfold stage_group. rewrite filter_app. simpl. rewrite H.
  now rewrite map_app.
Qed.

(** One name more: its group takes it, or a new group is made for it. *)
Lemma group_append_stage (P : list (string * nat)) (e : string * nat)
    (keys : list Q) :
  apart keys ->
  (existsb (fun x => in_stage node_x x e) keys = false ->
   filter (in_stage node_x (stage_at node_x e)) P = []) ->
  group_append (map (stage_group P node_x) keys) (stage_at node_x e) (fst e) =
  map (stage_group (P ++ [e]) node_x)
      (if existsb (fun x => in_stage node_x x e) keys then keys
       else keys ++ [stage_at node_x e]).
Proof.
  induction keys as [|x keys IH]; intros Hap Hnew.
  - cbn [map existsb app group_append]. unfold stage_group.
    rewrite filter_app, (Hnew eq_refl). cbn [filter app].
    unfold in_stage at 1. now rewrite Qeq_bool_refl.
  - destruct Hap as [Hx Hap].
    change (map (stage_group P node_x) (x :: keys)) with
      ((x, snd (stage_group P node_x x)) :: map (stage_group P node_x) keys).
    cbn [group_append existsb].
    change (Qeq_bool x (stage_at node_x e)) with (in_stage node_x x e).
    destruct (in_stage node_x x e) eqn:E; cbn [orb map].
    + rewrite (stage_group_grows_in _ _ _ E). f_equal.
      apply map_ext_in. intros x' Hx'. symmetry.
      apply stage_group_grows_out. unfold in_stage in *.
      apply (Qeq_bool_trans_false x); [assumption|].
      now apply (proj1 (Forall_forall _ _) Hx).
    + rewrite IH;
        [|assumption
         |intro Hk; apply Hnew; cbn [existsb]; now rewrite E, Hk].
      destruct (existsb (fun x0 => in_stage node_x x0 e) keys);
        cbn [map app]; now rewrite (stage_group_grows_out _ _ _ E).
Qed.

Lemma apart_snoc (keys : list Q) (x : Q) :
  apart keys -> existsb (fun x' => Qeq_bool x' x) keys = false ->
  apart (keys ++ [x]).
Proof.
  induction keys as [|x0 keys IH]; intros Hap Hx; simpl.
  - split; [constructor | exact I].
  - destruct Hap as [H0 Hap]. simpl in Hx.
    apply orb_false_iff in Hx. destruct Hx as [Hx0 Hx].
    split; [|now apply IH].
    apply Forall_app. split; [assumption|]. now repeat constructor.
Qed.

Lemma grouped_step (P : list (string * nat)) (e : string * nat)
    (keys : list Q) :
  grouped node_x P keys ->
  grouped node_x (P ++ [e])
    (if existsb (fun x => in_stage node_x x e) keys then keys
     else keys ++ [stage_at node_x e]).
Proof.
  intros [Hap Hcov].
  destruct (existsb (fun x => in_stage node_x x e) keys) eqn:E.
  - split; [assumption|]. intros e' Hin.
    apply in_app_iff in Hin. destruct Hin as [Hin|[<-|[]]]; auto.
  - split; [now apply apart_snoc|].
    intros e' Hin. rewrite existsb_app. apply orb_true_iff.
    apply in_app_iff in Hin. destruct Hin as [Hin|[<-|[]]].
    + left. now apply Hcov.
    + right. simpl. unfold in_stage. now rewrite Qeq_bool_refl.
Qed.

Lemma grouped_new_stage (P : list (string * nat)) (e : string * nat)
    (keys : list Q) :
  grouped node_x P keys ->
  existsb (fun x => in_stage node_x x e) keys = false ->
  filter (in_stage node_x (stage_at node_x e)) P = [].
Proof.
  intros [_ Hcov] Hmiss.
  assert (H : forall e', In e' P ->
                in_stage node_x (stage_at node_x e) e' = false).
  { intros e' Hin. apply Hcov in Hin. apply existsb_exists in Hin.
    destruct Hin as (x & Hx & Hxe').
    destruct (in_stage node_x (stage_at node_x e) e') eqn:E;
      [|reflexivity].
    assert (Hxe : in_stage node_x x e = true).
    { unfold in_stage in *. apply Qeq_bool_iff in Hxe', E.
      apply Qeq_bool_iff. rewrite Hxe', <- E. reflexivity. }
    assert (Hex : existsb (fun x => in_stage node_x x e) keys = true)
      by (apply existsb_exists; now exists x).
    congruence. }
  clear Hcov. induction P as [|e0 P IH]; [reflexivity|].
  simpl. rewrite (H e0) by now left.
  apply IH. intros e' Hin. apply H. now right.
Qed.

(** The loop over the node index makes the groups of the stages met. *)
Lemma group_by_x_stages (items P : list (string * nat)) (keys : list Q) :
  (forall e : string * nat, In e items -> (snd e < List.length node_x)%nat) ->
  grouped node_x P keys ->
  exists keys' : list Q,
    group_by_x items node_x (map (stage_group P node_x) keys) =
    Ok (map (stage_group (P ++ items) node_x) keys') /\
    grouped node_x (P ++ items) keys'.
Proof.
  revert P keys. induction items as [|[name k] items IH];
    intros P keys Hlen Hg.
  - exists keys. simpl. now rewrite app_nil_r.
  - simpl.
    assert (Hk : (k < List.length node_x)%nat)
      by (apply (Hlen (name, k)); now left).
    destruct (nth_error node_x k) as [x_pos|] eqn:E;
      [|apply nth_error_None in E; lia].
    assert (Ex : x_pos = stage_at node_x (name, k)).
    { unfold stage_at. simpl. symmetry. now apply nth_error_nth. }
    rewrite Ex.
    change name with (fst (name, k)) at 2.
    rewrite group_append_stage;
      [|apply Hg | now apply (grouped_new_stage P (name, k) keys)].
    replace (P ++ (name, k) :: items) with ((P ++ [(name, k)]) ++ items)
      by (now rewrite <- app_assoc).
    apply IH.
    + intros e He. apply Hlen. now right.
    + now apply grouped_step.
Qed.

End Grouping.

(** *** The vertical positions *)

Lemma apply_writes_length (ws : list (nat * Q)) (ys : list Q) :
  List.length (apply_writes ws ys) = List.length ys.
Proof.
  unfold apply_writes. revert ys.
  induction ws as [|w ws IH]; intro ys; simpl; [reflexivity|].
  rewrite IH. apply set_nth_length.
Qed.

Lemma apply_writes_app (ws ws' : list (nat * Q)) (ys : list Q) :
  apply_writes (ws ++ ws') ys = apply_writes ws' (apply_writes ws ys).
Proof. unfold apply_writes. apply fold_left_app. Qed.

Lemma apply_writes_other (ws : list (nat * Q)) (ys : list Q) (k : nat) :
  ~ In k (map fst ws) ->
  nth_error (apply_writes ws ys) k = nth_error ys k.
Proof.
  unfold apply_writes. revert ys.
  induction ws as [|[k0 y0] ws IH]; intros ys H; simpl; [reflexivity|].
  rewrite IH by (intro Hin; apply H; now right).
  apply nth_error_set_nth_neq. intro E. apply H. now left.
Qed.

Lemma apply_writes_get (ws : list (nat * Q)) (ys : list Q) (k : nat)
    (y : Q) :
  NoDup (map fst ws) -> In (k, y) ws -> (k < List.length ys)%nat ->
  nth_error (apply_writes ws ys) k = Some y.
Proof.
  revert ys. induction ws as [|[k0 y0] ws IH]; intros ys Hnd Hin Hk;
    [contradiction|].
  simpl in Hnd. inversion Hnd as [|? ? Hout Hnd']; subst.
  destruct Hin as [E|Hin].
  - injection E as -> ->.
    change (apply_writes ((k, y) :: ws) ys)
      with (apply_writes ws (set_nth ys k y)).
    rewrite apply_writes_other by assumption.
    now apply nth_error_set_nth_eq.
  - change (apply_writes ((k0, y0) :: ws) ys)
      with (apply_writes ws (set_nth ys k0 y0)).
    apply IH; [assumption | assumption | now rewrite set_nth_length].
Qed.

Lemma spread_group_writes (idx : list (string * nat)) (names : list string)
    (i n : nat) (ys : list Q) :
  resolved idx (List.length ys) names ->
  spread_group idx names i n ys = Ok (apply_writes (writes idx names i n) ys).
Proof.
  revert i ys. induction names as [|name names IH]; intros i ys H.
  - reflexivity.
  - destruct (H name (or_introl eq_refl)) as (k & Hk & Hlt).
    simpl. rewrite Hk.
    replace (k <? List.length ys)%nat with true
      by (symmetry; now apply Nat.ltb_lt).
    rewrite IH.
    + reflexivity.
    + intros name' Hin. rewrite set_nth_length. apply H. now right.
Qed.

Lemma assign_y_writes (idx : list (string * nat))
    (x_groups : list (Q * list string)) (ys : list Q) :
  (forall g : Q * list string, In g x_groups ->
     resolved idx (List.length ys) (snd g)) ->
  assign_y idx x_groups ys =
  Ok (apply_writes
        (flat_map (fun g => writes idx (snd g) 0 (List.length (snd g)))
                  x_groups) ys).
Proof.
  revert ys. induction x_groups as [|[x names] gs IH]; intros ys H.
  - reflexivity.
  - simpl. rewrite spread_group_writes by (apply (H (x, names)); now left).
    cbn [bind]. rewrite IH.
    + now rewrite apply_writes_app.
    + intros g Hg. rewrite apply_writes_length. apply H. now right.
Qed.


Lemma writes_targets (idx : list (string * nat)) (names : list string)
    (i n len : nat) :
  resolved idx len names ->
  map fst (writes idx names i n) =
  map (fun name => match dict_get String.eqb idx name with
                   | Some k => k
                   | None => O
                   end) names.
Proof.
  revert i. induction names as [|name names IH]; intros i H.
  - reflexivity.
  - destruct (H name (or_introl eq_refl)) as (k & Hk & _).
    simpl. rewrite Hk. simpl. f_equal. apply IH.
    intros name' Hin. apply H. now right.
Qed.

Lemma all_writes_targets (idx : list (string * nat))
    (x_groups : list (Q * list string)) (len : nat) :
  (forall g : Q * list string, In g x_groups -> resolved idx len (snd g)) ->
  map fst (flat_map (fun g => writes idx (snd g) 0 (List.length (snd g)))
                    x_groups) =
  map (fun name => match dict_get String.eqb idx name with
                   | Some k => k
                   | None => O
                   end) (flat_map snd x_groups).
Proof.
  induction x_groups as [|g gs IH]; intro H.
  - reflexivity.
  - simpl. rewrite !map_app. f_equal.
    + apply (writes_targets _ _ _ _ len). apply H. now left.
    + apply IH. intros g' Hg'. apply H. now right.
Qed.



Section Stages.
Variables (names : list string) (idx : list (string * nat))
          (node_x : list Q) (keys : list Q).
Hypothesis Hidx : indexes names idx.
Hypothesis Hkeys : apart keys.

Lemma in_stage_group (x : Q) (name : string) :
  In name (snd (stage_group idx node_x x)) <->
  exists k : nat, In (name, k) idx /\ in_stage node_x x (name, k) = true.
Proof.
  unfold stage_group. cbn [snd]. rewrite in_map_iff. split.
  - intros ([name' k] & E & Hin). simpl in E. subst name'.
    apply filter_In in Hin. now exists k.
  - intros (k & Hin & Hs). exists (name, k). split; [reflexivity|].
    now apply filter_In.
Qed.


Lemma stage_names_resolved (x : Q) :
  resolved idx (List.length names) (snd (stage_group idx node_x x)).
Proof.
  intros name Hin. apply in_stage_group in Hin.
  destruct Hin as (k & Hk & _). exists k. split.
  - apply in_dict_get; [apply Hidx | assumption].
  - destruct Hidx as (_ & Hat & _). apply Hat in Hk.
    apply nth_error_Some. congruence.
Qed.


End Stages.

Lemma place_level_length (idx : list (string * nat)) (x : Q)
    (names : list string) (node_x : list Q) :
  List.length (place_level idx x names node_x) = List.length node_x.
Proof.
  revert node_x. induction names as [|name names IH]; intro node_x; simpl.
  - reflexivity.
  - rewrite IH. destruct (dict_get String.eqb idx name);
      [apply set_nth_length | reflexivity].
Qed.

Lemma assign_x_length (idx : list (string * nat)) (node_x : list Q) :
  List.length (assign_x idx node_x) = List.length node_x.
Proof.
  unfold assign_x. generalize levels. intro lv. revert node_x.
  induction lv as [|l lv IH]; intro node_x; simpl; [reflexivity|].
  rewrite IH. apply place_level_length.
Qed.

(** *** Evenly spaced positions *)







(** What the layout of a successful run is made of. *)
Lemma layout_inv (buckets_raw : list jitem) (g : graph) :
  plot_sankey buckets_raw = Ok g ->
  indexes (nodes g) (node_index g) /\
  List.length (node_x g) = List.length (nodes g) /\
  exists keys : list Q,
    groups g = map (stage_group (node_index g) (node_x g)) keys /\
    grouped (node_x g) (node_index g) keys /\
    node_y g =
    apply_writes
      (flat_map (fun gr => writes (node_index g) (snd gr) 0
                             (List.length (snd gr))) (groups g))
      (repeat 0.5 (List.length (nodes g))).
Proof.
  intro Hplot.
  destruct (plot_sankey_inv _ _ Hplot)
    as (t & _ & _ & _ & _ & Hi & _ & Hx & Hg & Hy).
  assert (Hidx : indexes (nodes g) (node_index g))
    by (rewrite Hi; apply node_index_indexes).
  assert (Hlen : List.length (node_x g) = List.length (nodes g))
    by (rewrite Hx, assign_x_length; apply repeat_length).
  split; [assumption|]. split; [assumption|].
  destruct (group_by_x_stages (node_x g) (node_index g) [] [])
    as (keys & Hgr & Hgd).
  - intros [name k] Hin. simpl. rewrite Hlen.
    destruct Hidx as (_ & Hat & _). apply Hat in Hin.
    apply nth_error_Some. congruence.
  - split; [exact I | intros e []].
  - simpl in Hgr, Hgd. rewrite Hg in Hgr. injection Hgr as Hgr.
    exists keys. split; [assumption|]. split; [assumption|].
    rewrite assign_y_writes in Hy.
    + now injection Hy as <-.
    + intros gr Hin. rewrite repeat_length. rewrite Hgr in Hin.
      apply in_map_iff in Hin. destruct Hin as (x & <- & _).
      now apply stage_names_resolved.
Qed.



End VisualizeSankeyFacts.

(** ** Facts about the figure of visualize_sankey.py *)

Module SankeyFigureFacts.
Import VisualizeSankey SankeyFigure PyFacts VisualizeSankeyFacts.

(** *** The bucket file *)

Lemma dict_get_app {V : Type} (a b : list (string * V)) (k : string) :
  dict_get String.eqb (a ++ b) k =
  match dict_get String.eqb a k with
  | Some v => Some v
  | None => dict_get String.eqb b k
  end.
Proof.
  induction a as [|[k0 v0] a IH]; simpl; [reflexivity|].
  now destruct (String.eqb k0 k).
Qed.

Lemma dict_get_update (other d : list (string * Q)) (k : string) :
  dict_get String.eqb (dict_update d other) k =
  match last_value other k with
  | Some v => Some v
  | None => dict_get String.eqb d k
  end.
Proof.
  unfold dict_update, last_value. revert d.
  induction other as [|[k0 v0] other IH]; intro d; simpl; [reflexivity|].
  rewrite IH, dict_get_app, dict_get_set. simpl.
  destruct (dict_get String.eqb (rev other) k); [reflexivity|].
  now destruct (String.eqb k0 k).
Qed.

Lemma load_buckets_not_dict (buckets_raw : list jitem) (t : tables) :
  In NotDict buckets_raw -> load_buckets buckets_raw t = Raise AttributeError.
Proof.
  revert t. induction buckets_raw as [|item rest IH]; intros t Hin.
  - contradiction.
  - destruct item as [b v|]; [|reflexivity].
    destruct Hin as [H|H]; [discriminate|].
    simpl. destruct b as [[q|name|]|]; try (now apply IH);
      destruct v as [[q'|s'|]|]; now apply IH.
Qed.

(** The tables after the loading loop, entry by entry. *)
Lemma load_buckets_entries (buckets_raw : list jitem) (t : tables) :
  ~ In NotDict buckets_raw ->
  exists t' : tables,
    load_buckets buckets_raw t = Ok t' /\
    valid_items t' = valid_items t ++ map fst (valid_entries buckets_raw) /\
    bucket_values t' =
    dict_update (bucket_values t) (valid_entries buckets_raw) /\
    bucket_display t' =
    dict_update (bucket_display t)
      (map (fun e => (fst e, at_least_tiny (Qabs (snd e))))
           (valid_entries buckets_raw)).
Proof.
  revert t. induction buckets_raw as [|item rest IH]; intros t Hout.
  - exists t. simpl. rewrite app_nil_r. auto.
  - assert (Hrest : ~ In NotDict rest) by (intro H; apply Hout; now right).
    destruct item as [b v|]; [|exfalso; apply Hout; now left].
    destruct b as [[q|name|]|]; try (now apply IH);
      destruct v as [[q'|s'|]|]; try (now apply IH).
    simpl.
    destruct (IH (mkTables
                    (dict_set String.eqb (bucket_values t) name q')
                    (dict_set String.eqb (bucket_display t) name
                       (at_least_tiny (Qabs q')))
                    (valid_items t ++ [name])) Hrest)
      as (t' & Hl & Hv & Hb & Hd).
    exists t'. simpl in Hv, Hb, Hd.
    rewrite <- app_assoc in Hv. auto.
Qed.

Lemma last_value_map (f : Q -> Q) (es : list (string * Q)) (k : string) :
  last_value (map (fun e => (fst e, f (snd e))) es) k =
  option_map f (last_value es k).
Proof.
  unfold last_value. rewrite <- map_rev.
  induction (rev es) as [|[k0 v0] l IH]; simpl; [reflexivity|].
  now destruct (String.eqb k0 k).
Qed.

Lemma last_value_in (es : list (string * Q)) (k : string) :
  (exists v, last_value es k = Some v) <-> In k (map fst es).
Proof.
  unfold last_value. rewrite <- has_get, has_keys, map_rev, <- in_rev.
  reflexivity.
Qed.

(** *** The layout never fails *)






Lemma loaded_tables (buckets_raw : list jitem) (t : tables) :
  load_buckets buckets_raw (mkTables [] [] []) = Ok t ->
  valid_items t = map fst (valid_entries buckets_raw) /\
  bucket_values t = dict_update [] (valid_entries buckets_raw) /\
  bucket_display t =
  dict_update []
    (map (fun e => (fst e, at_least_tiny (Qabs (snd e))))
         (valid_entries buckets_raw)).
Proof.
  intro Hload.
  assert (Hout : ~ In NotDict buckets_raw).
  { intro Hin. rewrite (load_buckets_not_dict _ _ Hin) in Hload.
    discriminate. }
  destruct (load_buckets_entries buckets_raw (mkTables [] [] []) Hout)
    as (t' & Hl & Hv & Hb & Hd).
  rewrite Hload in Hl. injection Hl as <-. auto.
Qed.

Lemma loaded_has (buckets_raw : list jitem) (t : tables) (k : string) :
  load_buckets buckets_raw (mkTables [] [] []) = Ok t ->
  has (bucket_values t) k = true <-> In k (map fst (valid_entries buckets_raw)).
Proof.
  intro Hload. destruct (loaded_tables _ _ Hload) as (Hv & _ & _).
  rewrite <- Hv. symmetry. now apply loaded_listed with buckets_raw.
Qed.

Lemma plot_loaded (buckets_raw : list jitem) (g : graph) :
  plot_sankey buckets_raw = Ok g ->
  exists t : tables, load_buckets buckets_raw (mkTables [] [] []) = Ok t.
Proof.
  intro Hplot. destruct (plot_sankey_inv _ _ Hplot) as (t & Hload & _).
  now exists t.
Qed.

(** X2: the nodes of the diagram are the names of the entries of the file
    that hold a string name and a number, in the order of the file and with
    their repetitions, followed by the derived names; EBIT is derived when
    Operating Income is in the file and EBIT is not, EBT when EBIT or
    Operating Income is in the file and EBT is not, and nothing else is. *)
Theorem nodes_from_file (buckets_raw : list jitem) (g : graph) :
  plot_sankey buckets_raw = Ok g ->
  let names := map fst (valid_entries buckets_raw) in
  nodes g = names ++ map fst (g_derived g) /\
  (In "EBIT" (map fst (g_derived g)) <->
   In "Operating Income" names /\ ~ In "EBIT" names) /\
  (In "EBT" (map fst (g_derived g)) <->
   (In "EBIT" names \/ In "Operating Income" names) /\ ~ In "EBT" names) /\
  (forall k : string,
     In k (map fst (g_derived g)) -> k = "EBIT" \/ k = "EBT").
Proof.
  intros Hplot names.
  destruct (plot_loaded _ _ Hplot) as (t & Hload).
  pose proof (plot_nodes _ _ _ Hload Hplot) as Hn.
  pose proof (plot_derived _ _ _ Hload Hplot) as Hd.
  destruct (loaded_tables _ _ Hload) as (Hv & _ & _).
  pose proof (loaded_has _ _ "Operating Income" Hload) as Hoi.
  pose proof (loaded_has _ _ "EBIT" Hload) as Hebit.
  pose proof (loaded_has _ _ "EBT" Hload) as Hebt.
  fold names in Hv, Hoi, Hebit, Hebt.
  rewrite Hn, Hd, Hv. clear Hn Hd Hv.
  unfold derives_ebt, derives_ebit.
  destruct (has (bucket_values t) "Operating Income"),
    (has (bucket_values t) "EBIT"), (has (bucket_values t) "EBT");
    cbn [andb orb negb map fst app In];
    (split; [reflexivity|]);
    repeat split; intros; try discriminate; try tauto;
    try (intuition congruence).
Qed.

Lemma nodes_from_file_witness :
  exists g : graph,
    plot_sankey Samples.untidy_file = Ok g /\
    nodes g = ["Revenue"; "Operating Income"; "Revenue"]
              ++ map fst (g_derived g) /\
    (In "EBIT" (map fst (g_derived g)) <->
     In "Operating Income" ["Revenue"; "Operating Income"; "Revenue"] /\
     ~ In "EBIT" ["Revenue"; "Operating Income"; "Revenue"]).
Proof.
  eexists. split; [vm_compute; reflexivity|].
  match goal with
  | |- nodes ?g = _ /\ _ =>
      destruct (nodes_from_file Samples.untidy_file g) as (Ha & Hb & _)
  end.
  - vm_compute. reflexivity.
  - split; [exact Ha | exact Hb].
Defined.

(** X3: a value given in the file is shown as given, the last entry of a
    name winning, and is never replaced by a derived one; a name the file
    does not give has the derived value, if there is one. *)
Theorem values_from_file (buckets_raw : list jitem) (g : graph) (k : string) :
  plot_sankey buckets_raw = Ok g ->
  match last_value (valid_entries buckets_raw) k with
  | Some v =>
      dict_get String.eqb (g_values g) k = Some v /\
      ~ In k (map fst (g_derived g))
  | None =>
      dict_get String.eqb (g_values g) k =
      dict_get String.eqb (g_derived g) k
  end.
Proof.
  intro Hplot.
  destruct (plot_loaded _ _ Hplot) as (t & Hload).
  pose proof (plot_values_get _ _ _ k Hload Hplot) as Hg.
  pose proof (plot_derived _ _ _ Hload Hplot) as Hd.
  destruct (loaded_tables _ _ Hload) as (_ & Hv & _).
  assert (Hk : dict_get String.eqb (bucket_values t) k =
               last_value (valid_entries buckets_raw) k).
  { rewrite Hv, dict_get_update. simpl.
    now destruct (last_value (valid_entries buckets_raw) k). }
  assert (Hhas : has (bucket_values t) k =
                 match last_value (valid_entries buckets_raw) k with
                 | Some _ => true
                 | None => false
                 end).
  { unfold has, dict_mem. now rewrite Hk. }
  rewrite Hg, Hd, Hk. clear Hg Hd.
  unfold derives_ebt, derives_ebit.
  destruct (last_value (valid_entries buckets_raw) k) as [v|].
  - destruct (String.eqb "EBT" k) eqn:E1.
    { apply String.eqb_eq in E1. subst k. rewrite Hhas.
      destruct (has (bucket_values t) "Operating Income"),
        (has (bucket_values t) "EBIT");
        cbn [andb orb negb app map fst In];
        (split; [reflexivity|]); intuition discriminate. }
    destruct (String.eqb "EBIT" k) eqn:E2.
    { apply String.eqb_eq in E2. subst k. rewrite Hhas.
      destruct (has (bucket_values t) "Operating Income"),
        (has (bucket_values t) "EBT");
        cbn [andb orb negb app map fst In];
        (split; [reflexivity|]); intuition discriminate. }
    rewrite !andb_false_r. split; [reflexivity|].
    apply String.eqb_neq in E1, E2.
    destruct (has (bucket_values t) "Operating Income"),
      (has (bucket_values t) "EBIT"), (has (bucket_values t) "EBT");
      cbn [andb orb negb app map fst In]; intuition congruence.
  - rewrite dict_get_app.
    destruct (has (bucket_values t) "Operating Income"),
      (has (bucket_values t) "EBIT"), (has (bucket_values t) "EBT");
      cbn [andb orb negb dict_get];
      destruct (String.eqb "EBT" k) eqn:E1,
        (String.eqb "EBIT" k) eqn:E2; try reflexivity;
      apply String.eqb_eq in E1, E2; subst k; discriminate.
Qed.

Lemma values_from_file_witness :
  exists g : graph,
    plot_sankey Samples.untidy_file = Ok g /\
    dict_get String.eqb (g_values g) "Revenue" = Some 1200 /\
    ~ In "Revenue" (map fst (g_derived g)).
Proof.
  eexists. split; [vm_compute; reflexivity|].
  match goal with
  | |- dict_get _ (g_values ?g) _ = _ /\ _ =>
      exact (values_from_file Samples.untidy_file g "Revenue" eq_refl)
  end.
Defined.

(** *** Horizontal positions *)

Lemma place_level_writes (idx : list (string * nat)) (x : Q)
    (names : list string) (xs : list Q) :
  place_level idx x names xs =
  apply_writes
    (flat_map (fun name => match dict_get String.eqb idx name with
                           | Some i => [(i, x)]
                           | None => []
                           end) names) xs.
Proof.
  revert xs. induction names as [|name rest IH]; intro xs; [reflexivity|].
  simpl. rewrite IH, apply_writes_app.
  now destruct (dict_get String.eqb idx name).
Qed.

Lemma assign_x_writes (idx : list (string * nat)) (xs : list Q) :
  assign_x idx xs = apply_writes (x_writes idx) xs.
Proof.
  unfold assign_x, x_writes, level_pairs. revert xs.
  induction levels as [|[x names] rest IH]; intro xs; [reflexivity|].
  simpl. rewrite IH, flat_map_app, apply_writes_app. f_equal.
  rewrite place_level_writes. f_equal.
  induction names as [|name names IHn]; [reflexivity|].
  simpl. now rewrite IHn.
Qed.

Lemma level_names_nodup : NoDup (map fst level_pairs).
Proof.
  repeat (constructor;
          [simpl; intuition discriminate|]).
  constructor.
Qed.

Lemma x_writes_targets (names : list string) (idx : list (string * nat))
    (ps : list (string * Q)) :
  indexes names idx -> NoDup (map fst ps) ->
  NoDup (map fst
           (flat_map (fun p => match dict_get String.eqb idx (fst p) with
                               | Some i => [(i, snd p)]
                               | None => []
                               end) ps)).
Proof.
  intros Hidx. induction ps as [|[name x] ps IH]; intro Hnd; simpl.
  - constructor.
  - inversion Hnd as [|? ? Hout Hnd']; subst.
    destruct (dict_get String.eqb idx name) as [i|] eqn:E; [|now apply IH].
    simpl. constructor; [|now apply IH].
    intro Hin. apply in_map_iff in Hin. destruct Hin as ([i' x'] & Hi & Hin).
    simpl in Hi. subst i'.
    apply in_flat_map in Hin. destruct Hin as ([name' y] & Hp & Hin).
    simpl in Hin.
    destruct (dict_get String.eqb idx name') as [j|] eqn:E'; [|contradiction].
    destruct Hin as [Hin|[]]. injection Hin as -> _.
    apply dict_get_in in E, E'.
    assert (name = name') by (eapply indexes_injective; eassumption).
    subst name'. apply Hout. now apply (in_map fst) in Hp.
Qed.

Lemma in_x_writes (idx : list (string * nat)) (k : nat) (x : Q) :
  In (k, x) (x_writes idx) <->
  exists name : string,
    dict_get String.eqb idx name = Some k /\
    dict_get String.eqb level_pairs name = Some x.
Proof.
  unfold x_writes. rewrite in_flat_map. split.
  - intros ([name y] & Hp & Hin). simpl in Hin.
    destruct (dict_get String.eqb idx name) as [i|] eqn:E; [|contradiction].
    destruct Hin as [Hin|[]]. injection Hin as -> ->.
    exists name. split; [assumption|].
    apply in_dict_get; [apply level_names_nodup | assumption].
  - intros (name & Hk & Hx). exists (name, x).
    split; [now apply dict_get_in|]. simpl. rewrite Hk. now left.
Qed.

Lemma nth_error_repeat_lt {A : Type} (a : A) (n k : nat) :
  (k < n)%nat -> nth_error (repeat a n) k = Some a.
Proof.
  revert k. induction n as [|n IH]; intros [|k] H; simpl; try lia.
  - reflexivity.
  - apply IH. lia.
Qed.

(** The horizontal position of every node of a successful run. *)
Lemma node_x_at (buckets_raw : list jitem) (g : graph) (k : nat)
    (name : string) :
  plot_sankey buckets_raw = Ok g ->
  nth_error (nodes g) k = Some name ->
  nth_error (node_x g) k =
  Some match dict_get String.eqb (node_index g) name with
       | Some i => if Nat.eqb i k then level_x name else 0.0
       | None => 0.0
       end.
Proof.
  intros Hplot Hk.
  destruct (plot_sankey_inv _ _ Hplot)
    as (t & _ & _ & _ & _ & Hi & _ & Hx & _ & _).
  assert (Hidx : indexes (nodes g) (node_index g))
    by (rewrite Hi; apply node_index_indexes).
  assert (Hlt : (k < List.length (nodes g))%nat)
    by (apply nth_error_Some; congruence).
  rewrite Hx, assign_x_writes.
  assert (Hnd : NoDup (map fst (x_writes (node_index g))))
    by (apply (x_writes_targets (nodes g)); [assumption|];
        apply level_names_nodup).
  assert (Hother :
    (forall x, ~ In (k, x) (x_writes (node_index g))) ->
    nth_error (apply_writes (x_writes (node_index g))
                 (repeat 0.0 (List.length (nodes g)))) k = Some 0.0).
  { intro Hno. rewrite apply_writes_other.
    - now apply nth_error_repeat_lt.
    - intro Hin. apply in_map_iff in Hin.
      destruct Hin as ([k' x] & Hk' & Hin). simpl in Hk'. subst k'.
      now apply (Hno x). }
  assert (Hname : forall name' : string,
            dict_get String.eqb (node_index g) name' = Some k ->
            name' = name).
  { intros name' H. apply dict_get_in in H.
    destruct Hidx as (_ & Hat & _). apply Hat in H. congruence. }
  destruct (dict_get String.eqb (node_index g) name) as [i|] eqn:E.
  - destruct (Nat.eqb i k) eqn:Eik.
    + apply Nat.eqb_eq in Eik. subst i. unfold level_x.
      destruct (dict_get String.eqb level_pairs name) as [x|] eqn:El.
      * apply apply_writes_get; [assumption| |now rewrite repeat_length].
        apply in_x_writes. now exists name.
      * apply Hother. intros x Hin. apply in_x_writes in Hin.
        destruct Hin as (name' & Hk' & Hx').
        apply Hname in Hk'. subst name'. congruence.
    + apply Nat.eqb_neq in Eik. apply Hother. intros x Hin.
      apply in_x_writes in Hin. destruct Hin as (name' & Hk' & _).
      pose proof (Hname _ Hk'). subst name'. congruence.
  - apply Hother. intros x Hin.
    apply in_x_writes in Hin. destruct Hin as (name' & Hk' & _).
    pose proof (Hname _ Hk'). subst name'. congruence.
Qed.

Lemma node_y_untouched (buckets_raw : list jitem) (g : graph) (k : nat)
    (name : string) :
  plot_sankey buckets_raw = Ok g ->
  nth_error (nodes g) k = Some name ->
  dict_get String.eqb (node_index g) name <> Some k ->
  nth_error (node_y g) k = Some 0.5.
Proof.
  intros Hplot Hk Hno.
  destruct (layout_inv _ _ Hplot) as (Hidx & Hlen & keys & Hgr & Hgd & Hy).
  assert (Hlt : (k < List.length (nodes g))%nat)
    by (apply nth_error_Some; congruence).
  rewrite Hy, apply_writes_other; [now apply nth_error_repeat_lt|].
  rewrite (all_writes_targets _ _ (List.length (nodes g))).
  - intro Hin. apply in_map_iff in Hin. destruct Hin as (name' & Hk' & Hin).
    apply in_flat_map in Hin. destruct Hin as (gr & Hgin & Hin).
    rewrite Hgr in Hgin. apply in_map_iff in Hgin.
    destruct Hgin as (x & <- & _).
    apply in_stage_group in Hin.
    destruct Hin as (k' & Hin & _).
    rewrite (in_dict_get _ _ _ (proj1 Hidx) Hin) in Hk'. subst k'.
    destruct Hidx as (Hnd & Hat & _). pose proof (Hat _ _ Hin) as Hn.
    assert (name' = name) by congruence. subst name'.
    apply Hno. now apply in_dict_get.
  - intros gr Hgin. rewrite Hgr in Hgin.
    apply in_map_iff in Hgin. destruct Hgin as (x0 & <- & _).
    now apply stage_names_resolved.
Qed.

Lemma node_x_indexed (buckets_raw : list jitem) (g : graph) (k : nat)
    (name : string) :
  plot_sankey buckets_raw = Ok g ->
  nth_error (nodes g) k = Some name ->
  dict_get String.eqb (node_index g) name = Some k ->
  nth_error (node_x g) k = Some (level_x name).
Proof.
  intros Hplot Hk E.
  rewrite (node_x_at _ _ _ _ Hplot Hk), E, Nat.eqb_refl. reflexivity.
Qed.

(** X4: a node stands at the horizontal position that the table of levels
    gives to its name, 0.0 when the name is not in the table; when a name
    comes more than once among the nodes, this holds for the place the node
    index keeps for it, and the other places stay at the initial position
    (0.0, 0.5). *)
Theorem node_x_by_level (buckets_raw : list jitem) (g : graph) (k : nat)
    (name : string) :
  plot_sankey buckets_raw = Ok g ->
  nth_error (nodes g) k = Some name ->
  (dict_get String.eqb (node_index g) name = Some k ->
   nth_error (node_x g) k = Some (level_x name)) /\
  (dict_get String.eqb (node_index g) name <> Some k ->
   nth_error (node_x g) k = Some 0.0 /\
   nth_error (node_y g) k = Some 0.5) /\
  (NoDup (nodes g) -> dict_get String.eqb (node_index g) name = Some k).
Proof.
  intros Hplot Hk.
  pose proof (node_x_at _ _ _ _ Hplot Hk) as Hx.
  split; [|split].
  - now apply (node_x_indexed buckets_raw).
  - intro Hno. split; [|now apply (node_y_untouched buckets_raw _ _ name)].
    rewrite Hx.
    destruct (dict_get String.eqb (node_index g) name) as [i|];
      [|reflexivity].
    destruct (Nat.eqb i k) eqn:E; [|reflexivity].
    apply Nat.eqb_eq in E. subst i. now exfalso.
  - intro Hnd.
    destruct (layout_inv _ _ Hplot) as (Hidx & _).
    apply in_dict_get; [apply Hidx|].
    now apply (indexes_nodup (nodes g)).
Qed.

Lemma node_x_by_level_witness :
  exists g : graph,
    plot_sankey Samples.untidy_file = Ok g /\
    nth_error (node_x g) 2 = Some (level_x "Revenue") /\
    nth_error (node_x g) 0 = Some 0.0 /\
    nth_error (node_y g) 0 = Some 0.5.
Proof.
  eexists. split; [vm_compute; reflexivity|].
  match goal with
  | |- nth_error (node_x ?g) _ = _ /\ _ =>
      destruct (node_x_by_level Samples.untidy_file g 2 "Revenue")
        as (Ha & _);
      [vm_compute; reflexivity | reflexivity |];
      destruct (node_x_by_level Samples.untidy_file g 0 "Revenue")
        as (_ & Hb & _);
      [vm_compute; reflexivity | reflexivity |]
  end.
  split; [apply Ha; reflexivity | apply Hb; discriminate].
Defined.

(** *** Flows against the layout *)

Lemma rules_left_to_right :
  forallb (fun rule =>
             let s := fst (snd rule) in
             let t := snd (snd rule) in
             if existsb (fun e => String.eqb (fst e) s && String.eqb (snd e) t)
                        same_column
             then Qeq_bool (level_x s) (level_x t)
             else Qltb (level_x s) (level_x t))
          flow_rules = true.
Proof. vm_compute. reflexivity. Qed.

Lemma flow_ends (idx : list (string * nat)) (s t : string) :
  In (s, t) (build_flows idx) ->
  exists rule : (list (string * nat) -> bool) * (string * string),
    In rule flow_rules /\ snd rule = (s, t) /\ fst rule idx = true /\
    has idx s = true /\ has idx t = true.
Proof.
  intro Hin. apply in_build_flows in Hin.
  destruct Hin as (rule & Hr & E & Hf).
  exists rule. unfold rule_fires in Hf. rewrite E in Hf. simpl in Hf.
  apply andb_true_iff in Hf. destruct Hf as (Hf & Ht).
  apply andb_true_iff in Hf. destruct Hf as (Hf & Hs). auto.
Qed.

(** X5: every flow connection joins two nodes and never points to the left:
    its source stands at a level before that of its target, or, for the
    flows from Other Income/Expense to EBIT, from the interest items to EBT
    and from Taxes to Net Income, and only for them, at the same level. *)
Theorem flows_left_to_right (buckets_raw : list jitem) (g : graph)
    (s t : string) :
  plot_sankey buckets_raw = Ok g ->
  In (s, t) (flows g) ->
  exists (i j : nat) (xs xt : Q),
    dict_get String.eqb (node_index g) s = Some i /\
    dict_get String.eqb (node_index g) t = Some j /\
    nth_error (nodes g) i = Some s /\ nth_error (nodes g) j = Some t /\
    nth_error (node_x g) i = Some xs /\ nth_error (node_x g) j = Some xt /\
    xs <= xt /\ (xs == xt <-> In (s, t) same_column).
Proof.
  intros Hplot Hin.
  destruct (layout_inv _ _ Hplot) as (Hidx & _).
  rewrite (plot_flows _ _ Hplot) in Hin.
  destruct (flow_ends _ _ _ Hin) as (rule & Hr & E & _ & Hs & Ht).
  apply has_get in Hs, Ht. destruct Hs as (i & Hi). destruct Ht as (j & Hj).
  assert (Hni : nth_error (nodes g) i = Some s)
    by (apply Hidx; now apply dict_get_in).
  assert (Hnj : nth_error (nodes g) j = Some t)
    by (apply Hidx; now apply dict_get_in).
  exists i, j, (level_x s), (level_x t).
  repeat (split; [assumption|]).
  split; [now apply (node_x_indexed buckets_raw)|].
  split; [now apply (node_x_indexed buckets_raw)|].
  pose proof rules_left_to_right as Hall.
  rewrite forallb_forall in Hall. specialize (Hall _ Hr).
  cbv zeta in Hall. rewrite E in Hall. cbn [fst snd] in Hall.
  destruct (existsb _ same_column) eqn:Ecol.
  - apply Qeq_bool_iff in Hall. split; [rewrite Hall; apply Qle_refl|].
    split; [intros _|intros _; exact Hall].
    apply existsb_exists in Ecol. destruct Ecol as ([a b] & Hab & Eab).
    cbn [fst snd] in Eab. apply andb_true_iff in Eab.
    destruct Eab as (Ea & Eb).
    apply String.eqb_eq in Ea, Eb. now subst a b.
  - apply Qltb_lt in Hall. split; [now apply Qlt_le_weak|].
    split.
    + intro Heq. rewrite Heq in Hall. exfalso. now apply (Qlt_irrefl _ Hall).
    + intro Hcol. exfalso.
      assert (Hex : existsb
                (fun e => String.eqb (fst e) s && String.eqb (snd e) t)
                same_column = true).
      { apply existsb_exists. exists (s, t). split; [assumption|].
        cbn [fst snd]. now rewrite !String.eqb_refl. }
      congruence.
Qed.

Lemma flows_left_to_right_witness :
  exists (g : graph) (i j : nat) (xs xt : Q),
    plot_sankey (bucket_file Examples.full_set) = Ok g /\
    dict_get String.eqb (node_index g) "Revenue" = Some i /\
    dict_get String.eqb (node_index g) "Gross Profit" = Some j /\
    nth_error (node_x g) i = Some xs /\ nth_error (node_x g) j = Some xt /\
    xs <= xt /\ (xs == xt <-> In ("Revenue", "Gross Profit") same_column).
Proof.
  eexists.
  match goal with
  | |- exists (i j : nat) (xs xt : Q), plot_sankey ?raw = Ok ?g /\ _ =>
      destruct (flows_left_to_right raw
                  (match plot_sankey raw with
                   | Ok g' => g'
                   | Raise _ => mkGraph [] [] [] [] [] [] [] []
                   end) "Revenue" "Gross Profit")
        as (i & j & xs & xt & Hi & Hj & _ & _ & Hxi & Hxj & Hle & Hcol);
      [vm_compute; reflexivity | vm_compute; tauto |]
  end.
  exists i, j, xs, xt.
  split; [vm_compute; reflexivity|].
  repeat split; try assumption; apply Hcol.
Defined.




(** *** The figure *)

Lemma derive_display (t : tables) (k : string) :
  let bv := bucket_values t in
  let s1 := derive_ebit t [] in
  let s2 := derive_ebt (fst s1) (snd s1) in
  dict_get String.eqb (bucket_display (fst s2)) k =
  if derives_ebt bv && String.eqb "EBT" k
  then Some (display_of (derived_ebt bv))
  else if derives_ebit bv && String.eqb "EBIT" k
       then Some (display_of (derived_ebit bv))
       else dict_get String.eqb (bucket_display t) k.
Proof.
  cbv zeta.
  unfold derive_ebit, derive_ebt, derives_ebt, derived_ebt, ebit_of,
    derives_ebit, derived_ebit.
  destruct (has (bucket_values t) "Operating Income"),
    (has (bucket_values t) "EBIT") eqn:E;
    cbn [andb negb orb fst snd bucket_values bucket_display valid_items];
    rewrite ?E; cbn [andb negb orb dict_set];
    change (has (@nil (string * Q)) "EBIT") with false;
    try match goal with
        | |- context [has [("EBIT", ?v)] "EBIT"] =>
            change (has [("EBIT", v)] "EBIT") with true;
            change (dict_get String.eqb [("EBIT", v)] "EBIT") with (Some v)
        end;
    cbn [andb negb orb];
    destruct (has (bucket_values t) "EBT");
    cbn [andb negb orb fst snd bucket_values bucket_display valid_items];
    rewrite ?dict_get_set;
    destruct (String.eqb "EBT" k) eqn:E1, (String.eqb "EBIT" k) eqn:E2;
    try reflexivity;
    apply String.eqb_eq in E1, E2; subst k; discriminate.
Qed.

Lemma shown_kept (v d : Q) :
  shown v d ->
  negb (Qle_bool d tiny) = Qltb tiny (Qabs v) /\
  (Qltb tiny (Qabs v) = true -> d = Qabs v).
Proof.
  assert (Htt : Qle_bool tiny tiny = true) by reflexivity.
  intros [->| ->].
  - unfold at_least_tiny.
    destruct (Qltb (Qabs v) tiny) eqn:E.
    + rewrite Htt. apply Qltb_lt in E.
      assert (E' : Qltb tiny (Qabs v) = false)
        by (apply Qltb_ge; now apply Qlt_le_weak).
      rewrite E'. split; [reflexivity | discriminate].
    + split; [reflexivity | reflexivity].
  - unfold display_of.
    destruct (Qltb tiny (Qabs v)) eqn:E.
    + split; [exact E | reflexivity].
    + rewrite Htt. split; [reflexivity | discriminate].
Qed.

(** What a successful run of the whole function is made of. *)
Lemma plot_figure_inv (format_1f : Q -> string) (buckets_raw : list jitem)
    (json_path color_scheme : string) (f : figure) :
  plot_sankey_figure format_1f buckets_raw json_path color_scheme = Ok f ->
  exists (t : tables) (colors : list (string * string)),
    load_buckets buckets_raw (mkTables [] [] []) = Ok t /\
    colors_of color_scheme = Ok colors /\
    plot_sankey buckets_raw = Ok (fig_graph f) /\
    let g := fig_graph f in
    let s1 := derive_ebit t [] in
    let s2 := derive_ebt (fst s1) (snd s1) in
    build_links (node_index g) (bucket_display (fst s2)) colors (flows g) =
    Ok (links f) /\
    node_labels f =
    map (node_label format_1f (g_values g) (g_derived g)) (nodes g) /\
    color_nodes (g_values g) colors (nodes g) = Ok (node_color f) /\
    title f = title_of json_path /\
    footnote f = footnote_of (g_derived g).
Proof.
  unfold plot_sankey_figure, plot_sankey. intro H.
  destruct (load_buckets buckets_raw (mkTables [] [] [])) as [t|e];
    cbn [bind] in H; [|discriminate].
  exists t. cbn [bind]. cbv zeta.
  destruct (derive_ebit t []) as [t1 d1]. cbn [fst snd].
  destruct (derive_ebt t1 d1) as [t2 d2]. cbn [fst snd].
  destruct (colors_of color_scheme) as [colors|e];
    cbn [bind] in H; [|discriminate].
  exists colors.
  match type of H with
  | bind ?m _ = _ => destruct m as [ls|e] eqn:El
  end; cbn [bind] in H; [|discriminate].
  match type of H with
  | bind ?m _ = _ => destruct m as [x_groups|e] eqn:Eg
  end; cbn [bind] in H; [|discriminate].
  match type of H with
  | bind ?m _ = _ => destruct m as [ys|e] eqn:Ey
  end; cbn [bind] in H; [|discriminate].
  match type of H with
  | bind ?m _ = _ => destruct m as [cs|e] eqn:Ec
  end; cbn [bind] in H; [|discriminate].
  injection H as <-.
  cbn [fig_graph links node_labels node_color title footnote
       nodes g_derived g_values node_index flows].
  repeat split; try reflexivity; try assumption.
  cbn [bind]. rewrite Ey. reflexivity.
Qed.

(** The displayed size of a name against its value. *)
Lemma display_of_value (buckets_raw : list jitem) (t : tables) (g : graph)
    (k : string) :
  load_buckets buckets_raw (mkTables [] [] []) = Ok t ->
  plot_sankey buckets_raw = Ok g ->
  let s1 := derive_ebit t [] in
  let s2 := derive_ebt (fst s1) (snd s1) in
  match dict_get String.eqb (g_values g) k with
  | Some v =>
      exists d : Q,
        dict_get String.eqb (bucket_display (fst s2)) k = Some d /\ shown v d
  | None => dict_get String.eqb (bucket_display (fst s2)) k = None
  end.
Proof.
  intros Hload Hplot. cbv zeta.
  rewrite (plot_values_get _ _ _ k Hload Hplot), derive_display.
  destruct (loaded_tables _ _ Hload) as (_ & Hv & Hd).
  assert (Hk : dict_get String.eqb (bucket_display t) k =
               option_map (fun v => at_least_tiny (Qabs v))
                 (dict_get String.eqb (bucket_values t) k)).
  { rewrite Hv, Hd, !dict_get_update.
    rewrite (last_value_map (fun v => at_least_tiny (Qabs v))). simpl.
    now destruct (last_value (valid_entries buckets_raw) k). }
  destruct (derives_ebt (bucket_values t) && String.eqb "EBT" k).
  { eexists. split; [reflexivity | now right]. }
  destruct (derives_ebit (bucket_values t) && String.eqb "EBIT" k).
  { eexists. split; [reflexivity | now right]. }
  rewrite Hk.
  destruct (dict_get String.eqb (bucket_values t) k) as [v|]; simpl.
  - eexists. split; [reflexivity | now left].
  - reflexivity.
Qed.

Lemma kept_by_value (buckets_raw : list jitem) (t : tables) (g : graph)
    (k : string) :
  load_buckets buckets_raw (mkTables [] [] []) = Ok t ->
  plot_sankey buckets_raw = Ok g ->
  let s1 := derive_ebit t [] in
  let s2 := derive_ebt (fst s1) (snd s1) in
  let d := value_or_0 (bucket_display (fst s2)) k in
  let v := value_or_0 (g_values g) k in
  negb (Qle_bool d tiny) = Qltb tiny (Qabs v) /\
  (Qltb tiny (Qabs v) = true -> d = Qabs v).
Proof.
  intros Hload Hplot. cbv zeta.
  pose proof (display_of_value _ _ _ k Hload Hplot) as H. cbv zeta in H.
  unfold value_or_0.
  destruct (dict_get String.eqb (g_values g) k) as [v|].
  - destruct H as (d & -> & Hs). now apply shown_kept.
  - rewrite H. split; [reflexivity | discriminate].
Qed.

Lemma link_color_key_known (s t : string) : In (link_color_key s t) color_keys.
Proof.
  unfold link_color_key.
  repeat match goal with
         | |- context [if ?c then _ else _] => destruct c
         end; simpl; tauto.
Qed.

Lemma node_color_key_known (values : list (string * Q)) (name : string) :
  In (node_color_key values name) color_keys.
Proof.
  unfold node_color_key. cbv zeta.
  repeat match goal with
         | |- context [if ?c then _ else _] => destruct c
         end; simpl; tauto.
Qed.

Lemma colors_of_known (color_scheme : string) :
  exists colors : list (string * string),
    colors_of color_scheme = Ok colors /\
    (forall key : string, In key color_keys ->
       exists c : string, dict_get String.eqb colors key = Some c) /\
    (~ In color_scheme (map fst color_schemes) ->
     colors_of "standard" = Ok colors).
Proof.
  assert (Hkeys : forall colors : list (string * string),
            In colors (map snd color_schemes) ->
            forall key : string, In key color_keys ->
              exists c : string, dict_get String.eqb colors key = Some c).
  { intros colors Hc key Hk. simpl in Hc, Hk.
    repeat (destruct Hc as [<-|Hc];
            [repeat (destruct Hk as [<-|Hk]; [eexists; reflexivity|]);
             contradiction|]).
    contradiction. }
  unfold colors_of, getitem.
  destruct (dict_get String.eqb color_schemes "standard") as [std|] eqn:Es;
    [|discriminate Es].
  cbn [bind].
  destruct (dict_get String.eqb color_schemes color_scheme) as [colors|]
    eqn:Ec.
  - exists colors. split; [reflexivity|]. split.
    + apply Hkeys. apply dict_get_in in Ec.
      now apply (in_map snd) in Ec.
    + intro Hno. exfalso. apply Hno. apply dict_get_in in Ec.
      now apply (in_map fst) in Ec.
  - exists std. split; [reflexivity|]. split.
    + apply Hkeys. apply dict_get_in in Es.
      now apply (in_map snd) in Es.
    + intros _. reflexivity.
Qed.

Lemma build_links_rows (idx : list (string * nat))
    (display values : list (string * Q)) (colors : list (string * string))
    (fl : list (string * string)) :
  (forall s t : string, In (s, t) fl ->
     has idx s = true /\ has idx t = true) ->
  (forall key : string, In key color_keys ->
     exists c : string, dict_get String.eqb colors key = Some c) ->
  (forall k : string,
     negb (Qle_bool (value_or_0 display k) tiny) =
     Qltb tiny (Qabs (value_or_0 values k)) /\
     (Qltb tiny (Qabs (value_or_0 values k)) = true ->
      value_or_0 display k = Qabs (value_or_0 values k))) ->
  exists ls : list link,
    build_links idx display colors fl = Ok ls /\
    Forall2 (link_of idx values colors) (filter (thick values) fl) ls.
Proof.
  intros Hends Hcol Hkept.
  induction fl as [|[s t] fl IH].
  - exists []. split; [reflexivity | constructor].
  - destruct IH as (ls & Hls & Hrows).
    { intros s' t' Hin. apply Hends. now right. }
    simpl. unfold thick at 1. cbn [snd].
    destruct (Hkept t) as (Hk1 & Hk2).
    destruct (Qle_bool (value_or_0 display t) tiny) eqn:E;
      simpl in Hk1; rewrite <- Hk1.
    + exists ls. split; assumption.
    + destruct (Hends s t (or_introl eq_refl)) as (Hs & Ht).
      apply has_get in Hs, Ht.
      destruct Hs as (i & Hi). destruct Ht as (j & Hj).
      destruct (Hcol _ (link_color_key_known s t)) as (c & Hc).
      unfold getitem. rewrite Hi, Hj, Hc, Hls. cbn [bind].
      eexists. split; [reflexivity|].
      constructor; [|assumption].
      unfold link_of. cbn [fst snd link_source link_target link_value
                           link_color].
      repeat split; try assumption. apply Hk2. now rewrite <- Hk1.
Qed.

Lemma color_nodes_rows (values : list (string * Q))
    (colors : list (string * string)) (names : list string) :
  (forall key : string, In key color_keys ->
     exists c : string, dict_get String.eqb colors key = Some c) ->
  exists cs : list string,
    color_nodes values colors names = Ok cs /\
    Forall2 (fun name c =>
               dict_get String.eqb colors (node_color_key values name) =
               Some c) names cs.
Proof.
  intro Hcol. induction names as [|name names IH].
  - exists []. split; [reflexivity | constructor].
  - destruct IH as (cs & Hcs & Hrows).
    destruct (Hcol _ (node_color_key_known values name)) as (c & Hc).
    simpl. unfold getitem. rewrite Hc, Hcs. cbn [bind].
    eexists. split; [reflexivity|]. now constructor.
Qed.


Lemma flows_have_ends (buckets_raw : list jitem) (g : graph) (s t : string) :
  plot_sankey buckets_raw = Ok g ->
  In (s, t) (flows g) ->
  has (node_index g) s = true /\ has (node_index g) t = true.
Proof.
  intros Hplot Hin. rewrite (plot_flows _ _ Hplot) in Hin.
  destruct (flow_ends _ _ _ Hin) as (rule & _ & _ & _ & Hs & Ht). auto.
Qed.

(** The link rows of a graph, for a scheme with all its keys. *)
Lemma links_of_graph (buckets_raw : list jitem) (t : tables) (g : graph)
    (colors : list (string * string)) :
  load_buckets buckets_raw (mkTables [] [] []) = Ok t ->
  plot_sankey buckets_raw = Ok g ->
  (forall key : string, In key color_keys ->
     exists c : string, dict_get String.eqb colors key = Some c) ->
  exists ls : list link,
    build_links (node_index g)
      (bucket_display (fst (derive_ebt (fst (derive_ebit t []))
                                       (snd (derive_ebit t [])))))
      colors (flows g) = Ok ls /\
    Forall2 (link_of (node_index g) (g_values g) colors)
            (filter (thick (g_values g)) (flows g)) ls.
Proof.
  intros Hload Hplot Hcol.
  apply build_links_rows.
  - intros s t'. now apply (flows_have_ends buckets_raw).
  - assumption.
  - intro k. apply (kept_by_value _ _ _ k Hload Hplot).
Qed.



(** X8: the links of the figure are, in the order of the flows, the flows
    whose target has a value of magnitude above 1e-9; each link joins the
    places of its two names in the node list and carries the magnitude of
    the value of its target, whatever its source.  A flow into a node whose
    value is zero is left out. *)
Theorem links_follow_flows (format_1f : Q -> string)
    (buckets_raw : list jitem) (json_path color_scheme : string)
    (f : figure) :
  plot_sankey_figure format_1f buckets_raw json_path color_scheme = Ok f ->
  let g := fig_graph f in
  exists colors : list (string * string),
    colors_of color_scheme = Ok colors /\
    Forall2 (link_of (node_index g) (g_values g) colors)
            (filter (thick (g_values g)) (flows g)) (links f).
Proof.
  intros Hfig g.
  destruct (plot_figure_inv _ _ _ _ _ Hfig)
    as (t & colors & Hload & Hcol & Hplot & Hls & _).
  cbv zeta in Hls. fold g in Hplot, Hls.
  exists colors. split; [assumption|].
  destruct (colors_of_known color_scheme) as (colors' & Hcol' & Hkeys & _).
  rewrite Hcol in Hcol'. injection Hcol' as <-.
  destruct (links_of_graph _ _ _ colors Hload Hplot Hkeys)
    as (ls & Hls' & Hrows).
  rewrite Hls in Hls'. injection Hls' as <-. exact Hrows.
Qed.

Lemma links_follow_flows_witness :
  exists (f : figure) (colors : list (string * string)),
    plot_sankey_figure Samples.format_blank
      (bucket_file Samples.no_gross_profit)
      "results/acme_financials.json" "professional" = Ok f /\
    colors_of "professional" = Ok colors /\
    Forall2 (link_of (node_index (fig_graph f)) (g_values (fig_graph f))
               colors)
            (filter (thick (g_values (fig_graph f))) (flows (fig_graph f)))
            (links f) /\
    In ("Revenue", "Gross Profit") (flows (fig_graph f)) /\
    ~ In ("Revenue", "Gross Profit")
         (filter (thick (g_values (fig_graph f))) (flows (fig_graph f))).
Proof.
  eexists.
  match goal with
  | |- exists colors, ?run = Ok ?f /\ _ =>
      destruct (links_follow_flows Samples.format_blank
                  (bucket_file Samples.no_gross_profit)
                  "results/acme_financials.json" "professional"
                  (match run with
                   | Ok f' => f'
                   | Raise _ =>
                       mkFigure (mkGraph [] [] [] [] [] [] [] []) [] [] []
                                "" ""
                   end))
        as (colors & Hcol & Hrows);
      [vm_compute; reflexivity|]
  end.
  exists colors.
  split; [vm_compute; reflexivity|].
  split; [exact Hcol|]. split; [exact Hrows|].
  split; [vm_compute; tauto|].
  vm_compute. intuition discriminate.
Defined.

(** X9: the arrays of the figure fit together: labels, colours and the two
    position arrays have one entry per node, both ends of every link are
    places of the node list, and every link has a value above 1e-9. *)
Theorem figure_arrays_fit (format_1f : Q -> string)
    (buckets_raw : list jitem) (json_path color_scheme : string)
    (f : figure) :
  plot_sankey_figure format_1f buckets_raw json_path color_scheme = Ok f ->
  let g := fig_graph f in
  let n := List.length (nodes g) in
  plot_sankey buckets_raw = Ok g /\
  List.length (node_labels f) = n /\ List.length (node_color f) = n /\
  List.length (node_x g) = n /\ List.length (node_y g) = n /\
  forall l : link, In l (links f) ->
    (link_source l < n)%nat /\ (link_target l < n)%nat /\
    tiny < link_value l.
Proof.
  intros Hfig g n.
  destruct (plot_figure_inv _ _ _ _ _ Hfig)
    as (t & colors & Hload & Hcol & Hplot & Hls & Hlab & Hcs & _).
  cbv zeta in Hls. fold g in Hplot, Hls, Hlab, Hcs.
  destruct (layout_inv _ _ Hplot) as (Hidx & Hlen & keys & _ & _ & Hy).
  destruct (colors_of_known color_scheme) as (colors' & Hcol' & Hkeys & _).
  rewrite Hcol in Hcol'. injection Hcol' as <-.
  split; [assumption|].
  split; [rewrite Hlab; apply length_map|].
  split.
  { destruct (color_nodes_rows (g_values g) colors (nodes g) Hkeys)
      as (cs & Hcs' & Hrows).
    rewrite Hcs in Hcs'. injection Hcs' as <-.
    symmetry. now apply Forall2_length in Hrows. }
  split; [assumption|].
  split; [rewrite Hy, apply_writes_length; apply repeat_length|].
  destruct (links_of_graph _ _ _ colors Hload Hplot Hkeys)
    as (ls & Hls' & Hrows).
  rewrite Hls in Hls'. injection Hls' as <-.
  intros l Hin.
  assert (Hex : exists e : string * string,
            In e (filter (thick (g_values g)) (flows g)) /\
            link_of (node_index g) (g_values g) colors e l).
  { clear Hls. induction Hrows as [|e l' es ls He Hrows IH].
    - contradiction.
    - destruct Hin as [->|Hin].
      + exists e. split; [now left | assumption].
      + destruct (IH Hin) as (e' & He' & Hl). exists e'.
        split; [now right | assumption]. }
  destruct Hex as (e & He & Hs & Ht & Hv & _).
  apply filter_In in He. destruct He as (_ & Hthick).
  destruct Hidx as (_ & Hat & _).
  split; [|split].
  - apply nth_error_Some. apply dict_get_in in Hs. apply Hat in Hs.
    unfold n. congruence.
  - apply nth_error_Some. apply dict_get_in in Ht. apply Hat in Ht.
    unfold n. congruence.
  - rewrite Hv. now apply Qltb_lt.
Qed.

Lemma figure_arrays_fit_witness :
  exists f : figure,
    plot_sankey_figure Samples.format_blank Samples.untidy_file
      "results/acme_financials.json" "standard" = Ok f /\
    List.length (node_labels f) = List.length (nodes (fig_graph f)) /\
    List.length (node_color f) = List.length (nodes (fig_graph f)) /\
    List.length (node_x (fig_graph f)) = List.length (nodes (fig_graph f)) /\
    List.length (node_y (fig_graph f)) = List.length (nodes (fig_graph f)).
Proof.
  eexists. split; [vm_compute; reflexivity|].
  match goal with
  | |- List.length (node_labels ?f) = _ /\ _ =>
      destruct (figure_arrays_fit Samples.format_blank Samples.untidy_file
                  "results/acme_financials.json" "standard" f)
        as (_ & Ha & Hb & Hc & Hd & _)
  end.
  - vm_compute. reflexivity.
  - auto.
Defined.

(** *** Labels, footnote and title *)

Lemma prefix_app (a b c : string) :
  String.prefix (a ++ b) (a ++ c) = String.prefix b c.
Proof.
  induction a as [|x a IH]; simpl; [reflexivity|].
  destruct (ascii_dec x x) as [_|Hne]; [assumption | now elim Hne].
Qed.

Lemma prefix_self (a r : string) : String.prefix a (a ++ r) = true.
Proof.
  induction a as [|x a IH]; simpl; [now destruct r|].
  destruct (ascii_dec x x) as [_|Hne]; [assumption | now elim Hne].
Qed.

Lemma label_starred (format_1f : Q -> string)
    (values derived : list (string * Q)) (name : string) :
  String.prefix (name ++ "*<br>$") (node_label format_1f values derived name)
  = has derived name.
Proof.
  unfold node_label. cbv zeta.
  destruct (has derived name); rewrite prefix_app.
  - apply prefix_self.
  - reflexivity.
Qed.

(** X10: the footnote on calculated values is shown exactly when EBIT or
    EBT was derived, that is when the file gives Operating Income or EBIT
    but not both EBIT and EBT; the labels that carry the asterisk are
    exactly those of the derived nodes. *)
Theorem footnote_marks_derived (format_1f : Q -> string)
    (buckets_raw : list jitem) (json_path color_scheme : string)
    (f : figure) :
  plot_sankey_figure format_1f buckets_raw json_path color_scheme = Ok f ->
  let g := fig_graph f in
  let names := map fst (valid_entries buckets_raw) in
  (footnote f <> "" <->
   (In "Operating Income" names \/ In "EBIT" names) /\
   ~ (In "EBIT" names /\ In "EBT" names)) /\
  (footnote f <> "" <->
   exists name : string, In name (nodes g) /\ has (g_derived g) name = true) /\
  (forall (k : nat) (name : string),
     nth_error (nodes g) k = Some name ->
     exists label : string,
       nth_error (node_labels f) k = Some label /\
       String.prefix (name ++ "*<br>$") label = has (g_derived g) name).
Proof.
  intros Hfig g names.
  destruct (plot_figure_inv _ _ _ _ _ Hfig)
    as (t & colors & Hload & _ & Hplot & _ & Hlab & _ & _ & Hfoot).
  fold g in Hplot, Hlab, Hfoot.
  pose proof (plot_nodes _ _ _ Hload Hplot) as Hn.
  pose proof (plot_derived _ _ _ Hload Hplot) as Hd.
  pose proof (loaded_has _ _ "Operating Income" Hload) as Hoi.
  pose proof (loaded_has _ _ "EBIT" Hload) as Hebit.
  pose proof (loaded_has _ _ "EBT" Hload) as Hebt.
  fold names in Hoi, Hebit, Hebt.
  split; [|split].
  - rewrite Hfoot, Hd. unfold derives_ebt, derives_ebit.
    destruct (has (bucket_values t) "Operating Income"),
      (has (bucket_values t) "EBIT"), (has (bucket_values t) "EBT");
      cbn [andb orb negb app footnote_of];
      split; intros; try discriminate; try tauto;
      try (exfalso; intuition congruence);
      intuition discriminate.
  - assert (Hnd : nodes g = valid_items t ++ map fst (g_derived g)).
    { rewrite Hn, Hd.
      now destruct (derives_ebit (bucket_values t)),
        (derives_ebt (bucket_values t)). }
    rewrite Hfoot, Hnd.
    destruct (g_derived g) as [|[k v] d].
    + split; [intro H; now elim H|].
      intros (name & _ & Hh). discriminate Hh.
    + split; [|discriminate]. intros _. exists k. split.
      * apply in_or_app. right. simpl. now left.
      * unfold has, dict_mem. simpl. now rewrite String.eqb_refl.
  - intros k name Hk. rewrite Hlab.
    exists (node_label format_1f (g_values g) (g_derived g) name).
    split; [now apply map_nth_error | apply label_starred].
Qed.

Lemma footnote_marks_derived_witness :
  exists f : figure,
    plot_sankey_figure Samples.format_blank Samples.untidy_file
      "results/acme_financials.json" "standard" = Ok f /\
    (footnote f <> "" <->
     (In "Operating Income" ["Revenue"; "Operating Income"; "Revenue"]
      \/ In "EBIT" ["Revenue"; "Operating Income"; "Revenue"]) /\
     ~ (In "EBIT" ["Revenue"; "Operating Income"; "Revenue"]
        /\ In "EBT" ["Revenue"; "Operating Income"; "Revenue"])) /\
    exists label : string,
      nth_error (node_labels f) 3 = Some label /\
      String.prefix ("EBIT" ++ "*<br>$") label = true.
Proof.
  eexists. split; [vm_compute; reflexivity|].
  match goal with
  | |- (footnote ?f <> _ <-> _) /\ _ =>
      destruct (footnote_marks_derived Samples.format_blank
                  Samples.untidy_file
                  "results/acme_financials.json" "standard" f)
        as (Ha & _ & Hc)
  end.
  - vm_compute. reflexivity.
  - split; [exact Ha|].
    destruct (Hc 3%nat "EBIT" eq_refl) as (label & Hl & Hs).
    exists label. split; [exact Hl | exact Hs].
Defined.









End SankeyFigureFacts.

(** ** Facts about the text of a reply *)

Module ReplyTextFacts.
Import ReplyText.

Lemma free_of_cons (c d : ascii) (s : string) :
  free_of c (String d s) <-> d <> c /\ free_of c s.
Proof.
  unfold free_of. simpl. tauto.
Qed.

Lemma free_of_append (c : ascii) (a b : string) :
  free_of c (a ++ b) <-> free_of c a /\ free_of c b.
Proof.
  induction a as [|d a IH]; simpl.
  - unfold free_of at 2. simpl. tauto.
  - rewrite !free_of_cons, IH. tauto.
Qed.

Lemma append_assoc (a b c : string) :
  ((a ++ b) ++ c = a ++ (b ++ c))%string.
Proof.
  induction a as [|d a IH]; simpl; [reflexivity | now rewrite IH].
Qed.

Lemma length_append (a b : string) :
  String.length (a ++ b) = (String.length a + String.length b)%nat.
Proof.
  induction a as [|d a IH]; simpl; [reflexivity | now rewrite IH].
Qed.

(** *** Backticks *)

Lemma remove_backticks_free (s : string) :
  free_of backtick (remove_backticks s).
Proof.
  induction s as [|c s IH]; simpl.
  - unfold free_of. simpl. tauto.
  - destruct (Ascii.eqb c backtick) eqn:E; [assumption|].
    apply free_of_cons. split; [|assumption].
    now apply Ascii.eqb_neq.
Qed.

Lemma remove_backticks_plain (s : string) :
  free_of backtick s -> remove_backticks s = s.
Proof.
  induction s as [|c s IH]; intro Hfree; simpl; [reflexivity|].
  apply free_of_cons in Hfree. destruct Hfree as (Hc & Hs).
  apply Ascii.eqb_neq in Hc. rewrite Hc. now rewrite IH.
Qed.

Lemma remove_backticks_append (a b : string) :
  remove_backticks (a ++ b) =
  (remove_backticks a ++ remove_backticks b)%string.
Proof.
  induction a as [|c a IH]; simpl; [reflexivity|].
  destruct (Ascii.eqb c backtick); simpl; now rewrite IH.
Qed.

Lemma remove_backticks_stars (s : string) (seen : bool) :
  stars_apart (remove_backticks s) seen = stars_apart s seen.
Proof.
  revert seen. induction s as [|c s IH]; intro seen; simpl; [reflexivity|].
  destruct (Ascii.eqb c backtick) eqn:E.
  - apply Ascii.eqb_eq in E. subst c. simpl. apply IH.
  - simpl. destruct (Ascii.eqb c star); [|destruct (Ascii.eqb c newline)];
      try (destruct seen); try reflexivity; apply IH.
Qed.

Lemma remove_backticks_keeps (c : ascii) (s : string) :
  free_of c s -> free_of c (remove_backticks s).
Proof.
  induction s as [|d s IH]; intro Hfree; simpl; [assumption|].
  apply free_of_cons in Hfree. destruct Hfree as (Hd & Hs).
  destruct (Ascii.eqb d backtick); [now apply IH|].
  apply free_of_cons. split; [assumption | now apply IH].
Qed.

(** *** The lazy groups *)

Lemma lazy_group1_some (s g : string) :
  lazy_group1 s = Some g ->
  exists r : string,
    s = (g ++ String star r)%string /\ free_of star g /\ free_of newline g.
Proof.
  revert g. induction s as [|c s IH]; intros g H; simpl in H; [discriminate|].
  destruct (Ascii.eqb c star) eqn:Es.
  - injection H as <-. apply Ascii.eqb_eq in Es. subst c.
    exists s. repeat split; unfold free_of; simpl; tauto.
  - destruct (Ascii.eqb c newline) eqn:En; [discriminate|].
    destruct (lazy_group1 s) as [g'|]; [|discriminate].
    injection H as <-. destruct (IH g' eq_refl) as (r & -> & Hs & Hn).
    exists r. split; [reflexivity|].
    apply Ascii.eqb_neq in Es, En.
    split; apply free_of_cons; auto.
Qed.

Lemma lazy_group1_found (g r : string) :
  free_of star g -> free_of newline g ->
  lazy_group1 (g ++ String star r) = Some g.
Proof.
  induction g as [|c g IH]; intros Hs Hn; simpl.
  - reflexivity.
  - apply free_of_cons in Hs, Hn.
    destruct Hs as (Hs & Hs'), Hn as (Hn & Hn').
    apply Ascii.eqb_neq in Hs, Hn. rewrite Hs, Hn, IH by assumption.
    reflexivity.
Qed.

Lemma opening2_not_star (c : ascii) (s : string) :
  c <> star -> opening2 (String c s) = None.
Proof.
  intro Hc. apply Ascii.eqb_neq in Hc. simpl.
  destruct s; [reflexivity|]. now rewrite Hc.
Qed.

Lemma lazy_group2_found (g r : string) :
  free_of star g -> free_of newline g ->
  lazy_group2 (g ++ String star (String star r)) = Some g.
Proof.
  induction g as [|c g IH]; intros Hs Hn.
  - reflexivity.
  - apply free_of_cons in Hs, Hn.
    destruct Hs as (Hs & Hs'), Hn as (Hn & Hn').
    change ((String c g ++ String star (String star r))%string)
      with (String c (g ++ String star (String star r))).
    unfold lazy_group2. fold lazy_group2.
    rewrite opening2_not_star by assumption.
    apply Ascii.eqb_neq in Hn. rewrite Hn, IH by assumption. reflexivity.
Qed.

(** *** The two substitutions *)

Lemma sub_italic_skip (a r : string) :
  sub_italic (a ++ r) (String.length a) = sub_italic r 0.
Proof.
  induction a as [|c a IH]; simpl; [now destruct r | assumption].
Qed.

Lemma sub_bold_skip (a r : string) :
  sub_bold (a ++ r) (String.length a) = sub_bold r 0.
Proof.
  induction a as [|c a IH]; [now destruct r|].
  change ((String c a ++ r)%string) with (String c (a ++ r)).
  simpl. assumption.
Qed.

Lemma sub_italic_copy (c : ascii) (s : string) :
  c <> star -> sub_italic (String c s) 0 = String c (sub_italic s 0).
Proof.
  intro Hc. apply Ascii.eqb_neq in Hc. simpl. now rewrite Hc.
Qed.

Lemma sub_italic_open (s : string) :
  sub_italic (String star s) 0 =
  match lazy_group1 s with
  | Some g => (g ++ sub_italic s (String.length g + 1))%string
  | None => String star (sub_italic s 0)
  end.
Proof. reflexivity. Qed.

Lemma sub_italic_match (g r : string) :
  free_of star g -> free_of newline g ->
  sub_italic (String star (g ++ String star r)) 0 =
  (g ++ sub_italic r 0)%string.
Proof.
  intros Hs Hn. rewrite sub_italic_open, lazy_group1_found by assumption.
  f_equal.
  replace (g ++ String star r)%string with ((g ++ String star "") ++ r)%string
    by (now rewrite append_assoc).
  replace (String.length g + 1)%nat with (String.length (g ++ String star ""))
    by (rewrite length_append; reflexivity).
  apply sub_italic_skip.
Qed.

Lemma sub_bold_open (c : ascii) (s : string) :
  sub_bold (String c s) 0 =
  match opening2 (String c s) with
  | Some rest =>
      match lazy_group2 rest with
      | Some g => (g ++ sub_bold s (String.length g + 3))%string
      | None => String c (sub_bold s 0)
      end
  | None => String c (sub_bold s 0)
  end.
Proof. reflexivity. Qed.

Lemma sub_bold_copy (c : ascii) (s : string) :
  opening2 (String c s) = None ->
  sub_bold (String c s) 0 = String c (sub_bold s 0).
Proof.
  intro H. now rewrite sub_bold_open, H.
Qed.

Lemma sub_bold_match (g r : string) :
  free_of star g -> free_of newline g ->
  sub_bold (String star (String star (g ++ String star (String star r)))) 0 =
  (g ++ sub_bold r 0)%string.
Proof.
  intros Hs Hn. rewrite sub_bold_open.
  change (opening2 (String star (String star
                      (g ++ String star (String star r)))))
    with (Some (g ++ String star (String star r))%string).
  cbv beta iota. rewrite lazy_group2_found by assumption.
  f_equal.
  replace (String star (g ++ String star (String star r)))
    with ((String star (g ++ String star (String star "")) ++ r)%string)
    by (simpl; now rewrite append_assoc).
  replace (String.length g + 3)%nat
    with (String.length (String star (g ++ String star (String star ""))))
    by (simpl; rewrite length_append; simpl; lia).
  apply sub_bold_skip.
Qed.

Lemma sub_italic_prefix (pre s : string) :
  free_of star pre -> sub_italic (pre ++ s) 0 = (pre ++ sub_italic s 0)%string.
Proof.
  induction pre as [|c pre IH]; intro Hfree; [reflexivity|].
  apply free_of_cons in Hfree. destruct Hfree as (Hc & Hpre).
  change ((String c pre ++ s)%string) with (String c (pre ++ s)).
  rewrite sub_italic_copy by assumption. now rewrite IH.
Qed.

Lemma sub_bold_prefix (pre s : string) :
  free_of star pre -> sub_bold (pre ++ s) 0 = (pre ++ sub_bold s 0)%string.
Proof.
  induction pre as [|c pre IH]; intro Hfree; [reflexivity|].
  apply free_of_cons in Hfree. destruct Hfree as (Hc & Hpre).
  change ((String c pre ++ s)%string) with (String c (pre ++ s)).
  rewrite sub_bold_copy by (now apply opening2_not_star). now rewrite IH.
Qed.

(** *** Asterisks that stay *)

Lemma stars_apart_prefix (g s : string) (seen : bool) :
  free_of star g -> free_of newline g ->
  stars_apart (g ++ s) seen = stars_apart s seen.
Proof.
  induction g as [|c g IH]; intros Hs Hn; [reflexivity|].
  apply free_of_cons in Hs, Hn.
  destruct Hs as (Hs & Hs'), Hn as (Hn & Hn').
  apply Ascii.eqb_neq in Hs, Hn. simpl. rewrite Hs, Hn. now apply IH.
Qed.

Lemma stars_apart_seen (s : string) :
  stars_apart s true = true -> stars_apart s false = true.
Proof.
  induction s as [|c s IH]; simpl; [reflexivity|].
  destruct (Ascii.eqb c star); [discriminate|].
  destruct (Ascii.eqb c newline); auto.
Qed.

Lemma sub_italic_apart (s : string) (skip : nat) :
  stars_apart (sub_italic s skip) false = true /\
  (lazy_group1 s = None -> stars_apart (sub_italic s 0) true = true).
Proof.
  revert skip. induction s as [|c s IH]; intro skip.
  - split; [now destruct skip | reflexivity].
  - split.
    + destruct skip as [|k]; [|simpl; apply (IH k)].
      destruct (Ascii.eqb c star) eqn:Es.
      * apply Ascii.eqb_eq in Es. subst c. rewrite sub_italic_open.
        destruct (lazy_group1 s) as [g|] eqn:Eg.
        -- destruct (lazy_group1_some _ _ Eg) as (r & _ & Hs & Hn).
           rewrite stars_apart_prefix by assumption.
           apply (IH (String.length g + 1)%nat).
        -- change (stars_apart (sub_italic s 0) true = true).
           now apply (IH 0%nat).
      * pose proof Es as Es'. apply Ascii.eqb_neq in Es'.
        rewrite sub_italic_copy by assumption.
        simpl. rewrite Es.
        destruct (Ascii.eqb c newline); apply (IH 0%nat).
    + intro Hnone. simpl in Hnone.
      destruct (Ascii.eqb c star) eqn:Es; [discriminate|].
      pose proof Es as Es'. apply Ascii.eqb_neq in Es'.
      rewrite sub_italic_copy by assumption.
      simpl. rewrite Es.
      destruct (Ascii.eqb c newline); [apply (IH 0%nat)|].
      destruct (lazy_group1 s); [discriminate|]. now apply (IH 0%nat).
Qed.

Lemma stars_apart_no_group (s : string) :
  stars_apart s true = true -> lazy_group1 s = None.
Proof.
  induction s as [|c s IH]; simpl; [reflexivity|].
  destruct (Ascii.eqb c star); [discriminate|].
  destruct (Ascii.eqb c newline); [reflexivity|].
  intro H. now rewrite IH.
Qed.

Lemma sub_italic_calm (s : string) (seen : bool) :
  stars_apart s seen = true -> sub_italic s 0 = s.
Proof.
  revert seen. induction s as [|c s IH]; intros seen H; [reflexivity|].
  simpl in H. destruct (Ascii.eqb c star) eqn:Es.
  - apply Ascii.eqb_eq in Es. subst c. destruct seen; [discriminate|].
    rewrite sub_italic_open, (stars_apart_no_group _ H).
    now rewrite (IH true).
  - apply Ascii.eqb_neq in Es. rewrite sub_italic_copy by assumption.
    destruct (Ascii.eqb c newline); [now rewrite (IH false)|].
    now rewrite (IH seen).
Qed.

Lemma sub_bold_calm (s : string) (seen : bool) :
  stars_apart s seen = true -> sub_bold s 0 = s.
Proof.
  revert seen. induction s as [|c s IH]; intros seen H; [reflexivity|].
  assert (Hopen : opening2 (String c s) = None).
  { simpl. destruct s as [|d s]; [reflexivity|].
    destruct (Ascii.eqb c star) eqn:Ec, (Ascii.eqb d star) eqn:Ed;
      try reflexivity.
    exfalso. simpl in H. rewrite Ec, Ed in H.
    destruct seen; discriminate. }
  rewrite sub_bold_copy by assumption. f_equal.
  simpl in H. destruct (Ascii.eqb c star).
  - destruct seen; [discriminate|]. now apply (IH true).
  - destruct (Ascii.eqb c newline); [now apply (IH false)|].
    now apply (IH seen).
Qed.

Lemma strip_markdown_apart (text : string) :
  stars_apart (strip_markdown text) false = true.
Proof.
  unfold strip_markdown. rewrite remove_backticks_stars.
  apply sub_italic_apart.
Qed.

Lemma strip_markdown_calm (text : string) :
  stars_apart text false = true ->
  strip_markdown text = remove_backticks text.
Proof.
  intro H. unfold strip_markdown.
  rewrite (sub_bold_calm _ _ H), (sub_italic_calm _ _ H). reflexivity.
Qed.

(** X12: whatever the text, the result of [strip_markdown] holds no
    backtick, and no line of it holds two asterisks. *)
Theorem strip_markdown_leaves (text : string) :
  free_of backtick (strip_markdown text) /\
  stars_apart (strip_markdown text) false = true.
Proof.
  split; [apply remove_backticks_free | apply strip_markdown_apart].
Qed.

(** X13: [strip_markdown] applied to its own result changes nothing. *)
Theorem strip_markdown_idempotent (text : string) :
  strip_markdown (strip_markdown text) = strip_markdown text.
Proof.
  rewrite (strip_markdown_calm (strip_markdown text))
    by apply strip_markdown_apart.
  apply remove_backticks_plain. apply remove_backticks_free.
Qed.

(** X14: a text in which no line holds two asterisks loses its backticks and
    nothing else: an emphasis that is opened on one line and closed on
    another is kept with its asterisks. *)
Theorem strip_markdown_keeps_lone_stars (text : string) :
  stars_apart text false = true ->
  strip_markdown text = remove_backticks text /\
  (free_of backtick text -> strip_markdown text = text).
Proof.
  intro H. split; [now apply strip_markdown_calm|].
  intro Hfree. rewrite strip_markdown_calm by assumption.
  now apply remove_backticks_plain.
Qed.

Lemma strip_markdown_keeps_lone_stars_witness :
  strip_markdown ("*net" ++ String newline "income*") =
  ("*net" ++ String newline "income*")%string.
Proof.
  apply (strip_markdown_keeps_lone_stars
           ("*net" ++ String newline "income*")).
  - reflexivity.
  - unfold free_of. simpl. intuition discriminate.
Defined.

(** X15: an emphasis within one line is unwrapped: for a text [s] without
    asterisk or line feed, [**s**] and, when [s] is not empty and no
    asterisk follows, [*s*] are replaced by [s], the text before them being
    free of asterisks; what follows is treated on its own. *)
Theorem strip_markdown_unwraps (pre s post : string) :
  free_of star pre -> free_of star s -> free_of newline s ->
  strip_markdown (pre ++ "**" ++ s ++ "**" ++ post) =
  (remove_backticks pre ++ remove_backticks s ++ strip_markdown post)%string
  /\
  (s <> "" -> (forall r : string, post <> String star r) ->
   strip_markdown (pre ++ "*" ++ s ++ "*" ++ post) =
   (remove_backticks pre ++ remove_backticks s ++ strip_markdown post)%string).
Proof.
  intros Hpre Hs Hn. split.
  - unfold strip_markdown.
    rewrite sub_bold_prefix by assumption.
    change ("**" ++ s ++ "**" ++ post)%string
      with (String star (String star (s ++ String star (String star post)))).
    rewrite sub_bold_match by assumption.
    rewrite sub_italic_prefix by assumption.
    rewrite sub_italic_prefix by assumption.
    now rewrite !remove_backticks_append.
  - intros Hne Hpost. unfold strip_markdown.
    assert (Hopen : opening2 (String star post) = None).
    { simpl. destruct post as [|c post]; [reflexivity|].
      destruct (Ascii.eqb c star) eqn:E; [|reflexivity].
      apply Ascii.eqb_eq in E. subst c. now elim (Hpost post). }
    rewrite sub_bold_prefix by assumption.
    change ("*" ++ s ++ "*" ++ post)%string
      with (String star (s ++ String star post)).
    rewrite sub_bold_copy.
    2:{ destruct s as [|c s]; [now elim Hne|].
        apply free_of_cons in Hs. destruct Hs as (Hc & _).
        apply Ascii.eqb_neq in Hc. simpl. now rewrite Hc. }
    rewrite sub_bold_prefix by assumption.
    rewrite sub_bold_copy by assumption.
    rewrite sub_italic_prefix by assumption.
    rewrite sub_italic_match by assumption.
    now rewrite !remove_backticks_append.
Qed.

Lemma strip_markdown_unwraps_witness :
  strip_markdown ("Revenue: " ++ "**" ++ "1,000" ++ "**" ++ " million") =
  "Revenue: 1,000 million" /\
  strip_markdown ("Revenue: " ++ "*" ++ "1,000" ++ "*" ++ " million") =
  "Revenue: 1,000 million".
Proof.
  destruct (strip_markdown_unwraps "Revenue: " "1,000" " million")
    as (Ha & Hb).
  - unfold free_of. simpl. intuition discriminate.
  - unfold free_of. simpl. intuition discriminate.
  - unfold free_of. simpl. intuition discriminate.
  - split.
    + exact Ha.
    + apply Hb.
      * discriminate.
      * intros r H. discriminate H.
Defined.

(** *** The window on the array *)

Lemma find_free (c : ascii) (s : string) (i : Z) :
  free_of c s -> find c s i = (-1)%Z.
Proof.
  revert i. induction s as [|d s IH]; intros i Hfree; [reflexivity|].
  apply free_of_cons in Hfree. destruct Hfree as (Hd & Hs).
  apply Ascii.eqb_neq in Hd. simpl. rewrite Hd. now apply IH.
Qed.

Lemma find_first (c : ascii) (pre rest : string) (i : Z) :
  free_of c pre ->
  find c (pre ++ String c rest) i = (i + Z.of_nat (String.length pre))%Z.
Proof.
  revert i. induction pre as [|d pre IH]; intros i Hfree.
  - simpl. rewrite Ascii.eqb_refl. lia.
  - apply free_of_cons in Hfree. destruct Hfree as (Hd & Hpre).
    apply Ascii.eqb_neq in Hd.
    change ((String d pre ++ String c rest)%string)
      with (String d (pre ++ String c rest)).
    unfold find. fold find. rewrite Hd, IH by assumption.
    simpl String.length. lia.
Qed.

Lemma rfind_free (c : ascii) (s : string) (i : Z) :
  free_of c s -> rfind c s i = (-1)%Z.
Proof.
  revert i. induction s as [|d s IH]; intros i Hfree; [reflexivity|].
  apply free_of_cons in Hfree. destruct Hfree as (Hd & Hs).
  apply Ascii.eqb_neq in Hd. simpl. rewrite IH by assumption.
  simpl. now rewrite Hd.
Qed.

Lemma rfind_last (c : ascii) (pre post : string) (i : Z) :
  (0 <= i)%Z -> free_of c post ->
  rfind c (pre ++ String c post) i = (i + Z.of_nat (String.length pre))%Z.
Proof.
  revert i. induction pre as [|d pre IH]; intros i Hi Hfree.
  - simpl. rewrite rfind_free by assumption. simpl.
    rewrite Ascii.eqb_refl. lia.
  - change ((String d pre ++ String c post)%string)
      with (String d (pre ++ String c post)).
    unfold rfind. fold rfind. cbv zeta.
    rewrite IH by (assumption || lia).
    replace ((i + 1 + Z.of_nat (String.length pre) =? -1)%Z) with false
      by (symmetry; apply Z.eqb_neq; lia).
    simpl String.length. lia.
Qed.

Lemma rfind_bound (c : ascii) (s : string) (i : Z) :
  (0 <= i)%Z -> (rfind c s i < i + Z.of_nat (String.length s))%Z.
Proof.
  revert i. induction s as [|d s IH]; intros i Hi.
  - simpl. lia.
  - unfold rfind. fold rfind. cbv zeta.
    specialize (IH (i + 1)%Z ltac:(lia)).
    simpl String.length.
    destruct (rfind c s (i + 1) =? -1)%Z; [|lia].
    destruct (Ascii.eqb d c); lia.
Qed.

Lemma rfind_before (c : ascii) (pre post : string) (i : Z) :
  free_of c post -> rfind c (pre ++ post) i = rfind c pre i.
Proof.
  revert i. induction pre as [|d pre IH]; intros i Hfree.
  - simpl. now apply rfind_free.
  - change ((String d pre ++ post)%string) with (String d (pre ++ post)).
    unfold rfind. fold rfind. cbv zeta. now rewrite IH.
Qed.

Lemma substring_whole (w post : string) :
  String.substring 0 (String.length w) (w ++ post) = w.
Proof.
  induction w as [|c w IH]; simpl; [now destruct post | now rewrite IH].
Qed.

Lemma substring_after (pre s : string) (n : nat) :
  String.substring (String.length pre) n (pre ++ s) = String.substring 0 n s.
Proof.
  induction pre as [|c pre IH]; simpl; [reflexivity | assumption].
Qed.

(** X16: the text handed to [json.loads] runs from the first opening bracket
    of the reply to its last closing bracket, the prose around them being
    dropped; a reply without an opening bracket, or with no closing bracket
    after the first opening one, gives no text to parse. *)
Theorem json_window_brackets (pre body post : string) :
  free_of "[" pre ->
  (free_of "]" post ->
   json_window (pre ++ "[" ++ body ++ "]" ++ post) =
   Some ("[" ++ body ++ "]")%string) /\
  json_window pre = None /\
  (free_of "]" post -> json_window (pre ++ "[" ++ post) = None).
Proof.
  intro Hpre. split; [|split].
  - intro Hpost. unfold json_window. cbv zeta.
    change (pre ++ "[" ++ body ++ "]" ++ post)%string
      with (pre ++ String "[" (body ++ String "]" post))%string.
    rewrite find_first by assumption.
    replace (pre ++ String "[" (body ++ String "]" post))%string
      with ((pre ++ String "[" body) ++ String "]" post)%string
      by (now rewrite append_assoc).
    rewrite rfind_last by (assumption || lia).
    rewrite length_append. simpl String.length.
    replace ((0 <=? 0 + Z.of_nat (String.length pre))%Z) with true
      by (symmetry; apply Z.leb_le; lia).
    replace ((0 + Z.of_nat (String.length pre) <?
              0 + Z.of_nat (String.length pre + S (String.length body)) + 1)%Z)
      with true by (symmetry; apply Z.ltb_lt; lia).
    cbn [andb]. f_equal. unfold slice.
    replace (Z.to_nat (0 + Z.of_nat (String.length pre)))
      with (String.length pre) by lia.
    replace (Z.to_nat
               (0 + Z.of_nat (String.length pre + S (String.length body)) + 1
                - (0 + Z.of_nat (String.length pre))))
      with (String.length ("[" ++ body ++ "]")%string)
      by (simpl; rewrite length_append; simpl; lia).
    rewrite append_assoc. rewrite substring_after.
    replace (String "[" body ++ String "]" post)%string
      with (("[" ++ body ++ "]") ++ post)%string
      by (simpl; now rewrite append_assoc).
    apply substring_whole.
  - unfold json_window. cbv zeta. now rewrite find_free.
  - intro Hpost. unfold json_window. cbv zeta.
    change (pre ++ "[" ++ post)%string with (pre ++ String "[" post)%string.
    rewrite find_first by assumption.
    rewrite rfind_before.
    2:{ apply free_of_cons. split; [discriminate | assumption]. }
    pose proof (rfind_bound "]" pre 0 ltac:(lia)) as Hb.
    replace ((0 + Z.of_nat (String.length pre) <? rfind "]" pre 0 + 1)%Z)
      with false by (symmetry; apply Z.ltb_ge; lia).
    now rewrite andb_false_r.
Qed.

Lemma json_window_brackets_witness :
  json_window ("Here is the data: " ++ "[" ++ "{}, {}" ++ "]" ++ " Hope it helps") =
  Some "[{}, {}]" /\
  json_window ("] no array " ++ "[" ++ " follows") = None.
Proof.
  split.
  - apply (json_window_brackets "Here is the data: " "{}, {}"
             " Hope it helps");
      unfold free_of; simpl; intuition discriminate.
  - apply (json_window_brackets "] no array " "" " follows");
      unfold free_of; simpl; intuition discriminate.
Defined.

(** X17: for a reply in which no line holds two asterisks, what is parsed
    is the text from the first opening bracket to the last closing one with
    its backticks removed, so that a code fence or prose around the array
    does no harm, and a backtick inside the array is lost. *)
Theorem decode_reply_window (json_loads : string -> option (list jitem))
    (pre body post : string) :
  stars_apart (pre ++ "[" ++ body ++ "]" ++ post) false = true ->
  free_of "[" pre -> free_of "]" post ->
  decode_reply json_loads (pre ++ "[" ++ body ++ "]" ++ post) =
  json_loads ("[" ++ remove_backticks body ++ "]")%string.
Proof.
  intros Hcalm Hpre Hpost. unfold decode_reply.
  rewrite strip_markdown_calm by assumption.
  rewrite !remove_backticks_append.
  change (remove_backticks "[") with "[".
  change (remove_backticks "]") with "]".
  destruct (json_window_brackets (remove_backticks pre)
              (remove_backticks body) (remove_backticks post))
    as (Hw & _).
  - now apply remove_backticks_keeps.
  - rewrite Hw; [reflexivity|]. now apply remove_backticks_keeps.
Qed.

Lemma decode_reply_window_witness :
  decode_reply Samples.loads_empty_object Samples.fenced_reply =
  Some [JDict None None].
Proof.
  apply (decode_reply_window Samples.loads_empty_object
           ("```json" ++ String "010" "") "{}" (String "010" "```")).
  - reflexivity.
  - unfold free_of. simpl. intuition discriminate.
  - unfold free_of. simpl. intuition discriminate.
Defined.

End ReplyTextFacts.

(** ** Facts about the edges of extract_financials.py *)

Module ExtractionEdgeFacts.
Import ExtractFinancials ReplyShape PyFacts ExtractFinancialsFacts.

(** *** When a reply is used as it is *)

Lemma all_numeric_true (js : list jitem) :
  forallb numeric_value js = true -> all_numeric js = Ok true.
Proof.
  induction js as [|item js IH]; intro H; [reflexivity|].
  simpl in H. apply andb_true_iff in H. destruct H as (Hi & Hjs).
  destruct item as [b [[q|s|]|]|]; try discriminate; simpl; now apply IH.
Qed.

Lemma all_zero_numeric (js : list jitem) :
  forallb numeric_value js = true ->
  all_zero js = Ok (negb (existsb nonzero_value js)).
Proof.
  induction js as [|item js IH]; intro H; [reflexivity|].
  simpl in H. apply andb_true_iff in H. destruct H as (Hi & Hjs).
  destruct item as [b [[q|s|]|]|]; try discriminate; simpl.
  - destruct (Qeq_bool q 0); simpl; [now apply IH | reflexivity].
  - now apply IH.
Qed.

Lemma all_numeric_ok (js : list jitem) (valid : bool) :
  all_numeric js = Ok valid -> valid = forallb numeric_value js.
Proof.
  induction js as [|item js IH]; intro H.
  - simpl in H. now injection H as <-.
  - destruct item as [b [[q|s|]|]|]; simpl in H |- *;
      try discriminate; try (now apply IH); now injection H as <-.
Qed.

Lemma all_numeric_raise (js : list jitem) (e : exn) :
  all_numeric js = Raise e ->
  e = AttributeError /\
  exists pre post : list jitem,
    js = pre ++ NotDict :: post /\ forallb numeric_value pre = true.
Proof.
  induction js as [|item js IH]; intro H; [discriminate|].
  destruct item as [b [[q|s|]|]|]; simpl in H; try discriminate.
  - destruct (IH H) as (He & pre & post & -> & Hpre).
    split; [assumption|].
    now exists (JDict b (Some (JNum q)) :: pre), post.
  - destruct (IH H) as (He & pre & post & -> & Hpre).
    split; [assumption|]. now exists (JDict b None :: pre), post.
  - injection H as <-. split; [reflexivity|]. now exists [], js.
Qed.

Lemma all_numeric_not_dict (pre post : list jitem) :
  forallb numeric_value pre = true ->
  all_numeric (pre ++ NotDict :: post) = Raise AttributeError.
Proof.
  induction pre as [|item pre IH]; intro H; [reflexivity|].
  simpl in H. apply andb_true_iff in H. destruct H as (Hi & Hpre).
  destruct item as [b [[q|s|]|]|]; try discriminate; simpl; now apply IH.
Qed.

Lemma unusable_not_dict (pre post : list jitem) :
  forallb numeric_value pre = true ->
  unusable (pre ++ NotDict :: post) = Raise AttributeError.
Proof.
  intro H. unfold unusable. now rewrite all_numeric_not_dict.
Qed.

(** X18: a decoded reply is used as it is exactly when it is not empty,
    each of its items is an object whose value is a number or is missing,
    and at least one value is not zero; in every other case but one the
    regex fallback is used; the one case is a reply with an item that is not
    an object after items that all pass the test on numbers, where the test
    raises AttributeError. *)
Theorem unusable_cases (js : list jitem) :
  (unusable js = Ok false <->
   js <> [] /\ forallb numeric_value js = true /\
   existsb nonzero_value js = true) /\
  (unusable js = Raise AttributeError <->
   exists pre post : list jitem,
     js = pre ++ NotDict :: post /\ forallb numeric_value pre = true) /\
  (forall e : exn, unusable js = Raise e -> e = AttributeError).
Proof.
  assert (Hraise : forall e : exn, unusable js = Raise e ->
            e = AttributeError /\
            exists pre post : list jitem,
              js = pre ++ NotDict :: post /\
              forallb numeric_value pre = true).
  { intros e H. unfold unusable in H.
    destruct (all_numeric js) as [valid|e'] eqn:E; cbn [bind] in H.
    - destruct js as [|item js]; [discriminate|].
      pose proof (all_numeric_ok _ _ E) as Hv.
      destruct valid; cbn [negb] in H; [|discriminate].
      rewrite all_zero_numeric in H by (now symmetry). discriminate.
    - injection H as <-. now apply all_numeric_raise. }
  split; [|split].
  - split.
    + intro H. unfold unusable in H.
      destruct (all_numeric js) as [valid|e'] eqn:E; cbn [bind] in H;
        [|discriminate].
      destruct js as [|item js]; [discriminate|].
      pose proof (all_numeric_ok _ _ E) as Hv.
      destruct valid; cbn [negb] in H; [|discriminate].
      symmetry in Hv.
      rewrite all_zero_numeric in H by assumption.
      injection H as H. apply negb_false_iff in H.
      split; [discriminate|]. auto.
    + intros (Hne & Hnum & Hnz). unfold unusable.
      rewrite all_numeric_true, all_zero_numeric by assumption.
      cbn [bind negb]. rewrite Hnz.
      destruct js; [now elim Hne | reflexivity].
  - split.
    + intro H. now apply (Hraise AttributeError).
    + intros (pre & post & -> & Hpre). now apply unusable_not_dict.
  - intros e H. now apply Hraise.
Qed.

Lemma unusable_cases_witness :
  unusable Examples.short_reply = Ok false /\
  unusable Samples.broken_file = Raise AttributeError.
Proof.
  split.
  - apply (proj1 (unusable_cases Examples.short_reply)).
    split; [discriminate|]. split; reflexivity.
  - apply (proj1 (proj2 (unusable_cases Samples.broken_file))).
    exists [bucket_item "Revenue" 1000], []. split; reflexivity.
Defined.

(** X19: the first request is outside any handler: a reply that holds an
    item that is not an object, after items that are objects with a number
    or no value, makes the extraction raise AttributeError, whatever the
    text holds for the fallback. *)
Theorem extraction_raises_on_non_object
    (call_ollama : prompt -> res decoded)
    (re_search : string -> string -> reflag -> option rmatch)
    (text : string) (pre post : list jitem) :
  call_ollama (ExtractionPrompt text) = Ok (Some (pre ++ NotDict :: post)) ->
  forallb numeric_value pre = true ->
  extract_financial_buckets_from_summary call_ollama re_search text =
  Raise AttributeError.
Proof.
  intros Hcall Hpre. unfold extract_financial_buckets_from_summary.
  rewrite Hcall. cbn [bind]. now rewrite unusable_not_dict.
Qed.

Lemma extraction_raises_on_non_object_witness :
  extract_financial_buckets_from_summary
    (fun _ => Ok (Some Samples.broken_file))
    Examples.revenue_search Examples.revenue_text = Raise AttributeError.
Proof.
  apply (extraction_raises_on_non_object _ _ _
           [bucket_item "Revenue" 1000] []); reflexivity.
Defined.

(** *** The second reply *)

Lemma breakdown_item_malformed (item : jitem) (pi si : Z)
    (b : list jitem) :
  malformed item = true ->
  exists e : exn, breakdown_item item pi si b = (b, Some e).
Proof.
  intro H. unfold breakdown_item.
  destruct item as [[name|] v|]; simpl in H |- *.
  - apply andb_true_iff in H. destruct H as (Hname & Hv).
    destruct (py_eq_str name "Products") eqn:Ep.
    + destruct v as [[q|s|]|]; try discriminate; simpl;
        eexists; reflexivity.
    + simpl in Hname. rewrite Hname.
      destruct v as [[q|s|]|]; try discriminate; simpl;
        eexists; reflexivity.
  - eexists. reflexivity.
  - eexists. reflexivity.
Qed.

Lemma breakdown_loop_malformed (pre post : list jitem) (bad : jitem)
    (pi si : Z) (b : list jitem) :
  malformed bad = true ->
  fst (breakdown_loop (pre ++ bad :: post) pi si b) =
  fst (breakdown_loop pre pi si b).
Proof.
  intro Hbad. revert b. induction pre as [|item pre IH]; intro b.
  - simpl. destruct (breakdown_item_malformed bad pi si b Hbad) as (e & ->).
    reflexivity.
  - simpl. destruct (breakdown_item item pi si b) as [st [e|]];
      [reflexivity | apply IH].
Qed.

(** X20: the loop over the second reply stops at the first item it cannot
    read (not an object, no name, or Products or Services without a
    number): the items after it are ignored, and what the items before it
    have set stays set. *)
Theorem breakdown_stops_at_malformed
    (call_ollama call_ollama' : prompt -> res decoded) (text : string)
    (pre post : list jitem) (bad : jitem)
    (buckets : list jitem) (products_idx services_idx : Z) :
  malformed bad = true ->
  call_ollama (BreakdownPrompt text) = Ok (Some (pre ++ bad :: post)) ->
  call_ollama' (BreakdownPrompt text) = Ok (Some pre) ->
  breakdown call_ollama text buckets products_idx services_idx =
  breakdown call_ollama' text buckets products_idx services_idx.
Proof.
  intros Hbad H H'. unfold breakdown. rewrite H, H'.
  now apply breakdown_loop_malformed.
Qed.

Lemma breakdown_stops_at_malformed_witness :
  breakdown Samples.service_half ""
    (bucket_list Examples.no_parts) 0 1 =
  breakdown Samples.service_first ""
    (bucket_list Examples.no_parts) 0 1 /\
  value_at (breakdown Samples.service_half ""
              (bucket_list Examples.no_parts) 0 1) 0 = Ok (JNum 600).
Proof.
  split; [|reflexivity].
  apply (breakdown_stops_at_malformed _ _ ""
           [bucket_item "Products" 600] [bucket_item "Products" 700]
           (JDict (Some (JStr "Services")) (Some (JStr "n/a"))));
    reflexivity.
Defined.

(** *** Names that the reply does not hold *)






(** *** The values of the fallback *)







Lemma nonneg_val_at (l : list (string * Q)) (i : nat) :
  nonneg l -> 0 <= val_at l i.
Proof.
  intro H. unfold val_at.
  destruct (nth_error l i) as [[k q]|] eqn:E; [|apply Qle_refl].
  apply nth_error_In in E. unfold nonneg in H.
  rewrite Forall_forall in H. now apply (H (k, q)).
Qed.









End ExtractionEdgeFacts.
